(** * Bank statement extraction engine: [parse_currency] and
      [extract_statement_data] of backend/main.py

    The development embeds the two service-layer functions of the converter
    and the fragments of the Python runtime they call: [str] methods, the
    decimal grammar of [float()], the backtracking semantics of the [re]
    module for the operators the ten patterns of the source use, and the
    ascending sort of [DataFrame.sort_values].

    Texts are sequences of code points below 256, so a character is an
    [ascii]; [\d], [\s] and [str.strip] are the Unicode classes restricted
    to that range. *)

From Stdlib Require Import Ascii String.
From Stdlib Require Import List ZArith Bool Lia Permutation Sorted.
Import ListNotations.

Local Open Scope list_scope.
Local Open Scope Z_scope.

Set Implicit Arguments.

(* ===================================================================== *)
(** * Python strings *)
(* ===================================================================== *)

Definition text := list ascii.

(** A string literal of the source. *)
Definition str (s : string) : text := list_ascii_of_string s.

Module PyStr.

Definition code (c : ascii) : Z := Z.of_N (N_of_ascii c).

(** [\d] on code points below 256: the ASCII digits. *)
Definition is_digit (c : ascii) : bool :=
  (48 <=? code c) && (code c <=? 57).

(** [\s] and the characters [str.strip()] removes: TAB LF VT FF CR,
    FS GS RS US, SPACE, NEL (0x85) and NBSP (0xA0). *)
Definition is_space (c : ascii) : bool :=
  let n := code c in
  ((9 <=? n) && (n <=? 13)) || ((28 <=? n) && (n <=? 32))
  || (n =? 133) || (n =? 160).

(** [[A-Za-z]] *)
Definition is_alpha (c : ascii) : bool :=
  let n := code c in
  ((65 <=? n) && (n <=? 90)) || ((97 <=? n) && (n <=? 122)).

Definition is_char (a : ascii) (c : ascii) : bool := Ascii.eqb c a.

(** [c in s] for a one-character [c]. *)
Definition contains (c : ascii) (s : text) : bool := existsb (is_char c) s.

(** [s.replace(old, new)] for a one-character [old]; also
    [re.sub(cls, new, s)] for a pattern that is one character class. *)
Definition sub_class (cls : ascii -> bool) (new : text) (s : text) : text :=
  flat_map (fun c => if cls c then new else [c]) s.

Definition replace (old : ascii) (new : text) (s : text) : text :=
  sub_class (is_char old) new s.

Fixpoint lstrip (s : text) : text :=
  match s with
  | c :: s' => if is_space c then lstrip s' else s
  | [] => []
  end.

Definition rstrip (s : text) : text := rev (lstrip (rev s)).

Definition strip (s : text) : text := rstrip (lstrip s).

(** [s < t] and [s <= t] on strings: lexicographic on code points, a
    proper prefix is smaller. *)
Fixpoint ltb (s t : text) : bool :=
  match s, t with
  | [], [] => false
  | [], _ :: _ => true
  | _ :: _, [] => false
  | a :: s', b :: t' =>
      if code a <? code b then true
      else if code b <? code a then false
      else ltb s' t'
  end.

Definition leb (s t : text) : bool := negb (ltb t s).

(** [s.startswith(p)] *)
Fixpoint prefixb (p s : text) : bool :=
  match p, s with
  | [], _ => true
  | a :: p', b :: s' => Ascii.eqb a b && prefixb p' s'
  | _ :: _, [] => false
  end.

End PyStr.

(* ===================================================================== *)
(** * Python floats *)
(* ===================================================================== *)

(** Exceptions the modelled code can raise, and results of calls. *)
Inductive exn := ValueError.

Inductive pyresult (A : Type) :=
| Ok (a : A)
| Raise (e : exn).
Arguments Ok {A} a.
Arguments Raise {A} e.

Definition bind {A B} (m : pyresult A) (f : A -> pyresult B) : pyresult B :=
  match m with
  | Ok a => f a
  | Raise e => Raise e
  end.

(** [try: body except ValueError: handler] *)
Definition try_except {A} (body : pyresult A) (handler : pyresult A)
  : pyresult A :=
  match body with
  | Ok a => Ok a
  | Raise ValueError => handler
  end.

Notation "x <- m ;; k" := (bind m (fun x => k))
  (at level 61, m at next level, right associativity).

(** A binary64 value: [Float neg m e] is (-1)^neg * m * 2^e. The
    conversion [round64] below builds the canonical form (zero is
    [m = 0, e = 0]; a normal number has 2^52 <= m < 2^53; a subnormal has
    e = -1074), in which equal floats are equal terms. NaN is left out: no
    path of the modelled code produces it. *)
Inductive pyfloat :=
| Float (neg : bool) (m : Z) (e : Z)
| Infinity (neg : bool).

Module PyFloat.

Definition zero : pyfloat := Float false 0 0.

(** Unary minus. *)
Definition neg (f : pyfloat) : pyfloat :=
  match f with
  | Float s m e => Float (negb s) m e
  | Infinity s => Infinity (negb s)
  end.

Definition sign (f : pyfloat) : bool :=
  match f with
  | Float s _ _ => s
  | Infinity s => s
  end.

(** [f >= 0], true of both zeros. *)
Definition nonneg (f : pyfloat) : bool :=
  match f with
  | Float s m _ => negb s || (m =? 0)
  | Infinity s => negb s
  end.

(** [f == a] for an integer [a]: Python compares the exact values. *)
Definition eq_int (f : pyfloat) (a : Z) : Prop :=
  match f with
  | Float s m e =>
      let v := if s then - m else m in
      if 0 <=? e then v * 2 ^ e = a else v = a * 2 ^ (- e)
  | Infinity _ => False
  end.

(** Nearest integer to n/d, ties to even (d > 0, n >= 0). *)
Definition round_half_even (n d : Z) : Z :=
  let q := n / d in
  let r := n mod d in
  if 2 * r <? d then q
  else if d <? 2 * r then q + 1
  else if Z.even q then q else q + 1.

(** 2^e * d <= n *)
Definition pow2_le (e n d : Z) : bool :=
  if 0 <=? e then d * 2 ^ e <=? n else d <=? n * 2 ^ (- e).

(** floor (log2 (n/d)) for n, d > 0. *)
Definition binade (n d : Z) : Z :=
  let e0 := Z.log2 n - Z.log2 d in
  if pow2_le e0 n d then e0 else e0 - 1.

(** The binary64 nearest to n/d (n >= 0, d > 0), ties to even, with
    gradual underflow and overflow to infinity: what [float()] returns
    for a decimal string denoting n/d. *)
Definition round64 (s : bool) (n d : Z) : pyfloat :=
  let g := Z.gcd n d in
  let n := n / g in
  let d := d / g in
  if n =? 0 then Float s 0 0 else
  let e := binade n d in
  let q := Z.max (e - 52) (-1074) in
  let m := if 0 <=? q then round_half_even n (d * 2 ^ q)
           else round_half_even (n * 2 ^ (- q)) d in
  let '(m, q) := if m =? 2 ^ 53 then (2 ^ 52, q + 1) else (m, q) in
  if 971 <? q then Infinity s
  else if m =? 0 then Float s 0 0
  else Float s m q.

Definition digit_val (c : ascii) : Z := PyStr.code c - 48.

(** Value of a digit string, most significant digit first. *)
Definition digits_val (ds : text) : Z :=
  fold_left (fun acc c => 10 * acc + digit_val c) ds 0.

(** Longest prefix of digits, and the rest. *)
Fixpoint span_digits (s : text) : text * text :=
  match s with
  | c :: s' =>
      if PyStr.is_digit c
      then let '(ds, r) := span_digits s' in (c :: ds, r)
      else ([], s)
  | [] => ([], [])
  end.

(** An optional sign. *)
Definition split_sign (s : text) : bool * text :=
  match s with
  | "-"%char :: r => (true, r)
  | "+"%char :: r => (false, r)
  | _ => (false, s)
  end.

(** The float denoted by integer digits [ip] and fraction digits [fp];
    at least one digit is required. *)
Definition decimal (sg : bool) (ip fp : text) : pyresult pyfloat :=
  match ip ++ fp with
  | [] => Raise ValueError
  | _ :: _ => Ok (round64 sg (digits_val (ip ++ fp))
                          (10 ^ Z.of_nat (length fp)))
  end.

(** [float(s)] on the decimal grammar
      [sign] (digits ["." [digits]] | "." digits)
    after stripping surrounding whitespace. Exponents, underscores and
    the words inf/nan need characters outside [0-9.+-] and the model
    raises ValueError on them; the one call site passes a string over
    [0-9.-] only (lemma [cleaned_alphabet]). *)
Definition py_float (s : text) : pyresult pyfloat :=
  let '(sg, body) := split_sign (PyStr.strip s) in
  let '(ip, rest) := span_digits body in
  match rest with
  | [] => decimal sg ip []
  | "."%char :: r =>
      let '(fp, rest') := span_digits r in
      match rest' with
      | [] => decimal sg ip fp
      | _ :: _ => Raise ValueError
      end
  | _ :: _ => Raise ValueError
  end.

End PyFloat.

(* ===================================================================== *)
(** * Currency normalizer *)
(* ===================================================================== *)

(** The class [[^\d.\-]] of the [re.sub] call. *)
Definition non_numeric (c : ascii) : bool :=
  negb (PyStr.is_digit c || PyStr.is_char "." c || PyStr.is_char "-" c).

Definition parse_currency (amount_str : text) : pyresult pyfloat :=
  match amount_str with
  | [] => Ok PyFloat.zero
  | _ =>
      let clean_str :=
        PyStr.strip (PyStr.replace "," [] (PyStr.replace "$" [] amount_str)) in
      let is_negative :=
        PyStr.contains "(" clean_str && PyStr.contains ")" clean_str in
      let clean_str :=
        if is_negative
        then PyStr.replace ")" [] (PyStr.replace "(" [] clean_str)
        else clean_str in
      let clean_str := PyStr.sub_class non_numeric [] clean_str in
      try_except
        (value <- PyFloat.py_float clean_str ;;
         Ok (if is_negative then PyFloat.neg value else value))
        (Ok PyFloat.zero)
  end.

(* ===================================================================== *)
(** * The [re] module *)
(* ===================================================================== *)

Definition nl : ascii := "010"%char.

Module Re.

(** Patterns, with the operators the source uses. Every repetition of
    the source ranges over one character class. *)
Inductive regex :=
| Eps
| Lit (l : text)                                 (* literal text *)
| Cls (p : ascii -> bool)                        (* [...], \d, \s, . *)
| Seq (r1 r2 : regex)
| Alt (r1 r2 : regex)                            (* r1|r2 *)
| Rep (greedy : bool) (min : nat) (p : ascii -> bool)
                                                 (* p* p+ p*? p+? *)
| Grp (n : nat) (r : regex)                      (* capturing group n *)
| Ahead (r : regex)                              (* (?=r) *)
| Eos.                                           (* $ *)

Definition cat (rs : list regex) : regex := fold_right Seq Eps rs.

(** r? *)
Definition opt (r : regex) : regex := Alt r Eps.

(** Captured groups, latest binding first. *)
Definition caps := list (nat * text).

Fixpoint get (n : nat) (c : caps) : option text :=
  match c with
  | [] => None
  | (k, t) :: c' => if Nat.eqb k n then Some t else get n c'
  end.

Definition set (n : nat) (t : text) (c : caps) : caps := (n, t) :: c.

Section Backtracking.
Variable R : Type.

(** Greedy repetition: take as many characters as the class allows,
    give them back one at a time. The continuation receives the
    characters consumed and the rest of the input. *)
Fixpoint rep_greedy (p : ascii -> bool) (min : nat) (s : text)
         (k : text -> text -> option R) : option R :=
  match s with
  | a :: s' =>
      if p a then
        match rep_greedy p (Nat.pred min) s' (fun m r => k (a :: m) r) with
        | Some x => Some x
        | None => match min with O => k [] s | S _ => None end
        end
      else match min with O => k [] s | S _ => None end
  | [] => match min with O => k [] s | S _ => None end
  end.

(** Lazy repetition: stop as early as allowed, take one more character
    each time the continuation fails. *)
Fixpoint rep_lazy (p : ascii -> bool) (min : nat) (s : text)
         (k : text -> text -> option R) : option R :=
  match min, s with
  | O, a :: s' =>
      match k [] s with
      | Some x => Some x
      | None =>
          if p a then rep_lazy p O s' (fun m r => k (a :: m) r) else None
      end
  | O, [] => k [] []
  | S n, a :: s' =>
      if p a then rep_lazy p n s' (fun m r => k (a :: m) r) else None
  | S _, [] => None
  end.
End Backtracking.

(** The backtracking matcher at one start position. The continuation
    receives the text matched, the rest of the input and the groups. *)
Fixpoint bt (r : regex) (R : Type) (s : text) (c : caps)
         (k : text -> text -> caps -> option R) {struct r} : option R :=
  match r with
  | Eps => k [] s c
  | Lit l =>
      if PyStr.prefixb l s then k l (skipn (length l) s) c else None
  | Cls p =>
      match s with
      | a :: s' => if p a then k [a] s' c else None
      | [] => None
      end
  | Seq r1 r2 =>
      bt r1 s c (fun m1 s1 c1 =>
      bt r2 s1 c1 (fun m2 s2 c2 => k (m1 ++ m2) s2 c2))
  | Alt r1 r2 =>
      match bt r1 s c k with
      | Some x => Some x
      | None => bt r2 s c k
      end
  | Rep true min p => rep_greedy p min s (fun m r => k m r c)
  | Rep false min p => rep_lazy p min s (fun m r => k m r c)
  | Grp n r1 => bt r1 s c (fun m s1 c1 => k m s1 (set n m c1))
  | Ahead r1 =>
      match bt r1 s c (fun _ _ c1 => Some c1) with
      | Some c1 => k [] s c1
      | None => None
      end
  | Eos =>
      (* end of the string, or just before a final newline *)
      match s with
      | [] => k [] s c
      | [a] => if Ascii.eqb a nl then k [] s c else None
      | _ => None
      end
  end.

(** A match object: group 0 and the numbered groups. *)
Record mobj := { whole : text; groups : caps }.

(** [m.group(n)]; every group of the patterns of the source lies on the
    spine of its pattern, so it is set in every match (lemmas
    [*_shape] below) and the [None] of an unset group never arises. *)
Definition group (m : mobj) (n : nat) : text :=
  match n with
  | O => whole m
  | _ => match get n (groups m) with Some t => t | None => [] end
  end.

Definition match_at (r : regex) (s : text) : option mobj :=
  bt r s [] (fun m _ c => Some {| whole := m; groups := c |}).

(** [re.search]: the match at the leftmost start position that has one. *)
Fixpoint search (r : regex) (s : text) : option mobj :=
  match match_at r s with
  | Some m => Some m
  | None =>
      match s with
      | [] => None
      | _ :: s' => search r s'
      end
  end.

(** [re.finditer]: successive non-overlapping matches, left to right.
    [skip] counts the characters of the previous match still to pass.
    After an empty match the scan moves on by one character. *)
Fixpoint finditer_from (r : regex) (skip : nat) (s : text) : list mobj :=
  match skip with
  | S n =>
      match s with
      | [] => []
      | _ :: s' => finditer_from r n s'
      end
  | O =>
      match match_at r s with
      | Some m =>
          m :: match s with
               | [] => []
               | _ :: s' => finditer_from r (Nat.pred (length (whole m))) s'
               end
      | None =>
          match s with
          | [] => []
          | _ :: s' => finditer_from r O s'
          end
      end
  end.

Definition finditer (r : regex) (s : text) : list mobj :=
  finditer_from r O s.

(** What a successful match looks like, priorities forgotten: [den r m
    rest c c'] says that [r] can match the text [m] when followed by
    [rest], turning the groups [c] into [c']. *)
Fixpoint den (r : regex) (m rest : text) (c c' : caps) : Prop :=
  match r with
  | Eps => m = [] /\ c' = c
  | Lit l => m = l /\ c' = c
  | Cls p => (exists a, m = [a] /\ p a = true) /\ c' = c
  | Seq r1 r2 =>
      exists m1 m2 c1,
        m = m1 ++ m2 /\ den r1 m1 (m2 ++ rest) c c1 /\ den r2 m2 rest c1 c'
  | Alt r1 r2 => den r1 m rest c c' \/ den r2 m rest c c'
  | Rep _ min p =>
      (forallb p m = true /\ (min <= length m)%nat) /\ c' = c
  | Grp n r1 => exists c1, den r1 m rest c c1 /\ c' = set n m c1
  | Ahead r1 =>
      m = [] /\ exists m1 rest1, rest = m1 ++ rest1 /\ den r1 m1 rest1 c c'
  | Eos => m = [] /\ (rest = [] \/ rest = [nl]) /\ c' = c
  end.

End Re.

Import Re.

(* ===================================================================== *)
(** * Patterns of [extract_statement_data] *)
(* ===================================================================== *)

Definition any_char (_ : ascii) : bool := true.           (* . with DOTALL *)
Definition not_nl (c : ascii) : bool := negb (Ascii.eqb c nl).
                                                   (* [^\n], and . *)
Definition not_dollar (c : ascii) : bool := negb (PyStr.is_char "$" c).
Definition digit_or_comma (c : ascii) : bool :=
  PyStr.is_digit c || PyStr.is_char "," c.

Definition digit : regex := Cls PyStr.is_digit.            (* \d *)
Definition spaces : regex := Rep true 1 PyStr.is_space.    (* \s+ *)
Definition spaces0 : regex := Rep true 0 PyStr.is_space.   (* \s* *)
Definition digits : regex := Rep true 1 PyStr.is_digit.    (* \d+ *)

(** [\d{2}-\d{2}] *)
Definition date_re : regex := cat [digit; digit; Lit (str "-"); digit; digit].

(** AMOUNT is [[\d,]+\.?\d*] *)
Definition amount_re : regex :=
  cat [Rep true 1 digit_or_comma; opt (Lit (str ".")); Rep true 0 PyStr.is_digit].

(** [[A-Za-z]+\s+\d+,?\s+\d{4}] *)
Definition long_date_re : regex :=
  cat [Rep true 1 PyStr.is_alpha; spaces; digits; opt (Lit (str ","));
       spaces; digit; digit; digit; digit].

(** [Account\s*#\s*(\d+)] *)
Definition account_re : regex :=
  cat [Lit (str "Account"); spaces0; Lit (str "#"); spaces0; Grp 1 digits].

(** [Beginning Balance[^\$]*\$(AMOUNT)] *)
Definition begin_re : regex :=
  cat [Lit (str "Beginning Balance"); Rep true 0 not_dollar; Lit (str "$");
       Grp 1 amount_re].

(** [Ending Balance[^\$]*\$(AMOUNT)] *)
Definition end_re : regex :=
  cat [Lit (str "Ending Balance"); Rep true 0 not_dollar; Lit (str "$");
       Grp 1 amount_re].

(** [(?:Beginning Balance on|from)\s+([A-Za-z]+\s+\d+,?\s+\d{4})] *)
Definition period_re : regex :=
  cat [Alt (Lit (str "Beginning Balance on")) (Lit (str "from")); spaces;
       Grp 1 long_date_re].

(** [(?:Ending Balance on|through|to)\s+([A-Za-z]+\s+\d+,?\s+\d{4})] *)
Definition end_period_re : regex :=
  cat [Alt (Lit (str "Ending Balance on"))
           (Alt (Lit (str "through")) (Lit (str "to")));
       spaces; Grp 1 long_date_re].

(** [(Deposit[^\n]*?)\s+(\d{2}-\d{2})\s+\$(AMOUNT)] *)
Definition deposit_pattern : regex :=
  cat [Grp 1 (cat [Lit (str "Deposit"); Rep false 0 not_nl]); spaces;
       Grp 2 date_re; spaces; Lit (str "$"); Grp 3 amount_re].

(** [ATM Withdrawals \& Debits Account.*?\n(.*?)(?=Total ATM|$)], DOTALL *)
Definition atm_section_re : regex :=
  cat [Lit (str "ATM Withdrawals & Debits Account"); Rep false 0 any_char;
       Lit [nl]; Grp 1 (Rep false 0 any_char);
       Ahead (Alt (Lit (str "Total ATM")) Eos)].

(** [ATM Withdrawal\n([^\n]+)\n([^\n]*?)(\d{2}-\d{2})\s+(\d{2}-\d{2})\s+\$(AMOUNT)] *)
Definition atm_pattern : regex :=
  cat [Lit (str "ATM Withdrawal"); Lit [nl]; Grp 1 (Rep true 1 not_nl);
       Lit [nl]; Grp 2 (Rep false 0 not_nl); Grp 3 date_re; spaces;
       Grp 4 date_re; spaces; Lit (str "$"); Grp 5 amount_re].

(** [ChecksPaid[^\n]*\n.*?Date Paid[^\n]*\n(.*?)(?=Total Checks|$)], DOTALL *)
Definition checks_section_re : regex :=
  cat [Lit (str "ChecksPaid"); Rep true 0 not_nl; Lit [nl];
       Rep false 0 any_char; Lit (str "Date Paid"); Rep true 0 not_nl;
       Lit [nl]; Grp 1 (Rep false 0 any_char);
       Ahead (Alt (Lit (str "Total Checks")) Eos)].

(** [(\d{2}-\d{2})\s+(\d+)\s+(AMOUNT)\s+(\d+)] *)
Definition check_pattern : regex :=
  cat [Grp 1 date_re; spaces; Grp 2 digits; spaces; Grp 3 amount_re; spaces;
       Grp 4 digits].

(** [(\d{2}-\d{2})\s+(.*?)\s+\$(AMOUNT)] *)
Definition generic_pattern : regex :=
  cat [Grp 1 date_re; spaces; Grp 2 (Rep false 0 not_nl); spaces;
       Lit (str "$"); Grp 3 amount_re].

(* ===================================================================== *)
(** * Data model *)
(* ===================================================================== *)

Record HeaderRecord := {
  account_number : text;
  statement_period : text;
  beginning_balance : text;
  ending_balance : text
}.

(** The three values the source stores under "Type". *)
Inductive TxType := Credit | Debit | Unknown.

(** One row of the transaction table. *)
Record Transaction := {
  Date : text;
  Description : text;
  Type_ : TxType;
  Amount : pyfloat
}.

Definition unknown : text := str "Unknown".

(* ===================================================================== *)
(** * [DataFrame.sort_values('Date')] *)
(* ===================================================================== *)

(** Rows in ascending order of the string [Date]. The order pandas gives
    to rows with equal dates is not used by anything below. *)
Fixpoint insert_row (r : Transaction) (l : list Transaction) : list Transaction :=
  match l with
  | [] => [r]
  | x :: l' =>
      if PyStr.leb (Date r) (Date x) then r :: l else x :: insert_row r l'
  end.

Definition sort_values (l : list Transaction) : list Transaction :=
  fold_right insert_row [] l.

(* ===================================================================== *)
(** * [extract_statement_data] *)
(* ===================================================================== *)

Fixpoint mapM {A B} (f : A -> pyresult B) (l : list A) : pyresult (list B) :=
  match l with
  | [] => Ok []
  | x :: l' => y <- f x ;; ys <- mapM f l' ;; Ok (y :: ys)
  end.

(** The buffer built from the pages: [page.extract_text()] gives [None]
    or a string, and empty strings are skipped like [None]. *)
Fixpoint full_text_of (pages : list (option text)) : text :=
  match pages with
  | [] => []
  | Some (c :: t) :: ps => (c :: t) ++ [nl] ++ full_text_of ps
  | _ :: ps => full_text_of ps
  end.

(** Header extractor. *)
Definition extract_header (full_text : text) : HeaderRecord :=
  let acc :=
    match search account_re full_text with
    | Some acc_match => group acc_match 1
    | None => unknown
    end in
  let bb :=
    match search begin_re full_text with
    | Some begin_match => str "$" ++ group begin_match 1
    | None => unknown
    end in
  let eb :=
    match search end_re full_text with
    | Some end_match => str "$" ++ group end_match 1
    | None => unknown
    end in
  let sp :=
    match search period_re full_text, search end_period_re full_text with
    | Some period_match, Some end_period =>
        group period_match 1 ++ str " - " ++ group end_period 1
    | _, _ => unknown
    end in
  {| account_number := acc; statement_period := sp;
     beginning_balance := bb; ending_balance := eb |}.

(** Pattern 1: one Credit row per deposit line. *)
Definition deposit_row (m : mobj) : pyresult Transaction :=
  amount <- parse_currency (group m 3) ;;
  Ok {| Date := group m 2; Description := PyStr.strip (group m 1);
        Type_ := Credit; Amount := amount |}.

Definition deposit_rows (full_text : text) : pyresult (list Transaction) :=
  mapM deposit_row (finditer deposit_pattern full_text).

(** Pattern 2: one Debit row per ATM block of the ATM section. *)
Definition atm_row (m : mobj) : pyresult Transaction :=
  let location := PyStr.strip (group m 1) in
  amount <- parse_currency (group m 5) ;;
  Ok {| Date := group m 4;
        Description := str "ATM Withdrawal - " ++ location;
        Type_ := Debit; Amount := amount |}.

Definition atm_rows (full_text : text) : pyresult (list Transaction) :=
  match search atm_section_re full_text with
  | Some atm_section =>
      let atm_text := group atm_section 1 in
      mapM atm_row (finditer atm_pattern atm_text)
  | None => Ok []
  end.

(** Pattern 3: one Debit row per line of the checks table. *)
Definition check_row (m : mobj) : pyresult Transaction :=
  amount <- parse_currency (group m 3) ;;
  Ok {| Date := group m 1; Description := str "Check #" ++ group m 2;
        Type_ := Debit; Amount := amount |}.

Definition check_rows (full_text : text) : pyresult (list Transaction) :=
  match search checks_section_re full_text with
  | Some checks_section =>
      let checks_text := group checks_section 1 in
      mapM check_row (finditer check_pattern checks_text)
  | None => Ok []
  end.

(** Pattern 4: the generic line pattern. *)
Definition generic_row (m : mobj) : pyresult Transaction :=
  amount <- parse_currency (group m 3) ;;
  Ok {| Date := group m 1;
        Description := firstn 50 (PyStr.strip (group m 2));
        Type_ := Unknown; Amount := amount |}.

Definition generic_rows (full_text : text) : pyresult (list Transaction) :=
  mapM generic_row (finditer generic_pattern full_text).

(** The rows the fallback appends, given what patterns 1-3 gathered. *)
Definition fallback_rows (transactions : list Transaction) (full_text : text)
  : pyresult (list Transaction) :=
  match transactions with
  | [] => generic_rows full_text
  | _ :: _ => Ok []
  end.

(** The list [transactions] at the end of the [with] block. *)
Definition gather (full_text : text) : pyresult (list Transaction) :=
  t1 <- deposit_rows full_text ;;
  t2 <- atm_rows full_text ;;
  t3 <- check_rows full_text ;;
  let transactions := t1 ++ t2 ++ t3 in
  t4 <- fallback_rows transactions full_text ;;
  Ok (transactions ++ t4).

(** The frame returned: the rows sorted by date, or the empty frame. *)
Definition to_frame (transactions : list Transaction) : list Transaction :=
  match transactions with
  | [] => []
  | _ :: _ => sort_values transactions
  end.

Definition extract_text (full_text : text)
  : pyresult (HeaderRecord * list Transaction) :=
  let header_data := extract_header full_text in
  transactions <- gather full_text ;;
  Ok (header_data, to_frame transactions).

Definition extract_statement_data (pages : list (option text))
  : pyresult (HeaderRecord * list Transaction) :=
  extract_text (full_text_of pages).

(** A page made of the given lines. *)
Definition page (ls : list string) : option text :=
  Some (flat_map (fun l => str l ++ [nl]) ls).

(** Decimal rendering of a non-negative integer, [str(a)], and the
    digit-grouped rendering [format(a, ",")]. *)
Definition digit_char (d : Z) : ascii := ascii_of_N (Z.to_N (48 + d)).

(** Digits of [n], least significant first. *)
Fixpoint to_digits (fuel : nat) (n : Z) : text :=
  match fuel with
  | O => []
  | S f =>
      if n <? 10 then [digit_char n]
      else digit_char (n mod 10) :: to_digits f (n / 10)
  end.

Definition digits_rev (n : Z) : text :=
  to_digits (S (Z.to_nat (Z.log2 n))) n.

Definition py_str (n : Z) : text := rev (digits_rev n).

(** A comma after every third digit that has a digit after it; [k] digits
    of the current group are already out. *)
Fixpoint commas (k : nat) (l : text) : text :=
  match l with
  | [] => []
  | c :: l' =>
      match k, l' with
      | 2%nat, _ :: _ => c :: ","%char :: commas 0 l'
      | _, _ => c :: commas (S k) l'
      end
  end.

Definition grouped (n : Z) : text := rev (commas 0 (digits_rev n)).

(* ===================================================================== *)
(** * Shapes of matched text *)
(* ===================================================================== *)

(** Two digits, a dash, two digits. *)
Definition is_date (d : text) : bool :=
  match d with
  | [a; b; h; c; e] =>
      PyStr.is_digit a && PyStr.is_digit b && PyStr.is_char "-" h &&
      PyStr.is_digit c && PyStr.is_digit e
  | _ => false
  end.

(** A non-empty run of whitespace. *)
Definition is_spaces (w : text) : bool :=
  forallb PyStr.is_space w && negb (Nat.eqb (length w) 0).

Definition amount_char (c : ascii) : bool :=
  PyStr.is_digit c || PyStr.is_char "," c || PyStr.is_char "." c.

(** Text of the amount group: digits and commas, at most one point, then
    digits. *)
Definition is_amount (a : text) : Prop :=
  exists ip dot fp,
    a = ip ++ dot ++ fp /\
    forallb digit_or_comma ip = true /\ ip <> [] /\
    (dot = str "." \/ dot = []) /\
    forallb PyStr.is_digit fp = true.

(** A match object of [r] inside [s]: the text before it, the text
    matched, the text after it. *)
Definition matches_in (r : regex) (s : text) (m : mobj) : Prop :=
  exists pre rest,
    s = pre ++ whole m ++ rest /\ den r (whole m) rest [] (groups m).

(** Month name, day, optional comma, four-digit year. *)
Definition is_long_date (d : text) : Prop :=
  exists mon w1 day comma w2 year,
    d = mon ++ w1 ++ day ++ comma ++ w2 ++ year /\
    forallb PyStr.is_alpha mon = true /\ mon <> [] /\
    is_spaces w1 = true /\
    forallb PyStr.is_digit day = true /\ day <> [] /\
    (comma = str "," \/ comma = []) /\
    is_spaces w2 = true /\
    forallb PyStr.is_digit year = true /\ length year = 4%nat.

(** The labels the header patterns start with. *)
Definition account_label : list regex :=
  [Lit (str "Account"); spaces0; Lit (str "#")].
Definition begin_label : list regex := [Lit (str "Beginning Balance")].
Definition end_label : list regex := [Lit (str "Ending Balance")].
Definition period_label : list regex :=
  [Alt (Lit (str "Beginning Balance on")) (Lit (str "from"))].
Definition end_period_label : list regex :=
  [Alt (Lit (str "Ending Balance on"))
       (Alt (Lit (str "through")) (Lit (str "to")))].

(** No label of the header occurs anywhere in the text. *)
Definition no_header_label (t : text) : Prop :=
  search (cat account_label) t = None /\
  search (cat begin_label) t = None /\
  search (cat end_label) t = None /\
  search (cat period_label) t = None /\
  search (cat end_period_label) t = None.

(** No pattern recognises a transaction in the text: no deposit line, no
    ATM block in an ATM section, no row in a checks table, no generic
    line. *)
Definition no_transaction_text (t : text) : Prop :=
  finditer deposit_pattern t = [] /\
  (forall sec, search atm_section_re t = Some sec ->
               finditer atm_pattern (group sec 1) = []) /\
  (forall sec, search checks_section_re t = Some sec ->
               finditer check_pattern (group sec 1) = []) /\
  finditer generic_pattern t = [].

(** The header with no field recognised. *)
Definition unknown_header : HeaderRecord :=
  {| account_number := unknown; statement_period := unknown;
     beginning_balance := unknown; ending_balance := unknown |}.

(** The month number a date text starts with. *)
Definition month_of (d : text) : Z := PyFloat.digits_val (firstn 2 d).

(** Value of a digit string, least significant digit first. *)
Definition val_rev (l : text) : Z :=
  fold_right (fun c acc => PyFloat.digit_val c + 10 * acc) 0 l.

(** A start-of-period phrase followed by the long date [d] occurs in [t];
    likewise for an end-of-period phrase. *)
Definition period_start_in (t d : text) : Prop :=
  exists pre phrase ws rest,
    t = pre ++ phrase ++ ws ++ d ++ rest /\
    (phrase = str "Beginning Balance on" \/ phrase = str "from") /\
    is_spaces ws = true /\ is_long_date d.

Definition period_end_in (t d : text) : Prop :=
  exists pre phrase ws rest,
    t = pre ++ phrase ++ ws ++ d ++ rest /\
    (phrase = str "Ending Balance on" \/ phrase = str "through" \/
     phrase = str "to") /\
    is_spaces ws = true /\ is_long_date d.

(** The order of the returned rows: [Date r1 <= Date r2] on strings. *)
Definition date_le (r1 r2 : Transaction) : Prop :=
  PyStr.leb (Date r1) (Date r2) = true.

(** Rows whose amount has a clear sign bit; rows not of type Unknown. *)
Definition amount_unsigned (r : Transaction) : Prop :=
  PyFloat.sign (Amount r) = false.

Definition typed (r : Transaction) : Prop := Type_ r <> Unknown.

(** [core] is [s] trimmed: [s] is [core] between two runs of white space,
    and [core] neither starts nor ends with white space. *)
Definition no_space_ends (core : text) : bool :=
  match core with
  | [] => true
  | c :: _ => negb (PyStr.is_space c) && negb (PyStr.is_space (last core c))
  end.

Definition trimmed (s core : text) : Prop :=
  exists l r,
    s = l ++ core ++ r /\
    forallb PyStr.is_space l = true /\ forallb PyStr.is_space r = true /\
    no_space_ends core = true.

(** What pattern 2 does with one block [m] of the ATM section [sec] of the
    text [t]: the block is the literal line, a location line, an optional
    short text, the date posted, the date paid and the amount; the row is
    a Debit dated with the date paid and described by the location line
    trimmed of the white space around it; the block lies in the section,
    and the section lies between the header line and "Total ATM" or the
    end of the text. *)
Definition atm_block_spec (t : text) (sec m : mobj) : Prop :=
  exists loc core mid d1 w1 d2 w2 amt v rows,
    whole m = str "ATM Withdrawal" ++ [nl] ++ loc ++ [nl] ++ mid ++
              d1 ++ w1 ++ d2 ++ w2 ++ str "$" ++ amt /\
    forallb not_nl loc = true /\ loc <> [] /\
    trimmed loc core /\
    forallb not_nl mid = true /\
    is_date d1 = true /\ is_spaces w1 = true /\
    is_date d2 = true /\ is_spaces w2 = true /\
    is_amount amt /\
    parse_currency amt = Ok v /\
    atm_row m =
      Ok {| Date := d2;
            Description := str "ATM Withdrawal - " ++ core;
            Type_ := Debit; Amount := v |} /\
    atm_rows t = Ok rows /\
    In {| Date := d2;
          Description := str "ATM Withdrawal - " ++ core;
          Type_ := Debit; Amount := v |} rows /\
    (exists pre post, group sec 1 = pre ++ whole m ++ post) /\
    (exists before line after,
        t = before ++ str "ATM Withdrawals & Debits Account" ++ line ++
            [nl] ++ group sec 1 ++ after /\
        (PyStr.prefixb (str "Total ATM") after = true \/
         after = [] \/ after = [nl])).

(** Sample inputs. *)
Definition quiet_pages : list (option text) :=
  [page ["Thank you."; "Nothing happened in this period."]%string;
   None; Some []].

Definition atm_pages : list (option text) :=
  [page ["ATM Withdrawals & Debits Account 123"; "ATM Withdrawal";
         "  123 MAIN ST   "; "SPRINGFIELD IL 0001 05-03 05-04 $60.00";
         "Total ATM Withdrawals $60.00"]%string].

Definition atm_example_section : mobj :=
  {| whole := str "ATM Withdrawals & Debits Account 123" ++ [nl] ++
              str "ATM Withdrawal" ++ [nl] ++ str "  123 MAIN ST   " ++
              [nl] ++
              str "SPRINGFIELD IL 0001 05-03 05-04 $60.00" ++ [nl];
     groups := [(1%nat, str "ATM Withdrawal" ++ [nl] ++
                        str "  123 MAIN ST   " ++ [nl] ++
                        str "SPRINGFIELD IL 0001 05-03 05-04 $60.00" ++ [nl])]
  |}.

Definition atm_example_block : mobj :=
  {| whole := str "ATM Withdrawal" ++ [nl] ++ str "  123 MAIN ST   " ++
              [nl] ++ str "SPRINGFIELD IL 0001 05-03 05-04 $60.00";
     groups := [(5, str "60.00"); (4, str "05-04"); (3, str "05-03");
                (2, str "SPRINGFIELD IL 0001 "); (1, str "  123 MAIN ST   ")]%nat
  |}.

(** The non-negative integers that are binary64 values: a 53-bit
    mantissa times a power of two, below 2^1024. *)
Definition is_binary64 (a : Z) : Prop :=
  exists m e, a = m * 2 ^ e /\ 0 <= m < 2 ^ 53 /\ 0 <= e /\ a < 2 ^ 1024.

(** The finite binary64 values are the numbers m * 2^e with a mantissa of
    at most 53 bits and an exponent from -1074 to 971, of either sign. *)
Definition finite64 (m e : Z) : Prop :=
  0 <= m < 2 ^ 53 /\ -1074 <= e <= 971.

(** m * 2^e counted in units of 2^-1074, the smallest positive value: an
    integer. *)
Definition units (m e : Z) : Z := m * 2 ^ (e + 1074).

Definition signed (s : bool) (z : Z) : Z := if s then - z else z.

(** [v] is the binary64 value nearest to x = (-1)^s * n/d (n >= 0, d > 0),
    as IEEE 754 rounds to nearest, ties to even. Distances are compared
    after multiplying by d * 2^1074, which makes them integers:
    |v - x| * d * 2^1074 = |units v * d - n * 2^1074|.
    - A finite [v] has the sign [s]; no finite binary64 value, of either
      sign, is nearer to x than [v]; if another one is as near, the
      mantissa of [v] is even; and |x| < 2^1024 - 2^970.
    - An infinite [v] has the sign [s], and |x| >= 2^1024 - 2^970, that
      is (2^54 - 1) * 2^970. *)
Definition nearest64 (v : pyfloat) (s : bool) (n d : Z) : Prop :=
  match v with
  | Float s' m e =>
      s' = s /\ finite64 m e /\
      (forall s2 m2 e2, finite64 m2 e2 ->
         Z.abs (signed s (units m e) * d - signed s n * 2 ^ 1074) <=
         Z.abs (signed s2 (units m2 e2) * d - signed s n * 2 ^ 1074)) /\
      (forall m2 e2, finite64 m2 e2 -> units m2 e2 <> units m e ->
         Z.abs (units m2 e2 * d - n * 2 ^ 1074) =
         Z.abs (units m e * d - n * 2 ^ 1074) ->
         Z.even m = true) /\
      n < (2 ^ 54 - 1) * 2 ^ 970 * d
  | Infinity s' => s' = s /\ (2 ^ 54 - 1) * 2 ^ 970 * d <= n
  end.

(* ===================================================================== *)
(** * Further notions *)
(* ===================================================================== *)

(** The characters [parse_currency] looks at: digits, the point, the minus
    sign and the two parentheses. *)
Definition currency_char (c : ascii) : bool :=
  PyStr.is_digit c || PyStr.is_char "." c || PyStr.is_char "-" c ||
  PyStr.is_char "(" c || PyStr.is_char ")" c.

(** What is left of a string when [float()] is called: its digits, points
    and minus signs, in order. *)
Definition cleaned (s : text) : text := PyStr.sub_class non_numeric [] s.

(** [f == g] on floats: same value, the two zeros being equal. *)
Definition float_eq (f g : pyfloat) : Prop :=
  match f, g with
  | Float s m e, Float s' m' e' =>
      (m = 0 /\ m' = 0) \/ (s = s' /\ m = m' /\ e = e')
  | Infinity s, Infinity s' => s = s'
  | _, _ => False
  end.

(** The text after the first point of an amount. *)
Fixpoint after_point (a : text) : text :=
  match a with
  | [] => []
  | c :: a' => if PyStr.is_char "." c then a' else after_point a'
  end.

(** The number an amount text denotes: its digits read as one integer,
    over ten to the number of digits after the point; as a float. *)
Definition amount_value (a : text) : pyfloat :=
  PyFloat.round64 false (PyFloat.digits_val (filter PyStr.is_digit a))
                  (10 ^ Z.of_nat (length (after_point a))).

(** A page that yields text: [extract_text()] gave a non-empty string. *)
Definition has_text (p : option text) : bool :=
  match p with
  | Some (_ :: _) => true
  | _ => false
  end.

(** A text without a line break. *)
Definition one_line (s : text) : bool := forallb not_nl s.

(** What holds of every row the function returns: the date is two digits,
    a dash, two digits; the description is one line and has the form its
    type stands for; the amount is the number some amount text denotes. *)
Definition row_ok (r : Transaction) : Prop :=
  is_date (Date r) = true /\
  one_line (Description r) = true /\
  (exists amt, is_amount amt /\ Amount r = amount_value amt) /\
  match Type_ r with
  | Credit => exists tail, Description r = str "Deposit" ++ tail
  | Debit =>
      (exists loc, Description r = str "ATM Withdrawal - " ++ loc) \/
      (exists num, Description r = str "Check #" ++ num /\
                   forallb PyStr.is_digit num = true /\ num <> [])
  | Unknown => (length (Description r) <= 50)%nat
  end.

(** What pattern 1 does with one match [m] in the text [t]: the match is
    "Deposit" and the rest of its text, whitespace, a date, whitespace, a
    dollar sign and an amount; the row is a Credit with that date, that
    text without trailing whitespace, and the number the amount denotes. *)
Definition deposit_line_spec (t : text) (m : mobj) : Prop :=
  exists tail w1 d w2 amt rows,
    whole m = (str "Deposit" ++ tail) ++ w1 ++ d ++ w2 ++ str "$" ++ amt /\
    forallb not_nl tail = true /\
    is_spaces w1 = true /\ is_date d = true /\ is_spaces w2 = true /\
    is_amount amt /\
    deposit_row m =
      Ok {| Date := d; Description := str "Deposit" ++ PyStr.rstrip tail;
            Type_ := Credit; Amount := amount_value amt |} /\
    deposit_rows t = Ok rows /\
    In {| Date := d; Description := str "Deposit" ++ PyStr.rstrip tail;
          Type_ := Credit; Amount := amount_value amt |} rows /\
    (exists pre post, t = pre ++ whole m ++ post).

(** What pattern 3 does with one row [m] of the checks table [sec] of the
    text [t]: the row is a date, a check number, an amount and a reference
    number, separated by whitespace; the row returned is a Debit with that
    date, "Check #" and the number, and the number the amount denotes. *)
Definition check_line_spec (t : text) (sec m : mobj) : Prop :=
  exists d w1 num w2 amt w3 ref rows,
    whole m = d ++ w1 ++ num ++ w2 ++ amt ++ w3 ++ ref /\
    is_date d = true /\ is_spaces w1 = true /\
    forallb PyStr.is_digit num = true /\ num <> [] /\
    is_spaces w2 = true /\ is_amount amt /\ is_spaces w3 = true /\
    forallb PyStr.is_digit ref = true /\ ref <> [] /\
    check_row m =
      Ok {| Date := d; Description := str "Check #" ++ num;
            Type_ := Debit; Amount := amount_value amt |} /\
    check_rows t = Ok rows /\
    In {| Date := d; Description := str "Check #" ++ num;
          Type_ := Debit; Amount := amount_value amt |} rows /\
    (exists pre post, group sec 1 = pre ++ whole m ++ post) /\
    (exists before line1 skipped line2 after,
        t = before ++ str "ChecksPaid" ++ line1 ++ [nl] ++ skipped ++
            str "Date Paid" ++ line2 ++ [nl] ++ group sec 1 ++ after /\
        forallb not_nl line1 = true /\ forallb not_nl line2 = true /\
        (PyStr.prefixb (str "Total Checks") after = true \/
         after = [] \/ after = [nl])).

(** What the fallback does with one match [m] in the text [t]: the match
    is a date, whitespace, a text without line break, whitespace, a dollar
    sign and an amount; the row has type Unknown, that date, the first 50
    characters of the stripped text, and the number the amount denotes. *)
Definition generic_line_spec (t : text) (m : mobj) : Prop :=
  exists d w1 body w2 amt,
    whole m = d ++ w1 ++ body ++ w2 ++ str "$" ++ amt /\
    is_date d = true /\ is_spaces w1 = true /\
    forallb not_nl body = true /\ is_spaces w2 = true /\
    is_amount amt /\
    generic_row m =
      Ok {| Date := d; Description := firstn 50 (PyStr.strip body);
            Type_ := Unknown; Amount := amount_value amt |} /\
    (length (firstn 50 (PyStr.strip body)) <= 50)%nat /\
    (exists pre post, t = pre ++ whole m ++ post).

Definition deposit_example : mobj :=
  {| whole := str "Deposit Ref Nbr: 130012345 05-15 $3,615.08";
     groups := [(3, str "3,615.08"); (2, str "05-15");
                (1, str "Deposit Ref Nbr: 130012345")]%nat |}.

Definition check_pages : list (option text) :=
  [page ["ChecksPaid 2"; "Date Paid Check Number Amount Reference Number";
         "05-12 1001 75.00 00012576589"; "05-18 1002 30.00 00036547854";
         "Total Checks Paid"]%string].

Definition check_example_section : mobj :=
  {| whole := str "ChecksPaid 2" ++ [nl] ++
              str "Date Paid Check Number Amount Reference Number" ++ [nl] ++
              str "05-12 1001 75.00 00012576589" ++ [nl] ++
              str "05-18 1002 30.00 00036547854" ++ [nl];
     groups := [(1%nat, str "05-12 1001 75.00 00012576589" ++ [nl] ++
                        str "05-18 1002 30.00 00036547854" ++ [nl])] |}.

Definition check_example_row : mobj :=
  {| whole := str "05-18 1002 30.00 00036547854";
     groups := [(4, str "00036547854"); (3, str "30.00"); (2, str "1002");
                (1, str "05-18")]%nat |}.

Definition generic_example : mobj :=
  {| whole := str "05-01 coffee $3.00";
     groups := [(3, str "3.00"); (2, str "coffee"); (1, str "05-01")]%nat |}.

(** [p in s] for strings. *)
Fixpoint contains_text (p s : text) : bool :=
  PyStr.prefixb p s ||
  match s with
  | [] => false
  | _ :: s' => contains_text p s'
  end.

Definition loose_atm_pages : list (option text) :=
  [page ["ATM Withdrawal"; "123 MAIN ST";
         "SPRINGFIELD IL 0001 05-03 05-04 $60.00"]%string].

Definition loose_check_pages : list (option text) :=
  [page ["Date Paid Check Number Amount Reference Number";
         "05-12 1001 75.00 00012576589"]%string].

(** The longest prefix of [s] in the class [p], and the rest. *)
Fixpoint span_cls (p : ascii -> bool) (s : text) : text * text :=
  match s with
  | c :: s' =>
      if p c then let '(a, b) := span_cls p s' in (c :: a, b) else ([], s)
  | [] => ([], [])
  end.

(** Reading an amount off the front of [s], taking as much as there is:
    the longest run of digits and commas (at least one), a point if one
    follows, the longest run of digits after it. Gives the amount text and
    the rest of [s]. *)
Definition amount_lex (s : text) : option (text * text) :=
  let '(ip, r1) := span_cls digit_or_comma s in
  match ip with
  | [] => None
  | _ :: _ =>
      let '(dot, r2) :=
        match r1 with
        | c :: r => if PyStr.is_char "." c then ([c], r) else ([], r1)
        | [] => ([], r1)
        end in
      let '(fp, r3) := span_cls PyStr.is_digit r2 in
      Some (ip ++ dot ++ fp, r3)
  end.

(** The match [m] lies in [t] and its group [n] is all of the amount text
    that can be read where it starts. *)
Definition whole_amount_at (t : text) (m : mobj) (n : nat) : Prop :=
  exists pre post,
    t = pre ++ whole m ++ post /\
    amount_lex (group m n ++ post) = Some (group m n, post).

(** The amount group of a match of one of the line patterns that end
    with the amount: [n] is the number of that group. *)
Inductive amount_capture (t : text) (m : mobj) : nat -> Prop :=
| capture_deposit :
    In m (finditer deposit_pattern t) -> amount_capture t m 3
| capture_atm :
    In m (finditer atm_pattern t) -> amount_capture t m 5
| capture_generic :
    In m (finditer generic_pattern t) -> amount_capture t m 3.

(** Reading a number off the front of [s]: the longest run of digits, at
    least one. *)
Definition digits_lex (s : text) : option (text * text) :=
  match span_cls PyStr.is_digit s with
  | ([], _) => None
  | (d :: ds, r) => Some (d :: ds, r)
  end.

(** An account number [v] stands in [t] after the prefix [pre]: "Account",
    a "#" after optional white space, then the digits [v] in full. *)
Definition account_at (pre t v : text) : Prop :=
  exists w1 w2 rest,
    t = pre ++ str "Account" ++ w1 ++ str "#" ++ w2 ++ v ++ rest /\
    forallb PyStr.is_space w1 = true /\ forallb PyStr.is_space w2 = true /\
    digits_lex (v ++ rest) = Some (v, rest).

(** A balance [v] stands in [t] after the prefix [pre]: the label, the
    first dollar sign after it, then the amount text [v] in full. *)
Definition balance_at (label pre t v : text) : Prop :=
  exists gap rest,
    t = pre ++ label ++ gap ++ str "$" ++ v ++ rest /\
    forallb not_dollar gap = true /\
    amount_lex (v ++ rest) = Some (v, rest).

(** A header field read with [re.search]: "Unknown" when [t] has no
    occurrence, otherwise [lead] and the value of the leftmost one. *)
Definition field_from (occ : text -> text -> text -> Prop) (lead t field : text)
  : Prop :=
  (field = unknown /\ forall pre v, ~ occ pre t v) \/
  (exists pre v,
     field = lead ++ v /\ occ pre t v /\
     forall pre' v', occ pre' t v' -> (length pre <= length pre')%nat).

(* ===================================================================== *)
(** * Properties *)
(* ===================================================================== *)

Unset Implicit Arguments.

(** ** Results and [mapM] *)

Lemma mapM_total {A B} (f : A -> pyresult B) (l : list A) :
  (forall x, exists y, f x = Ok y) -> exists ys, mapM f l = Ok ys.
Proof.
  intros Hf. induction l as [|x l IH]; simpl.
  - now exists [].
  - destruct (Hf x) as [y ->]. destruct IH as [ys ->]. simpl. eauto.
Qed.

Lemma mapM_Forall2 {A B} (f : A -> pyresult B) (l : list A) (ys : list B) :
  mapM f l = Ok ys -> Forall2 (fun x y => f x = Ok y) l ys.
Proof.
  revert ys. induction l as [|x l IH]; simpl; intros ys H.
  - inversion H. constructor.
  - destruct (f x) as [y|] eqn:Hx; simpl in H; [|discriminate].
    destruct (mapM f l) as [ys'|] eqn:Hl; simpl in H; [|discriminate].
    inversion H; subst. constructor; auto.
Qed.

Lemma mapM_In {A B} (f : A -> pyresult B) (l : list A) (ys : list B) y :
  mapM f l = Ok ys -> In y ys -> exists x, In x l /\ f x = Ok y.
Proof.
  intros H. apply mapM_Forall2 in H.
  induction H as [|x y' l ys' Hxy _ IH]; simpl; intros Hin; [easy|].
  destruct Hin as [->|Hin]; [eauto|].
  destruct (IH Hin) as (x' & ? & ?). eauto.
Qed.

(** ** The currency normalizer returns *)

Lemma parse_currency_total (s : text) : exists v, parse_currency s = Ok v.
Proof.
  destruct s as [|a s]; [now exists PyFloat.zero|].
  unfold parse_currency.
  match goal with |- context [PyFloat.py_float ?x] =>
    destruct (PyFloat.py_float x) as [v|[]] end; simpl; eauto.
Qed.

Lemma deposit_row_total m : exists r, deposit_row m = Ok r.
Proof.
  unfold deposit_row.
  destruct (parse_currency_total (group m 3)) as [v ->]. simpl. eauto.
Qed.

Lemma atm_row_total m : exists r, atm_row m = Ok r.
Proof.
  unfold atm_row.
  destruct (parse_currency_total (group m 5)) as [v ->]. simpl. eauto.
Qed.

Lemma check_row_total m : exists r, check_row m = Ok r.
Proof.
  unfold check_row.
  destruct (parse_currency_total (group m 3)) as [v ->]. simpl. eauto.
Qed.

Lemma generic_row_total m : exists r, generic_row m = Ok r.
Proof.
  unfold generic_row.
  destruct (parse_currency_total (group m 3)) as [v ->]. simpl. eauto.
Qed.

Lemma deposit_rows_total t : exists rows, deposit_rows t = Ok rows.
Proof. apply mapM_total, deposit_row_total. Qed.

Lemma atm_rows_total t : exists rows, atm_rows t = Ok rows.
Proof.
  unfold atm_rows. destruct (search atm_section_re t); [|eauto].
  apply mapM_total, atm_row_total.
Qed.

Lemma check_rows_total t : exists rows, check_rows t = Ok rows.
Proof.
  unfold check_rows. destruct (search checks_section_re t); [|eauto].
  apply mapM_total, check_row_total.
Qed.

Lemma generic_rows_total t : exists rows, generic_rows t = Ok rows.
Proof. apply mapM_total, generic_row_total. Qed.

(** The orchestrator always returns, and what it returns is the frame of
    the rows of patterns 1-3 followed by the rows of the fallback. *)
Lemma extract_text_total (t : text) :
  exists t1 t2 t3 t4,
    deposit_rows t = Ok t1 /\ atm_rows t = Ok t2 /\ check_rows t = Ok t3 /\
    fallback_rows (t1 ++ t2 ++ t3) t = Ok t4 /\
    extract_text t = Ok (extract_header t, to_frame ((t1 ++ t2 ++ t3) ++ t4)).
Proof.
  destruct (deposit_rows_total t) as [t1 H1].
  destruct (atm_rows_total t) as [t2 H2].
  destruct (check_rows_total t) as [t3 H3].
  assert (exists t4, fallback_rows (t1 ++ t2 ++ t3) t = Ok t4) as [t4 H4].
  { unfold fallback_rows. destruct (t1 ++ t2 ++ t3); [|eauto].
    apply generic_rows_total. }
  exists t1, t2, t3, t4. repeat split; auto.
  unfold extract_text, gather. rewrite H1, H2, H3. simpl.
  rewrite H4. reflexivity.
Qed.

(** ** Sorting *)

Lemma ltb_asym (s t : text) : PyStr.ltb s t = true -> PyStr.ltb t s = false.
Proof.
  revert t. induction s as [|a s IH]; destruct t as [|b t]; simpl; auto;
    try discriminate.
  destruct (Z.ltb_spec (PyStr.code a) (PyStr.code b)),
           (Z.ltb_spec (PyStr.code b) (PyStr.code a));
    auto; try lia; discriminate.
Qed.

Lemma ltb_neg_trans (u s t : text) :
  PyStr.ltb u s = true -> PyStr.ltb u t = true \/ PyStr.ltb t s = true.
Proof.
  revert s t. induction u as [|a u IH]; intros [|b s] [|c t]; simpl; auto;
    try discriminate.
  destruct (Z.ltb_spec (PyStr.code a) (PyStr.code b)),
           (Z.ltb_spec (PyStr.code b) (PyStr.code a)),
           (Z.ltb_spec (PyStr.code a) (PyStr.code c)),
           (Z.ltb_spec (PyStr.code c) (PyStr.code a)),
           (Z.ltb_spec (PyStr.code c) (PyStr.code b)),
           (Z.ltb_spec (PyStr.code b) (PyStr.code c));
    auto; try lia; try discriminate.
Qed.

Lemma date_le_total r1 r2 : ~ date_le r1 r2 -> date_le r2 r1.
Proof.
  unfold date_le, PyStr.leb. intros H.
  destruct (PyStr.ltb (Date r2) (Date r1)) eqn:E; [|now elim H].
  now rewrite (ltb_asym _ _ E).
Qed.

Lemma date_le_trans r1 r2 r3 : date_le r1 r2 -> date_le r2 r3 -> date_le r1 r3.
Proof.
  unfold date_le, PyStr.leb. intros H12 H23.
  destruct (PyStr.ltb (Date r3) (Date r1)) eqn:E; [|reflexivity].
  destruct (ltb_neg_trans _ _ (Date r2) E) as [H|H]; rewrite H in *;
    discriminate.
Qed.

Lemma insert_row_perm r l : Permutation (insert_row r l) (r :: l).
Proof.
  induction l as [|x l IH]; simpl; [reflexivity|].
  destruct (PyStr.leb (Date r) (Date x)); [reflexivity|].
  rewrite IH. apply perm_swap.
Qed.

Lemma sort_values_perm l : Permutation (sort_values l) l.
Proof.
  induction l as [|x l IH]; simpl; [constructor|].
  rewrite insert_row_perm. now constructor.
Qed.

Lemma insert_row_sorted r l :
  Sorted date_le l -> Sorted date_le (insert_row r l).
Proof.
  induction l as [|x l IH]; simpl; intros Hs.
  - repeat constructor.
  - destruct (PyStr.leb (Date r) (Date x)) eqn:E.
    + constructor; [assumption|]. now constructor.
    + inversion Hs as [|? ? Hl Hhd]; subst.
      constructor; [auto|].
      assert (date_le x r) as Hxr.
      { apply date_le_total. unfold date_le. now rewrite E. }
      destruct l as [|y l]; simpl.
      * now constructor.
      * inversion Hhd; subst.
        destruct (PyStr.leb (Date r) (Date y)); now constructor.
Qed.

Lemma sort_values_sorted l : StronglySorted date_le (sort_values l).
Proof.
  apply Sorted_StronglySorted.
  - intros a b c. apply date_le_trans.
  - induction l as [|x l IH]; simpl; [constructor|].
    now apply insert_row_sorted.
Qed.

Lemma to_frame_perm l : Permutation (to_frame l) l.
Proof. destruct l; simpl; [constructor|]. apply (sort_values_perm (t :: l)). Qed.

Lemma to_frame_sorted l : StronglySorted date_le (to_frame l).
Proof. destruct l; simpl; [constructor|]. apply (sort_values_sorted (t :: l)). Qed.

(** ** The matcher only reports matches *)

Lemma prefixb_split (l s : text) :
  PyStr.prefixb l s = true -> s = l ++ skipn (length l) s.
Proof.
  revert s. induction l as [|a l IH]; intros [|b s]; simpl; auto;
    try discriminate.
  intros H. apply andb_prop in H. destruct H as [Hab Hl].
  apply Ascii.eqb_eq in Hab. subst b. f_equal. auto.
Qed.

Lemma rep_greedy_sound R p min s (k : text -> text -> option R) x :
  rep_greedy p min s k = Some x ->
  exists m rest,
    s = m ++ rest /\ forallb p m = true /\ (min <= length m)%nat /\
    k m rest = Some x.
Proof.
  revert min k. induction s as [|a s IH]; intros min k H; simpl in H.
  - destruct min; [|discriminate]. exists [], []. simpl. auto.
  - assert (Hstop : match min with O => k [] (a :: s) | S _ => None end = Some x ->
                    exists m rest, a :: s = m ++ rest /\ forallb p m = true /\
                                   (min <= length m)%nat /\ k m rest = Some x).
    { destruct min; [|discriminate]. intros Hk. exists [], (a :: s). simpl. auto. }
    destruct (p a) eqn:Hpa; [|auto].
    destruct (rep_greedy p (Nat.pred min) s (fun m r => k (a :: m) r)) eqn:Hrec;
      [|auto].
    inversion H; subst. apply IH in Hrec.
    destruct Hrec as (m & rest & -> & Hall & Hlen & Hk).
    exists (a :: m), rest. simpl. rewrite Hpa, Hall. repeat split; auto. lia.
Qed.

Lemma rep_lazy_sound R p min s (k : text -> text -> option R) x :
  rep_lazy p min s k = Some x ->
  exists m rest,
    s = m ++ rest /\ forallb p m = true /\ (min <= length m)%nat /\
    k m rest = Some x.
Proof.
  revert min k. induction s as [|a s IH]; intros min k H.
  - destruct min; simpl in H; [|discriminate]. exists [], []. simpl. auto.
  - assert (Hmore : forall n,
              (if p a then rep_lazy p n s (fun m r => k (a :: m) r) else None)
                = Some x ->
              exists m rest, a :: s = m ++ rest /\ forallb p m = true /\
                             (S n <= length m)%nat /\ k m rest = Some x).
    { intros n Hn. destruct (p a) eqn:Hpa; [|discriminate].
      apply IH in Hn. destruct Hn as (m & rest & -> & Hall & Hlen & Hk).
      exists (a :: m), rest. simpl. rewrite Hpa, Hall. repeat split; auto. lia. }
    destruct min as [|n]; simpl in H.
    + destruct (k [] (a :: s)) eqn:Hk.
      * inversion H; subst. exists [], (a :: s). simpl. auto.
      * destruct (Hmore _ H) as (m & rest & ? & ? & ? & ?).
        exists m, rest. repeat split; auto. lia.
    + apply Hmore. exact H.
Qed.

Lemma bt_sound r : forall R s c (k : text -> text -> caps -> option R) x,
  bt r s c k = Some x ->
  exists m rest c',
    s = m ++ rest /\ den r m rest c c' /\ k m rest c' = Some x.
Proof.
  induction r as [|l|p|r1 IH1 r2 IH2|r1 IH1 r2 IH2|g min p|n r1 IH1|r1 IH1|];
    intros R s c k x H; simpl in H.
  - exists [], s, c. simpl. auto.
  - destruct (PyStr.prefixb l s) eqn:Hp; [|discriminate].
    exists l, (skipn (length l) s), c. simpl.
    repeat split; auto using prefixb_split.
  - destruct s as [|a s]; [discriminate|].
    destruct (p a) eqn:Hpa; [|discriminate].
    exists [a], s, c. simpl. repeat split; eauto.
  - apply IH1 in H. destruct H as (m1 & s1 & c1 & -> & D1 & H).
    apply IH2 in H. destruct H as (m2 & s2 & c2 & -> & D2 & H).
    exists (m1 ++ m2), s2, c2. rewrite <- app_assoc.
    repeat split; auto. simpl. exists m1, m2, c1. auto.
  - destruct (bt r1 s c k) eqn:E1.
    + inversion H; subst. apply IH1 in E1.
      destruct E1 as (m & rest & c' & ? & ? & ?).
      exists m, rest, c'. simpl. auto.
    + apply IH2 in H. destruct H as (m & rest & c' & ? & ? & ?).
      exists m, rest, c'. simpl. auto.
  - destruct g.
    + apply rep_greedy_sound in H. destruct H as (m & rest & ? & ? & ? & ?).
      exists m, rest, c. simpl. auto.
    + apply rep_lazy_sound in H. destruct H as (m & rest & ? & ? & ? & ?).
      exists m, rest, c. simpl. auto.
  - apply IH1 in H. destruct H as (m & rest & c1 & ? & ? & ?).
    exists m, rest, (set n m c1). simpl. eauto.
  - destruct (bt r1 s c (fun _ _ c1 => Some c1)) as [c1|] eqn:E; [|discriminate].
    apply IH1 in E. destruct E as (m1 & rest1 & c' & ? & ? & E).
    inversion E; subst. exists [], (m1 ++ rest1), c1. simpl.
    repeat split; eauto.
  - destruct s as [|a [|b s]].
    + exists [], [], c. simpl. repeat split; auto.
    + destruct (Ascii.eqb a nl) eqn:Ea; [|discriminate].
      apply Ascii.eqb_eq in Ea. subst a.
      exists [], [nl], c. simpl. repeat split; auto.
    + discriminate.
Qed.

Lemma match_at_sound r s m :
  match_at r s = Some m ->
  exists rest, s = whole m ++ rest /\ den r (whole m) rest [] (groups m).
Proof.
  unfold match_at. intros H. apply bt_sound in H.
  destruct H as (w & rest & c' & -> & D & E). inversion E; subst; simpl.
  eauto.
Qed.

Lemma search_sound r s m : search r s = Some m -> matches_in r s m.
Proof.
  induction s as [|a s IH]; simpl.
  - destruct (match_at r []) eqn:E; [|discriminate].
    intros H; inversion H; subst. apply match_at_sound in E.
    destruct E as (rest & ? & ?). exists [], rest. auto.
  - destruct (match_at r (a :: s)) eqn:E.
    + intros H; inversion H; subst. apply match_at_sound in E.
      destruct E as (rest & ? & ?). exists [], rest. auto.
    + intros H. destruct (IH H) as (pre & rest & -> & ?).
      exists (a :: pre), rest. auto.
Qed.

Lemma finditer_from_sound r s : forall skip m,
  In m (finditer_from r skip s) -> matches_in r s m.
Proof.
  induction s as [|a s IH]; intros skip m H.
  - destruct skip; simpl in H; [|easy].
    destruct (match_at r []) eqn:E; simpl in H; [|easy].
    destruct H as [->|[]]. apply match_at_sound in E.
    destruct E as (rest & ? & ?). exists [], rest. auto.
  - assert (Htl : forall k, In m (finditer_from r k s) -> matches_in r (a :: s) m).
    { intros k Hk. destruct (IH _ _ Hk) as (pre & rest & -> & ?).
      exists (a :: pre), rest. auto. }
    destruct skip; simpl in H; [|eauto].
    destruct (match_at r (a :: s)) eqn:E; simpl in H; [|eauto].
    destruct H as [->|H]; [|eauto].
    apply match_at_sound in E. destruct E as (rest & ? & ?).
    exists [], rest. auto.
Qed.

Lemma finditer_sound r s m : In m (finditer r s) -> matches_in r s m.
Proof. apply finditer_from_sound. Qed.

(** ** The matcher finds a match when there is one *)

Lemma den_caps_indep r : forall m rest c c' d,
  den r m rest c c' -> exists d', den r m rest d d'.
Proof.
  induction r as [|l|p|r1 IH1 r2 IH2|r1 IH1 r2 IH2|g min p|n r1 IH1|r1 IH1|];
    simpl; intros m rest c c' d H.
  - destruct H as [-> _]. eauto.
  - destruct H as [-> _]. eauto.
  - destruct H as [H _]. eauto.
  - destruct H as (m1 & m2 & c1 & -> & D1 & D2).
    destruct (IH1 _ _ _ _ d D1) as [d1 E1].
    destruct (IH2 _ _ _ _ d1 D2) as [d2 E2].
    exists d2, m1, m2, d1. auto.
  - destruct H as [H|H].
    + destruct (IH1 _ _ _ _ d H) as [d' E]. eauto.
    + destruct (IH2 _ _ _ _ d H) as [d' E]. eauto.
  - destruct H as [H _]. eauto.
  - destruct H as (c1 & D & _). destruct (IH1 _ _ _ _ d D) as [d1 E]. eauto.
  - destruct H as (-> & m1 & rest1 & -> & D).
    destruct (IH1 _ _ _ _ d D) as [d1 E]. exists d1. eauto.
  - destruct H as (-> & H & _). eauto.
Qed.

Lemma prefixb_app (l rest : text) : PyStr.prefixb l (l ++ rest) = true.
Proof.
  induction l as [|a l IH]; simpl; [reflexivity|].
  now rewrite Ascii.eqb_refl, IH.
Qed.

Lemma skipn_length_app (l rest : text) : skipn (length l) (l ++ rest) = rest.
Proof. induction l; simpl; auto. Qed.

Lemma rep_greedy_complete R p m : forall min rest (k : text -> text -> option R),
  forallb p m = true -> (min <= length m)%nat ->
  (exists x, k m rest = Some x) ->
  exists y, rep_greedy p min (m ++ rest) k = Some y.
Proof.
  induction m as [|a m IH]; intros min rest k Hall Hlen Hk; simpl in *.
  - assert (min = O) by lia. subst min.
    destruct rest as [|b rest]; simpl; [exact Hk|].
    destruct (p b); [|exact Hk].
    destruct (rep_greedy p O rest (fun m r => k (b :: m) r)); eauto.
  - apply andb_prop in Hall. destruct Hall as [Hpa Hall]. rewrite Hpa.
    destruct (IH (Nat.pred min) rest (fun m r => k (a :: m) r)) as [y Hy];
      auto; [lia|].
    rewrite Hy. eauto.
Qed.

Lemma rep_lazy_complete R p m : forall min rest (k : text -> text -> option R),
  forallb p m = true -> (min <= length m)%nat ->
  (exists x, k m rest = Some x) ->
  exists y, rep_lazy p min (m ++ rest) k = Some y.
Proof.
  induction m as [|a m IH]; intros min rest k Hall Hlen Hk; simpl in *.
  - assert (min = O) by lia. subst min.
    destruct Hk as [x Hk].
    destruct rest as [|b rest]; simpl; [eauto|]. rewrite Hk. eauto.
  - apply andb_prop in Hall. destruct Hall as [Hpa Hall].
    destruct min as [|n]; rewrite ?Hpa.
    + destruct (k [] (a :: m ++ rest)); [eauto|].
      apply IH; auto. lia.
    + apply IH; auto. lia.
Qed.

Lemma bt_complete r : forall R m rest c c' (k : text -> text -> caps -> option R),
  den r m rest c c' ->
  (forall d, exists x, k m rest d = Some x) ->
  forall d, exists y, bt r (m ++ rest) d k = Some y.
Proof.
  induction r as [|l|p|r1 IH1 r2 IH2|r1 IH1 r2 IH2|g min p|n r1 IH1|r1 IH1|];
    simpl; intros R m rest c c' k H Hk d.
  - destruct H as [-> _]. apply Hk.
  - destruct H as [-> _]. rewrite prefixb_app, skipn_length_app. apply Hk.
  - destruct H as [(a & -> & Hpa) _]. simpl. rewrite Hpa. apply Hk.
  - destruct H as (m1 & m2 & c1 & -> & D1 & D2). rewrite <- app_assoc.
    apply (IH1 _ _ _ _ _ _ D1). intros d1.
    destruct (den_caps_indep _ _ _ _ _ d1 D2) as [d2 E2].
    apply (IH2 _ _ _ _ _ _ E2). intros d3. apply Hk.
  - destruct (bt r1 (m ++ rest) d k) eqn:E1; [eauto|].
    destruct H as [H|H].
    + destruct (IH1 _ _ _ _ _ k H Hk d) as [y Hy]. congruence.
    + apply (IH2 _ _ _ _ _ k H Hk d).
  - destruct H as [[Hall Hlen] _].
    destruct g; [apply rep_greedy_complete|apply rep_lazy_complete]; auto.
  - destruct H as (c1 & D & _). apply (IH1 _ _ _ _ _ _ D). intros d1. apply Hk.
  - destruct H as (-> & m1 & rest1 & -> & D). simpl.
    destruct (IH1 _ _ _ _ _ (fun _ _ c1 => Some c1) D) with (d := d) as [y Hy];
      [eauto|].
    rewrite Hy. apply Hk.
  - destruct H as (-> & [-> | ->] & _); simpl; apply Hk.
Qed.

Lemma match_at_complete r w rest c c' :
  den r w rest c c' -> exists m, match_at r (w ++ rest) = Some m.
Proof.
  intros D. unfold match_at. eapply bt_complete; eauto.
Qed.

Lemma search_complete r s m : matches_in r s m -> exists m', search r s = Some m'.
Proof.
  intros (pre & rest & -> & D).
  induction pre as [|a pre IH]; simpl.
  - destruct (match_at_complete _ _ _ _ _ D) as [m' E].
    destruct (whole m ++ rest); simpl; rewrite E; eauto.
  - destruct (match_at r (a :: pre ++ whole m ++ rest)); eauto.
Qed.

Lemma search_none r s m : search r s = None -> ~ matches_in r s m.
Proof.
  intros H M. destruct (search_complete _ _ _ M) as [m' E]. congruence.
Qed.

(** ** Shapes of the pieces of the patterns *)

Ltac break :=
  repeat match goal with
         | H : exists _, _ |- _ => destruct H
         | H : _ /\ _ |- _ => destruct H
         end.

Lemma den_date m rest c c' :
  den date_re m rest c c' -> is_date m = true /\ c' = c.
Proof.
  unfold date_re. simpl. intros H. break. subst. simpl.
  repeat match goal with H : _ = true |- _ => rewrite H; clear H end. auto.
Qed.

Lemma den_spaces m rest c c' :
  den spaces m rest c c' -> is_spaces m = true /\ c' = c.
Proof.
  unfold spaces, is_spaces. simpl. intros [[Hall Hlen] ->]. rewrite Hall.
  destruct m; simpl in *; [lia|auto].
Qed.

Lemma den_amount m rest c c' :
  den amount_re m rest c c' -> is_amount m /\ c' = c.
Proof.
  unfold amount_re, is_amount. simpl. intros H. break.
  match goal with H : _ \/ _ |- _ => destruct H as [[? ?] | [? ?]] end;
    subst; (split; [|reflexivity]).
  all: match goal with
       | Hl : (1 <= length ?ip)%nat
         |- exists _ _ _, ?ip ++ ?dot ++ ?fp ++ [] = _ /\ _ =>
           exists ip, dot, fp; rewrite app_nil_r; repeat split; auto;
           intros ->; simpl in Hl; lia
       end.
Qed.

(** One step of reading a [den] hypothesis of a pattern. *)
Ltac den_step :=
  match goal with
  | H : den date_re _ _ _ _ |- _ =>
      apply den_date in H; destruct H as [? ?]
  | H : den amount_re _ _ _ _ |- _ =>
      apply den_amount in H; destruct H as [? ?]
  | H : den spaces _ _ _ _ |- _ =>
      apply den_spaces in H; destruct H as [? ?]
  | H : den (cat []) _ _ _ _ |- _ => destruct H as [? ?]
  | H : den Eps _ _ _ _ |- _ => destruct H as [? ?]
  | H : den (cat (_ :: _)) _ _ _ _ |- _ =>
      destruct H as (? & ? & ? & ? & ? & ?)
  | H : den (Grp _ _) _ _ _ _ |- _ => destruct H as (? & ? & ?)
  | H : den (Lit _) _ _ _ _ |- _ => destruct H as [? ?]
  | H : den (Cls _) _ _ _ _ |- _ => destruct H as [(? & ? & ?) ?]
  | H : den (Rep _ _ _) _ _ _ _ |- _ => destruct H as [[? ?] ?]
  | H : den (Alt _ _) _ _ _ _ |- _ => destruct H as [?|?]
  | H : den (Ahead _) _ _ _ _ |- _ => destruct H as (? & ? & ? & ? & ?)
  | H : den Eos _ _ _ _ |- _ => destruct H as (? & ? & ?)
  end.

Ltac den_read :=
  repeat den_step; subst;
  repeat match goal with H : [] ++ _ = _ |- _ => simpl in H end;
  subst; rewrite ?app_nil_r in *.

Lemma length_nonempty (l : text) : (1 <= length l)%nat -> l <> [].
Proof. destruct l; simpl; [lia|discriminate]. Qed.

Lemma atm_pattern_shape w rest g :
  den atm_pattern w rest [] g ->
  exists loc mid d1 w1 d2 w2 amt,
    w = str "ATM Withdrawal" ++ [nl] ++ loc ++ [nl] ++ mid ++ d1 ++ w1 ++
        d2 ++ w2 ++ str "$" ++ amt /\
    forallb not_nl loc = true /\ loc <> [] /\
    forallb not_nl mid = true /\
    is_date d1 = true /\ is_spaces w1 = true /\
    is_date d2 = true /\ is_spaces w2 = true /\
    is_amount amt /\
    g = [(5, amt); (4, d2); (3, d1); (2, mid); (1, loc)]%nat.
Proof.
  unfold atm_pattern. intros H. den_read.
  do 7 eexists. split; [reflexivity|].
  repeat split; auto using length_nonempty.
Qed.

Lemma deposit_pattern_shape w rest g :
  den deposit_pattern w rest [] g ->
  exists tail w1 d w2 amt,
    w = (str "Deposit" ++ tail) ++ w1 ++ d ++ w2 ++ str "$" ++ amt /\
    forallb not_nl tail = true /\
    is_spaces w1 = true /\ is_date d = true /\ is_spaces w2 = true /\
    is_amount amt /\
    g = [(3, amt); (2, d); (1, str "Deposit" ++ tail)]%nat.
Proof.
  unfold deposit_pattern. intros H. den_read.
  do 5 eexists. split; [reflexivity|]. repeat split; auto.
Qed.

Lemma check_pattern_shape w rest g :
  den check_pattern w rest [] g ->
  exists d w1 num w2 amt w3 ref,
    w = d ++ w1 ++ num ++ w2 ++ amt ++ w3 ++ ref /\
    is_date d = true /\ is_spaces w1 = true /\
    forallb PyStr.is_digit num = true /\ num <> [] /\
    is_spaces w2 = true /\ is_amount amt /\ is_spaces w3 = true /\
    forallb PyStr.is_digit ref = true /\ ref <> [] /\
    g = [(4, ref); (3, amt); (2, num); (1, d)]%nat.
Proof.
  unfold check_pattern, digits. intros H. den_read.
  do 7 eexists. split; [reflexivity|].
  repeat split; auto using length_nonempty.
Qed.

Lemma generic_pattern_shape w rest g :
  den generic_pattern w rest [] g ->
  exists d w1 body w2 amt,
    w = d ++ w1 ++ body ++ w2 ++ str "$" ++ amt /\
    is_date d = true /\ is_spaces w1 = true /\
    forallb not_nl body = true /\ is_spaces w2 = true /\
    is_amount amt /\
    g = [(3, amt); (2, body); (1, d)]%nat.
Proof.
  unfold generic_pattern. intros H. den_read.
  do 5 eexists. split; [reflexivity|]. repeat split; auto.
Qed.

(** The section isolated before the ATM pattern runs: the header line,
    the section text, and what stops it. *)
Lemma atm_section_shape w rest g :
  den atm_section_re w rest [] g ->
  exists line sect,
    w = str "ATM Withdrawals & Debits Account" ++ line ++ [nl] ++ sect /\
    (PyStr.prefixb (str "Total ATM") rest = true \/ rest = [] \/ rest = [nl]) /\
    g = [(1%nat, sect)].
Proof.
  unfold atm_section_re. intros H. den_read.
  all: do 2 eexists; (split; [reflexivity|]); repeat split; auto.
  all: try (left; reflexivity); right; simpl in *; intuition.
Qed.

Lemma checks_section_shape w rest g :
  den checks_section_re w rest [] g ->
  exists line1 skipped line2 sect,
    w = str "ChecksPaid" ++ line1 ++ [nl] ++ skipped ++ str "Date Paid" ++
        line2 ++ [nl] ++ sect /\
    forallb not_nl line1 = true /\ forallb not_nl line2 = true /\
    (PyStr.prefixb (str "Total Checks") rest = true \/ rest = [] \/ rest = [nl]) /\
    g = [(1%nat, sect)].
Proof.
  unfold checks_section_re. intros H. den_read.
  all: do 4 eexists; (split; [reflexivity|]); repeat split; auto.
  all: try (left; reflexivity); right; simpl in *; intuition.
Qed.

(** ** Character sets survive the string operations *)

Lemma sub_class_nil_forallb q cls (s : text) :
  forallb q s = true -> forallb q (PyStr.sub_class cls [] s) = true.
Proof.
  unfold PyStr.sub_class. induction s as [|a s IH]; simpl; auto.
  intros H. apply andb_prop in H. destruct H as [Ha Hs].
  destruct (cls a); simpl; auto. now rewrite Ha, IH.
Qed.

Lemma lstrip_forallb q (s : text) :
  forallb q s = true -> forallb q (PyStr.lstrip s) = true.
Proof.
  induction s as [|a s IH]; simpl; auto. intros H.
  destruct (PyStr.is_space a); [|exact H].
  apply andb_prop in H. destruct H. auto.
Qed.

Lemma forallb_rev q (s : text) : forallb q (rev s) = forallb q s.
Proof.
  induction s as [|a s IH]; simpl; auto.
  rewrite forallb_app, IH. simpl. rewrite andb_true_r. apply andb_comm.
Qed.

Lemma strip_forallb q (s : text) :
  forallb q s = true -> forallb q (PyStr.strip s) = true.
Proof.
  intros H. unfold PyStr.strip, PyStr.rstrip.
  rewrite forallb_rev. apply lstrip_forallb. rewrite forallb_rev.
  now apply lstrip_forallb.
Qed.

Lemma contains_forallb q ch (s : text) :
  forallb q s = true -> q ch = false -> PyStr.contains ch s = false.
Proof.
  unfold PyStr.contains, PyStr.is_char. intros Hall Hq.
  induction s as [|a s IH]; simpl; auto. simpl in Hall.
  apply andb_prop in Hall. destruct Hall as [Ha Hs]. rewrite (IH Hs).
  destruct (Ascii.eqb_spec a ch); [congruence|reflexivity].
Qed.

(** What reaches [float()] holds only digits, points and minus signs. *)
Lemma cleaned_alphabet (s : text) :
  forallb (fun c => negb (non_numeric c)) (PyStr.sub_class non_numeric [] s)
    = true.
Proof.
  unfold PyStr.sub_class. induction s as [|a s IH]; simpl; auto.
  destruct (non_numeric a) eqn:E; simpl; auto. now rewrite E, IH.
Qed.

(** ** Signs *)

Lemma sign_round64 s n d : PyFloat.sign (PyFloat.round64 s n d) = s.
Proof.
  unfold PyFloat.round64.
  repeat match goal with
         | |- context [if ?b then _ else _] => destruct b
         end; reflexivity.
Qed.

Lemma split_sign_amount ch (r : text) :
  amount_char ch = true -> PyFloat.split_sign (ch :: r) = (false, ch :: r).
Proof.
  destruct ch as [[] [] [] [] [] [] [] []]; intros H;
    try discriminate H; reflexivity.
Qed.

Lemma py_float_amount_sign (s : text) v :
  forallb amount_char s = true ->
  PyFloat.py_float s = Ok v -> PyFloat.sign v = false.
Proof.
  intros Hall. apply (strip_forallb amount_char) in Hall.
  unfold PyFloat.py_float.
  assert (Hs : PyFloat.split_sign (PyStr.strip s) = (false, PyStr.strip s)).
  { destruct (PyStr.strip s) as [|ch r]; [reflexivity|].
    simpl in Hall. apply andb_prop in Hall. destruct Hall.
    now apply split_sign_amount. }
  rewrite Hs.
  destruct (PyFloat.span_digits (PyStr.strip s)) as [ip rest].
  assert (Hd : forall fp, PyFloat.decimal false ip fp = Ok v ->
                          PyFloat.sign v = false).
  { intros fp. unfold PyFloat.decimal. destruct (ip ++ fp); [discriminate|].
    intros E. inversion E. apply sign_round64. }
  destruct rest as [|ch r]; [apply Hd|].
  destruct (Ascii.eqb_spec ch "."%char) as [->|Hne].
  - destruct (PyFloat.span_digits r) as [fp [|? ?]]; [apply Hd|discriminate].
  - destruct ch as [[] [] [] [] [] [] [] []]; try discriminate.
    now elim Hne.
Qed.

Lemma is_amount_chars a : is_amount a -> forallb amount_char a = true.
Proof.
  intros (ip & dot & fp & -> & Hip & _ & Hdot & Hfp).
  assert (Hw : forall q (l : text),
             forallb q l = true -> (forall c, q c = true -> amount_char c = true) ->
             forallb amount_char l = true).
  { intros q l Hl Hq. rewrite forallb_forall in *. auto. }
  assert (H1 : forallb amount_char ip = true).
  { apply (Hw _ _ Hip). intros c Hc. unfold amount_char, digit_or_comma in *.
    apply orb_prop in Hc. destruct Hc as [-> | ->]; [reflexivity|].
    now rewrite orb_true_r. }
  assert (H2 : forallb amount_char fp = true).
  { apply (Hw _ _ Hfp). intros c Hc. unfold amount_char. now rewrite Hc. }
  rewrite !forallb_app, H1, H2.
  destruct Hdot as [-> | ->]; reflexivity.
Qed.

(** An amount text never parses to a value with the sign bit set. *)
Lemma parse_currency_amount (a : text) :
  forallb amount_char a = true ->
  exists v, parse_currency a = Ok v /\ PyFloat.sign v = false.
Proof.
  intros Hall. destruct a as [|c a]; [now exists PyFloat.zero|].
  unfold parse_currency.
  set (clean := PyStr.strip _).
  assert (Hc : forallb amount_char clean = true).
  { subst clean. unfold PyStr.replace.
    now apply strip_forallb, sub_class_nil_forallb, sub_class_nil_forallb. }
  rewrite (contains_forallb amount_char "("%char clean Hc eq_refl). simpl.
  apply (sub_class_nil_forallb amount_char non_numeric) in Hc.
  destruct (PyFloat.py_float (PyStr.sub_class non_numeric [] clean))
    as [v|[]] eqn:E; simpl.
  - exists v. split; [reflexivity|]. eapply py_float_amount_sign; eauto.
  - now exists PyFloat.zero.
Qed.

(** ** Rendering and reading back an integer *)

Lemma digit_char_spec d :
  0 <= d < 10 ->
  PyStr.is_digit (digit_char d) = true /\ PyFloat.digit_val (digit_char d) = d.
Proof.
  intros H.
  assert (d = 0 \/ d = 1 \/ d = 2 \/ d = 3 \/ d = 4 \/ d = 5 \/ d = 6 \/
          d = 7 \/ d = 8 \/ d = 9) as Hd by lia.
  repeat (destruct Hd as [-> | Hd]; [split; reflexivity|]).
  subst; split; reflexivity.
Qed.

Lemma to_digits_S f n :
  to_digits (S f) n =
  if n <? 10 then [digit_char n]
  else digit_char (n mod 10) :: to_digits f (n / 10).
Proof. reflexivity. Qed.

Lemma to_digits_spec fuel : forall n,
  0 <= n < 10 ^ Z.of_nat (S fuel) ->
  forallb PyStr.is_digit (to_digits (S fuel) n) = true /\
  val_rev (to_digits (S fuel) n) = n /\ to_digits (S fuel) n <> [].
Proof.
  induction fuel as [|f IH]; intros n Hn;
    rewrite to_digits_S; destruct (Z.ltb_spec n 10) as [Hlt|Hge].
  - destruct (digit_char_spec n) as [Hd Hv]; [lia|].
    simpl. rewrite Hd, Hv. repeat split; [lia|discriminate].
  - change (10 ^ Z.of_nat 1) with 10 in Hn. lia.
  - destruct (digit_char_spec n) as [Hd Hv]; [lia|].
    simpl. rewrite Hd, Hv. repeat split; [lia|discriminate].
  - assert (Hq : 0 <= n / 10 < 10 ^ Z.of_nat (S f)).
    { rewrite (Nat2Z.inj_succ (S f)), Z.pow_succ_r in Hn by lia.
      split; [apply Z.div_pos; lia|].
      apply Z.div_lt_upper_bound; lia. }
    destruct (IH _ Hq) as (Hall & Hval & _).
    destruct (digit_char_spec (n mod 10)) as [Hd Hv].
    { apply Z.mod_pos_bound. lia. }
    cbn [forallb val_rev fold_right]. fold (val_rev (to_digits (S f) (n / 10))).
    rewrite Hd, Hv, Hall, Hval.
    repeat split; [|discriminate].
    pose proof (Z.div_mod n 10). lia.
Qed.

Lemma fuel_enough n :
  0 <= n -> n < 10 ^ Z.of_nat (S (Z.to_nat (Z.log2 n))).
Proof.
  intros Hn. rewrite Nat2Z.inj_succ, Z2Nat.id by apply Z.log2_nonneg.
  destruct (Z.eq_dec n 0) as [->|Hne]; [reflexivity|].
  pose proof (Z.log2_spec n ltac:(lia)) as [_ Hlt].
  eapply Z.lt_le_trans; [exact Hlt|].
  apply Z.pow_le_mono_l. lia.
Qed.

Lemma digits_rev_spec n :
  0 <= n ->
  forallb PyStr.is_digit (digits_rev n) = true /\
  val_rev (digits_rev n) = n /\ digits_rev n <> [].
Proof.
  intros Hn. apply to_digits_spec. split; [exact Hn|]. now apply fuel_enough.
Qed.

Lemma digits_val_rev (l : text) : PyFloat.digits_val (rev l) = val_rev l.
Proof.
  unfold PyFloat.digits_val. induction l as [|a l IH]; [reflexivity|].
  cbn [rev]. rewrite fold_left_app, IH. cbn [fold_left].
  change (val_rev (a :: l)) with (PyFloat.digit_val a + 10 * val_rev l). lia.
Qed.

Lemma digits_val_app (ds : text) (tl : text) :
  PyFloat.digits_val (ds ++ tl) =
  fold_left (fun acc c => 10 * acc + PyFloat.digit_val c) tl
            (PyFloat.digits_val ds).
Proof. unfold PyFloat.digits_val. apply fold_left_app. Qed.

Lemma py_str_spec n :
  0 <= n ->
  forallb PyStr.is_digit (py_str n) = true /\
  PyFloat.digits_val (py_str n) = n /\ py_str n <> [].
Proof.
  intros Hn. destruct (digits_rev_spec n Hn) as (Hall & Hval & Hne).
  unfold py_str. rewrite forallb_rev, digits_val_rev.
  repeat split; auto.
  intros E. apply Hne. apply (f_equal (@rev ascii)) in E.
  now rewrite rev_involutive in E.
Qed.

(** ** Strings without the characters an operation looks for *)

Lemma sub_class_nil_id cls (s : text) :
  forallb (fun c => negb (cls c)) s = true -> PyStr.sub_class cls [] s = s.
Proof.
  unfold PyStr.sub_class. induction s as [|a s IH]; simpl; auto.
  intros H. apply andb_prop in H. destruct H as [Ha Hs].
  destruct (cls a); [discriminate|]. simpl. now rewrite IH.
Qed.

Lemma sub_class_app cls new (s t : text) :
  PyStr.sub_class cls new (s ++ t) =
  PyStr.sub_class cls new s ++ PyStr.sub_class cls new t.
Proof. unfold PyStr.sub_class. apply flat_map_app. Qed.

Lemma sub_class_nil_rev cls (s : text) :
  PyStr.sub_class cls [] (rev s) = rev (PyStr.sub_class cls [] s).
Proof.
  induction s as [|a s IH]; simpl; [reflexivity|].
  rewrite sub_class_app, IH. unfold PyStr.sub_class at 2 3. simpl.
  destruct (cls a); simpl; [now rewrite app_nil_r|reflexivity].
Qed.

Lemma forallb_weaken (q q' : ascii -> bool) (s : text) :
  (forall c, q c = true -> q' c = true) ->
  forallb q s = true -> forallb q' s = true.
Proof. intros Hq H. rewrite forallb_forall in *. auto. Qed.

Lemma lstrip_id (s : text) :
  forallb (fun c => negb (PyStr.is_space c)) s = true -> PyStr.lstrip s = s.
Proof.
  destruct s as [|a s]; simpl; auto. intros H.
  apply andb_prop in H. destruct H as [Ha _].
  now destruct (PyStr.is_space a).
Qed.

Lemma strip_id (s : text) :
  forallb (fun c => negb (PyStr.is_space c)) s = true -> PyStr.strip s = s.
Proof.
  intros H. unfold PyStr.strip, PyStr.rstrip. rewrite (lstrip_id _ H).
  rewrite lstrip_id by now rewrite forallb_rev. apply rev_involutive.
Qed.

Lemma commas_cons k a (l : text) :
  commas k (a :: l) = a :: commas (S k) l \/
  commas k (a :: l) = a :: ","%char :: commas 0 l.
Proof.
  destruct k as [|[|[|k]]]; destruct l as [|b l]; simpl; auto.
Qed.

(** Commas go where [replace] takes them out. *)
Lemma commas_removed (l : text) : forall k,
  forallb PyStr.is_digit l = true ->
  PyStr.replace ","%char [] (commas k l) = l.
Proof.
  unfold PyStr.replace.
  induction l as [|a l IH]; intros k H; [reflexivity|].
  simpl in H. apply andb_prop in H. destruct H as [Ha Hl].
  assert (Hc : PyStr.is_char ","%char a = false).
  { destruct a as [[] [] [] [] [] [] [] []]; try reflexivity; discriminate Ha. }
  destruct (commas_cons k a l) as [-> | ->].
  - change (a :: commas (S k) l) with ([a] ++ commas (S k) l).
    rewrite sub_class_app, IH by assumption.
    unfold PyStr.sub_class. simpl. now rewrite Hc.
  - change (a :: ","%char :: commas 0 l) with ([a; ","%char] ++ commas 0 l).
    rewrite sub_class_app, IH by assumption.
    unfold PyStr.sub_class. simpl. now rewrite Hc.
Qed.

Lemma digit_facts c :
  PyStr.is_digit c = true ->
  PyStr.is_space c = false /\ non_numeric c = false /\ amount_char c = true /\
  digit_or_comma c = true /\
  PyStr.is_char "$"%char c = false /\ PyStr.is_char ","%char c = false /\
  PyStr.is_char "("%char c = false /\ PyStr.is_char ")"%char c = false.
Proof.
  destruct c as [[] [] [] [] [] [] [] []]; intros H; try discriminate H;
    repeat split; reflexivity.
Qed.

Lemma commas_chars (l : text) : forall k,
  forallb PyStr.is_digit l = true ->
  forallb digit_or_comma (commas k l) = true.
Proof.
  induction l as [|a l IH]; intros k H; [reflexivity|].
  simpl in H. apply andb_prop in H. destruct H as [Ha Hl].
  destruct (digit_facts a Ha) as (_ & _ & _ & Hd & _).
  destruct (commas_cons k a l) as [-> | ->]; simpl; rewrite Hd; simpl; auto.
Qed.

Lemma grouped_chars n :
  0 <= n -> forallb digit_or_comma (grouped n) = true.
Proof.
  intros Hn. unfold grouped. rewrite forallb_rev. apply commas_chars.
  now destruct (digits_rev_spec n Hn).
Qed.

Lemma grouped_without_commas n :
  0 <= n -> PyStr.replace ","%char [] (grouped n) = py_str n.
Proof.
  intros Hn. unfold grouped, py_str, PyStr.replace.
  rewrite sub_class_nil_rev. f_equal. apply commas_removed.
  now destruct (digits_rev_spec n Hn).
Qed.

(** ** [float()] on digit strings *)

Lemma span_digits_app (ds r : text) :
  forallb PyStr.is_digit ds = true ->
  match r with c :: _ => PyStr.is_digit c = false | [] => True end ->
  PyFloat.span_digits (ds ++ r) = (ds, r).
Proof.
  intros Hds Hr. induction ds as [|a ds IH]; simpl.
  - destruct r as [|c r]; [reflexivity|]. simpl. now rewrite Hr.
  - simpl in Hds. apply andb_prop in Hds. destruct Hds as [Ha Hds].
    now rewrite Ha, IH.
Qed.

Lemma digits_no_space (ds : text) :
  forallb PyStr.is_digit ds = true ->
  forallb (fun c => negb (PyStr.is_space c)) ds = true.
Proof.
  apply forallb_weaken. intros c Hc.
  destruct (digit_facts c Hc) as (-> & _). reflexivity.
Qed.

Lemma split_sign_digits (ds r : text) :
  forallb PyStr.is_digit ds = true -> ds <> [] ->
  PyFloat.split_sign (ds ++ r) = (false, ds ++ r).
Proof.
  destruct ds as [|a ds]; [congruence|]. simpl. intros H _.
  apply andb_prop in H. destruct H as [Ha _].
  apply split_sign_amount. now destruct (digit_facts a Ha) as (_ & _ & -> & _).
Qed.

Lemma py_float_decimal (ds fp : text) :
  forallb PyStr.is_digit ds = true -> ds <> [] ->
  forallb PyStr.is_digit fp = true ->
  PyFloat.py_float (ds ++ "."%char :: fp) =
  Ok (PyFloat.round64 false (PyFloat.digits_val (ds ++ fp))
                      (10 ^ Z.of_nat (length fp))).
Proof.
  intros Hds Hne Hfp. unfold PyFloat.py_float.
  rewrite strip_id.
  2:{ rewrite forallb_app. rewrite (digits_no_space _ Hds). simpl.
      now apply digits_no_space. }
  rewrite split_sign_digits, span_digits_app by (auto; reflexivity).
  rewrite <- (app_nil_r fp) at 1.
  rewrite span_digits_app by auto. unfold PyFloat.decimal.
  destruct ds as [|a ds]; [congruence|]. reflexivity.
Qed.

Lemma py_float_integer (ds : text) :
  forallb PyStr.is_digit ds = true -> ds <> [] ->
  PyFloat.py_float ds = Ok (PyFloat.round64 false (PyFloat.digits_val ds) 1).
Proof.
  intros Hds Hne. unfold PyFloat.py_float.
  rewrite strip_id by now apply digits_no_space.
  rewrite <- (app_nil_r ds) at 1.
  rewrite split_sign_digits, span_digits_app by auto.
  unfold PyFloat.decimal. rewrite !app_nil_r.
  destruct ds as [|a ds]; [congruence|]. reflexivity.
Qed.

(** ** Rounding *)

(** Scaling numerator and denominator does not change the float. *)
Lemma round64_scale s a : 0 <= a ->
  PyFloat.round64 s (100 * a) 100 = PyFloat.round64 s a 1.
Proof.
  intros Ha. unfold PyFloat.round64.
  replace (Z.gcd (100 * a) 100) with 100.
  2:{ change 100 with (100 * 1) at 3.
      rewrite Z.gcd_mul_mono_l_nonneg, Z.gcd_1_r by lia. reflexivity. }
  rewrite Z.gcd_1_r, !Z.div_1_r.
  rewrite (Z.mul_comm 100 a), Z.div_mul by lia. reflexivity.
Qed.

Lemma round_half_even_1 n : PyFloat.round_half_even n 1 = n.
Proof.
  unfold PyFloat.round_half_even. rewrite Z.div_1_r, Z.mod_1_r. reflexivity.
Qed.

(** Integers up to 2^53 are floats. *)
Lemma round64_exact a :
  0 <= a <= 2 ^ 53 -> PyFloat.eq_int (PyFloat.round64 false a 1) a.
Proof.
  intros Ha. unfold PyFloat.round64.
  rewrite Z.gcd_1_r, !Z.div_1_r.
  destruct (Z.eqb_spec a 0) as [->|Hne]; [reflexivity|].
  assert (Hlog : 2 ^ Z.log2 a <= a < 2 ^ Z.succ (Z.log2 a))
    by (apply Z.log2_spec; lia).
  assert (He0 : 0 <= Z.log2 a) by apply Z.log2_nonneg.
  assert (He1 : Z.log2 a <= 53).
  { destruct (Z.le_gt_cases (Z.log2 a) 53) as [H|H]; [exact H|].
    assert (2 ^ 54 <= 2 ^ Z.log2 a) by (apply Z.pow_le_mono_r; lia). lia. }
  assert (Hb : PyFloat.binade a 1 = Z.log2 a).
  { unfold PyFloat.binade, PyFloat.pow2_le. change (Z.log2 1) with 0.
    rewrite Z.sub_0_r.
    destruct (Z.leb_spec 0 (Z.log2 a)); [|lia].
    destruct (Z.leb_spec (1 * 2 ^ Z.log2 a) a); [reflexivity|lia]. }
  rewrite Hb. set (e := Z.log2 a) in *.
  rewrite Z.max_l by lia.
  destruct (Z.leb_spec 0 (e - 52)) as [Hq|Hq].
  - (* e is 52 or 53 *)
    assert (e = 52 \/ e = 53) as [E|E] by lia; rewrite E in *.
    + change (52 - 52) with 0. change (1 * 2 ^ 0) with 1.
      rewrite round_half_even_1. change (Z.succ 52) with 53 in Hlog.
      destruct (Z.eqb_spec a (2 ^ 53)); [lia|].
      change (971 <? 0) with false. cbv iota.
      destruct (Z.eqb_spec a 0); [lia|]. simpl. lia.
    + assert (a = 2 ^ 53) as -> by lia. reflexivity.
  - assert (Hp : 2 ^ Z.succ e * 2 ^ (- (e - 52)) = 2 ^ 53).
    { rewrite <- Z.pow_add_r by lia. f_equal. lia. }
    assert (Hpos : 0 < 2 ^ (- (e - 52))) by (apply Z.pow_pos_nonneg; lia).
    rewrite round_half_even_1.
    destruct (Z.eqb_spec (a * 2 ^ (- (e - 52))) (2 ^ 53)) as [E|_]; [nia|].
    destruct (Z.ltb_spec 971 (e - 52)); [lia|].
    destruct (Z.eqb_spec (a * 2 ^ (- (e - 52))) 0) as [E|_]; [nia|].
    simpl. destruct (Z.leb_spec 0 (e - 52)); [lia|]. reflexivity.
Qed.

(** Every integer that is a binary64 value survives the conversion. *)
Lemma round64_exact_gen a :
  0 <= a -> is_binary64 a -> PyFloat.eq_int (PyFloat.round64 false a 1) a.
Proof.
  intros Ha (m & e & Hme & Hm & He & Hmax).
  destruct (Z.le_gt_cases a (2 ^ 53)) as [Hsmall|Hbig].
  { apply round64_exact. lia. }
  unfold PyFloat.round64.
  rewrite Z.gcd_1_r, !Z.div_1_r.
  destruct (Z.eqb_spec a 0) as [->|Hne]; [reflexivity|].
  assert (Hlog : 2 ^ Z.log2 a <= a < 2 ^ Z.succ (Z.log2 a))
    by (apply Z.log2_spec; lia).
  assert (He0 : 0 <= Z.log2 a) by apply Z.log2_nonneg.
  assert (Hb : PyFloat.binade a 1 = Z.log2 a).
  { unfold PyFloat.binade, PyFloat.pow2_le. change (Z.log2 1) with 0.
    rewrite Z.sub_0_r.
    destruct (Z.leb_spec 0 (Z.log2 a)); [|lia].
    destruct (Z.leb_spec (1 * 2 ^ Z.log2 a) a); [reflexivity|lia]. }
  rewrite Hb. set (E := Z.log2 a) in *.
  assert (HE53 : 53 <= E).
  { destruct (Z.le_gt_cases 53 E) as [H|H]; [exact H|].
    assert (2 ^ Z.succ E <= 2 ^ 53) by (apply Z.pow_le_mono_r; lia). lia. }
  assert (HE1023 : E <= 1023).
  { destruct (Z.le_gt_cases E 1023) as [H|H]; [exact H|].
    assert (2 ^ 1024 <= 2 ^ E) by (apply Z.pow_le_mono_r; lia). lia. }
  rewrite Z.max_l by lia. set (q := E - 52) in *.
  assert (H2e : 0 < 2 ^ e) by (apply Z.pow_pos_nonneg; lia).
  assert (Hqe : q <= e).
  { destruct (Z.le_gt_cases q e) as [H|H]; [exact H|].
    assert (H' : 2 ^ (53 + e) <= 2 ^ E) by (apply Z.pow_le_mono_r; lia).
    rewrite Z.pow_add_r in H' by lia. nia. }
  assert (Hq0 : 0 < 2 ^ q) by (apply Z.pow_pos_nonneg; lia).
  assert (Hk : a = (m * 2 ^ (e - q)) * 2 ^ q).
  { rewrite <- Z.mul_assoc, <- Z.pow_add_r by lia.
    replace (e - q + q) with e by lia. exact Hme. }
  set (k := m * 2 ^ (e - q)) in *.
  assert (Hk53 : 0 < k < 2 ^ 53).
  { assert (HS : 2 ^ Z.succ E = 2 ^ 53 * 2 ^ q).
    { rewrite <- Z.pow_add_r by lia. f_equal. lia. }
    nia. }
  destruct (Z.leb_spec 0 q); [|lia].
  assert (Hr : PyFloat.round_half_even a (1 * 2 ^ q) = k).
  { unfold PyFloat.round_half_even. rewrite Z.mul_1_l, Hk.
    rewrite Z.div_mul, Z.mod_mul by lia.
    destruct (Z.ltb_spec (2 * 0) (2 ^ q)); [reflexivity|lia]. }
  rewrite Hr.
  destruct (Z.eqb_spec k (2 ^ 53)); [lia|].
  destruct (Z.ltb_spec 971 q); [lia|].
  destruct (Z.eqb_spec k 0); [lia|].
  simpl. destruct (Z.leb_spec 0 q); [|lia]. lia.
Qed.

Lemma small_is_binary64 a : 0 <= a <= 2 ^ 53 -> is_binary64 a.
Proof.
  intros Ha. destruct (Z.eq_dec a (2 ^ 53)) as [->|Hne].
  - exists (2 ^ 52), 1. repeat split; reflexivity || discriminate.
  - exists a, 0. rewrite Z.mul_1_r. repeat split; lia.
Qed.

(** Conversely, an integer the conversion returns unchanged is a binary64
    value. *)
Lemma round_half_even_bounds n d :
  0 <= n -> 0 < d -> n / d <= PyFloat.round_half_even n d <= n / d + 1.
Proof.
  intros Hn Hd. unfold PyFloat.round_half_even.
  repeat match goal with |- context [if ?b then _ else _] => destruct b end;
    lia.
Qed.

Lemma round64_exact_inv a :
  0 < a -> PyFloat.eq_int (PyFloat.round64 false a 1) a -> is_binary64 a.
Proof.
  intros Ha. unfold PyFloat.round64.
  rewrite Z.gcd_1_r, !Z.div_1_r.
  destruct (Z.eqb_spec a 0) as [->|_]; [lia|].
  assert (Hlog : 2 ^ Z.log2 a <= a < 2 ^ Z.succ (Z.log2 a))
    by (apply Z.log2_spec; lia).
  assert (He0 : 0 <= Z.log2 a) by apply Z.log2_nonneg.
  assert (Hb : PyFloat.binade a 1 = Z.log2 a).
  { unfold PyFloat.binade, PyFloat.pow2_le. change (Z.log2 1) with 0.
    rewrite Z.sub_0_r.
    destruct (Z.leb_spec 0 (Z.log2 a)); [|lia].
    destruct (Z.leb_spec (1 * 2 ^ Z.log2 a) a); [reflexivity|lia]. }
  rewrite Hb. set (E := Z.log2 a) in *.
  rewrite Z.max_l by lia. set (q := E - 52) in *.
  destruct (Z.leb_spec 0 q) as [Hq|Hq].
  - (* the mantissa is a rounded up to a multiple of 2^q *)
    assert (Hq0 : 0 < 2 ^ q) by (apply Z.pow_pos_nonneg; lia).
    assert (HS : 2 ^ Z.succ E = 2 ^ 53 * 2 ^ q).
    { rewrite <- Z.pow_add_r by lia. f_equal. lia. }
    pose proof (round_half_even_bounds a (1 * 2 ^ q) ltac:(lia) ltac:(lia))
      as Hr.
    set (r := PyFloat.round_half_even a (1 * 2 ^ q)) in *.
    rewrite Z.mul_1_l in Hr.
    assert (Hdiv : a / 2 ^ q < 2 ^ 53).
    { apply Z.div_lt_upper_bound; lia. }
    destruct (Z.eqb_spec r (2 ^ 53)) as [Er|Er].
    + destruct (Z.ltb_spec 971 (q + 1)); [intros []|].
      change (2 ^ 52 =? 0) with false. unfold PyFloat.eq_int. cbv zeta iota.
      destruct (Z.leb_spec 0 (q + 1)); [|lia]. intros Ha'.
      rewrite Z.pow_add_r in Ha' by lia. change (2 ^ 1) with 2 in Ha'. lia.
    + destruct (Z.ltb_spec 971 q); [intros []|].
      destruct (Z.eqb_spec r 0) as [E0|E0].
      * unfold PyFloat.eq_int. cbv zeta iota. change (0 <=? 0) with true.
        cbv iota. lia.
      * unfold PyFloat.eq_int. cbv zeta iota.
        destruct (Z.leb_spec 0 q); [|lia]. intros Ha'.
        exists r, q. repeat split; try lia.
        rewrite <- Ha'.
        replace 1024 with (53 + 971) by reflexivity.
        rewrite (Z.pow_add_r 2 53 971) by lia.
        assert (2 ^ q <= 2 ^ 971) by (apply Z.pow_le_mono_r; lia).
        assert (0 < 2 ^ 53) by reflexivity.
        nia.
  - (* below 2^53 *)
    assert (Ha53 : a < 2 ^ 53).
    { assert (2 ^ Z.succ E <= 2 ^ 53) by (apply Z.pow_le_mono_r; lia). lia. }
    intros _. apply small_is_binary64. lia.
Qed.

Lemma eq_int_neg f a : PyFloat.eq_int f a -> PyFloat.eq_int (PyFloat.neg f) (- a).
Proof.
  destruct f as [s m e|s]; simpl; [|auto].
  destruct (0 <=? e), s; simpl; intros H; lia.
Qed.

Lemma eq_int_neg_inv f a :
  PyFloat.eq_int (PyFloat.neg f) (- a) -> PyFloat.eq_int f a.
Proof.
  destruct f as [s m e|s]; simpl; [|auto].
  destruct (0 <=? e), s; simpl; intros H; lia.
Qed.

(** ** The two renderings of an amount *)

Lemma parse_currency_dollars a :
  0 <= a ->
  parse_currency (str "$" ++ grouped a ++ str ".00") =
  Ok (PyFloat.round64 false a 1).
Proof.
  intros Ha.
  destruct (py_str_spec a Ha) as (Hds & Hval & Hne).
  pose proof (grouped_chars a Ha) as Hg.
  assert (Hfp : forallb PyStr.is_digit (str "00") = true) by reflexivity.
  change (str "$" ++ grouped a ++ str ".00")
    with ("$"%char :: grouped a ++ str ".00").
  unfold parse_currency.
  assert (E1 : PyStr.replace "$"%char [] ("$"%char :: grouped a ++ str ".00")
               = grouped a ++ str ".00").
  { unfold PyStr.replace.
    change ("$"%char :: grouped a ++ str ".00")
      with (["$"%char] ++ grouped a ++ str ".00").
    rewrite sub_class_app. change (PyStr.sub_class _ _ ["$"%char]) with (@nil ascii).
    apply sub_class_nil_id. rewrite forallb_app.
    rewrite (forallb_weaken digit_or_comma _ (grouped a)); [reflexivity| |exact Hg].
    intros c Hc. destruct c as [[] [] [] [] [] [] [] []]; try discriminate Hc;
      reflexivity. }
  rewrite E1.
  assert (E2 : PyStr.replace ","%char [] (grouped a ++ str ".00")
               = py_str a ++ str ".00").
  { unfold PyStr.replace. rewrite sub_class_app.
    fold (PyStr.replace ","%char [] (grouped a)).
    now rewrite grouped_without_commas. }
  rewrite E2.
  assert (Hamt : forallb (fun c => PyStr.is_digit c || PyStr.is_char "."%char c)
                         (py_str a ++ str ".00") = true).
  { rewrite forallb_app.
    rewrite (forallb_weaken PyStr.is_digit _ (py_str a)); auto.
    intros c ->. reflexivity. }
  rewrite strip_id.
  2:{ revert Hamt. apply forallb_weaken. intros c Hc.
      destruct c as [[] [] [] [] [] [] [] []]; try discriminate Hc; reflexivity. }
  rewrite (contains_forallb _ "("%char _ Hamt eq_refl).
  cbn [andb].
  rewrite sub_class_nil_id.
  2:{ revert Hamt. apply forallb_weaken. intros c Hc.
      destruct c as [[] [] [] [] [] [] [] []]; try discriminate Hc; reflexivity. }
  change (py_str a ++ str ".00") with (py_str a ++ "."%char :: str "00").
  rewrite py_float_decimal by auto.
  rewrite digits_val_app, Hval. cbn [bind try_except].
  change (fold_left _ (str "00") a) with
    (10 * (10 * a + PyFloat.digit_val "0"%char) + PyFloat.digit_val "0"%char).
  change (PyFloat.digit_val "0"%char) with 0.
  change (10 ^ Z.of_nat (length (str "00"))) with 100.
  replace (10 * (10 * a + 0) + 0) with (100 * a) by lia.
  now rewrite round64_scale.
Qed.

Lemma parse_currency_parens a :
  0 <= a ->
  parse_currency (str "(" ++ py_str a ++ str ")") =
  Ok (PyFloat.neg (PyFloat.round64 false a 1)).
Proof.
  intros Ha.
  destruct (py_str_spec a Ha) as (Hds & Hval & Hne).
  change (str "(" ++ py_str a ++ str ")") with ("("%char :: py_str a ++ str ")").
  unfold parse_currency.
  set (t := "("%char :: py_str a ++ str ")").
  assert (Ht : forallb (fun c => PyStr.is_digit c || PyStr.is_char "("%char c
                                 || PyStr.is_char ")"%char c) t = true).
  { subst t. cbn [forallb]. rewrite forallb_app.
    rewrite (forallb_weaken PyStr.is_digit _ (py_str a)); auto.
    intros c ->. reflexivity. }
  assert (Hw : forall q, (forall c, (PyStr.is_digit c || PyStr.is_char "("%char c
                     || PyStr.is_char ")"%char c) = true -> q c = true) ->
                         forallb q t = true).
  { intros q Hq. revert Ht. now apply forallb_weaken. }
  assert (R1 : PyStr.replace "$"%char [] t = t).
  { apply sub_class_nil_id, Hw. intros c Hc.
    destruct c as [[] [] [] [] [] [] [] []]; try discriminate Hc; reflexivity. }
  assert (R2 : PyStr.replace ","%char [] t = t).
  { apply sub_class_nil_id, Hw. intros c Hc.
    destruct c as [[] [] [] [] [] [] [] []]; try discriminate Hc; reflexivity. }
  assert (R3 : PyStr.strip t = t).
  { apply strip_id, Hw. intros c Hc.
    destruct c as [[] [] [] [] [] [] [] []]; try discriminate Hc; reflexivity. }
  rewrite R1, R2, R3.
  assert (Hopen : PyStr.contains "("%char t = true) by reflexivity.
  assert (Hclose : PyStr.contains ")"%char t = true).
  { subst t. unfold PyStr.contains. cbn [existsb].
    rewrite existsb_app. cbn. now rewrite !orb_true_r. }
  rewrite Hopen, Hclose. cbn [andb].
  assert (E : PyStr.replace ")"%char [] (PyStr.replace "("%char [] t) = py_str a).
  { subst t. unfold PyStr.replace.
    change ("("%char :: py_str a ++ str ")")
      with (["("%char] ++ py_str a ++ str ")").
    rewrite !sub_class_app.
    change (PyStr.sub_class (PyStr.is_char "("%char) [] ["("%char]) with (@nil ascii).
    change (PyStr.sub_class (PyStr.is_char "("%char) [] (str ")")) with (str ")").
    change (PyStr.sub_class (PyStr.is_char ")"%char) [] (str ")")) with (@nil ascii).
    change (PyStr.sub_class (PyStr.is_char ")"%char) [] []) with (@nil ascii).
    rewrite app_nil_r. cbn [app].
    rewrite (sub_class_nil_id (PyStr.is_char "("%char) (py_str a)).
    2:{ revert Hds. apply forallb_weaken. intros c Hc.
        now destruct (digit_facts c Hc) as (_ & _ & _ & _ & _ & _ & -> & _). }
    apply sub_class_nil_id.
    revert Hds. apply forallb_weaken. intros c Hc.
    now destruct (digit_facts c Hc) as (_ & _ & _ & _ & _ & _ & _ & ->). }
  rewrite E.
  rewrite sub_class_nil_id.
  2:{ revert Hds. apply forallb_weaken. intros c Hc.
      now destruct (digit_facts c Hc) as (_ & -> & _). }
  rewrite py_float_integer by auto. rewrite Hval. reflexivity.
Qed.

(** ** Header patterns and their labels *)

Lemma den_cat_app rs1 : forall rs2 w rest c c',
  den (cat (rs1 ++ rs2)) w rest c c' ->
  exists w1 w2 c1, w = w1 ++ w2 /\ den (cat rs1) w1 (w2 ++ rest) c c1.
Proof.
  induction rs1 as [|r rs1 IH]; intros rs2 w rest c c' H.
  - exists [], w, c. simpl. auto.
  - destruct H as (m1 & m2 & c1 & -> & D1 & D2).
    destruct (IH _ _ _ _ _ D2) as (w1 & w2 & c2 & -> & D).
    exists (m1 ++ w1), w2, c2. rewrite app_assoc. split; [reflexivity|].
    exists m1, w1, c1. rewrite <- app_assoc in D1. auto.
Qed.

(** A pattern is found only where its leading part is found. *)
Lemma search_label rs1 rs2 t :
  search (cat rs1) t = None -> search (cat (rs1 ++ rs2)) t = None.
Proof.
  intros Hnone. destruct (search (cat (rs1 ++ rs2)) t) as [m|] eqn:E; [|reflexivity].
  apply search_sound in E. destruct E as (pre & rest & -> & D).
  destruct (den_cat_app _ _ _ _ _ _ D) as (w1 & w2 & c1 & Hw & D1).
  exfalso. apply (search_none _ _ {| whole := w1; groups := c1 |} Hnone).
  exists pre, (w2 ++ rest). simpl. rewrite Hw, <- app_assoc. auto.
Qed.

Lemma den_long_date d rest c c' :
  den long_date_re d rest c c' -> is_long_date d /\ c' = c.
Proof.
  unfold long_date_re, digits, digit, opt. intros H. den_read.
  all: split; [|reflexivity].
  all: match goal with
       | |- is_long_date (?mon ++ ?w1 ++ ?day ++ ?comma ++ ?w2 ++ ?y) =>
           exists mon, w1, day, comma, w2, y
       end.
  all: repeat split; auto using length_nonempty.
  all: break; subst; simpl;
    repeat match goal with H : _ = true |- _ => rewrite H; clear H end; auto.
Qed.

Lemma period_shape w rest g :
  den period_re w rest [] g ->
  exists phrase ws d,
    w = phrase ++ ws ++ d /\
    (phrase = str "Beginning Balance on" \/ phrase = str "from") /\
    is_spaces ws = true /\ is_long_date d /\ g = [(1%nat, d)].
Proof.
  unfold period_re. intros H.
  repeat match goal with
         | H : den long_date_re _ _ _ _ |- _ =>
             apply den_long_date in H; destruct H as [? ?]
         | _ => den_step
         end; subst; rewrite ?app_nil_r.
  all: do 3 eexists; (split; [reflexivity|]); repeat split; auto.
Qed.

Lemma end_period_shape w rest g :
  den end_period_re w rest [] g ->
  exists phrase ws d,
    w = phrase ++ ws ++ d /\
    (phrase = str "Ending Balance on" \/ phrase = str "through" \/
     phrase = str "to") /\
    is_spaces ws = true /\ is_long_date d /\ g = [(1%nat, d)].
Proof.
  unfold end_period_re. intros H.
  repeat match goal with
         | H : den long_date_re _ _ _ _ |- _ =>
             apply den_long_date in H; destruct H as [? ?]
         | _ => den_step
         end; subst; rewrite ?app_nil_r.
  all: do 3 eexists; (split; [reflexivity|]); repeat split; auto.
Qed.

(** ** Rows of the four patterns *)

Lemma mapM_Forall {A B} (f : A -> pyresult B) (P : B -> Prop) l ys :
  (forall x y, In x l -> f x = Ok y -> P y) ->
  mapM f l = Ok ys -> Forall P ys.
Proof.
  intros Hf H. apply Forall_forall. intros y Hy.
  destruct (mapM_In _ _ _ _ H Hy) as (x & Hx & Hxy). eauto.
Qed.

Lemma deposit_row_amount t m r :
  matches_in deposit_pattern t m -> deposit_row m = Ok r -> amount_unsigned r.
Proof.
  destruct m as [w g]. intros (pre & rest & _ & D). cbn [whole groups] in D.
  apply deposit_pattern_shape in D.
  destruct D as (tl & w1 & d & w2 & amt & _ & _ & _ & _ & _ & Hamt & ->).
  unfold deposit_row. change (group _ 3) with amt.
  destruct (parse_currency_amount _ (is_amount_chars _ Hamt)) as (v & -> & Hv).
  simpl. intros E. inversion E. exact Hv.
Qed.

Lemma atm_row_amount t m r :
  matches_in atm_pattern t m -> atm_row m = Ok r -> amount_unsigned r.
Proof.
  destruct m as [w g]. intros (pre & rest & _ & D). cbn [whole groups] in D.
  apply atm_pattern_shape in D.
  destruct D as (loc & mid & d1 & w1 & d2 & w2 & amt & _ & _ & _ & _ & _ & _ &
                 _ & _ & Hamt & ->).
  unfold atm_row. change (group _ 5) with amt.
  destruct (parse_currency_amount _ (is_amount_chars _ Hamt)) as (v & -> & Hv).
  simpl. intros E. inversion E. exact Hv.
Qed.

Lemma check_row_amount t m r :
  matches_in check_pattern t m -> check_row m = Ok r -> amount_unsigned r.
Proof.
  destruct m as [w g]. intros (pre & rest & _ & D). cbn [whole groups] in D.
  apply check_pattern_shape in D.
  destruct D as (d & w1 & num & w2 & amt & w3 & ref & _ & _ & _ & _ & _ & _ &
                 Hamt & _ & _ & _ & ->).
  unfold check_row. change (group _ 3) with amt.
  destruct (parse_currency_amount _ (is_amount_chars _ Hamt)) as (v & -> & Hv).
  simpl. intros E. inversion E. exact Hv.
Qed.

Lemma generic_row_amount t m r :
  matches_in generic_pattern t m -> generic_row m = Ok r -> amount_unsigned r.
Proof.
  destruct m as [w g]. intros (pre & rest & _ & D). cbn [whole groups] in D.
  apply generic_pattern_shape in D.
  destruct D as (d & w1 & body & w2 & amt & _ & _ & _ & _ & _ & Hamt & ->).
  unfold generic_row. change (group _ 3) with amt.
  destruct (parse_currency_amount _ (is_amount_chars _ Hamt)) as (v & -> & Hv).
  simpl. intros E. inversion E. exact Hv.
Qed.

Lemma deposit_rows_amount t rows :
  deposit_rows t = Ok rows -> Forall amount_unsigned rows.
Proof.
  apply mapM_Forall. intros m r Hm. apply (deposit_row_amount t).
  now apply finditer_sound.
Qed.

Lemma atm_rows_amount t rows :
  atm_rows t = Ok rows -> Forall amount_unsigned rows.
Proof.
  unfold atm_rows. destruct (search atm_section_re t) as [sec|].
  - apply mapM_Forall. intros m r Hm. apply (atm_row_amount (group sec 1)).
    now apply finditer_sound.
  - intros E. inversion E. constructor.
Qed.

Lemma check_rows_amount t rows :
  check_rows t = Ok rows -> Forall amount_unsigned rows.
Proof.
  unfold check_rows. destruct (search checks_section_re t) as [sec|].
  - apply mapM_Forall. intros m r Hm. apply (check_row_amount (group sec 1)).
    now apply finditer_sound.
  - intros E. inversion E. constructor.
Qed.

Lemma generic_rows_amount t rows :
  generic_rows t = Ok rows -> Forall amount_unsigned rows.
Proof.
  apply mapM_Forall. intros m r Hm. apply (generic_row_amount t).
  now apply finditer_sound.
Qed.

Lemma fallback_rows_amount acc t rows :
  fallback_rows acc t = Ok rows -> Forall amount_unsigned rows.
Proof.
  unfold fallback_rows. destruct acc.
  - apply generic_rows_amount.
  - intros E. inversion E. constructor.
Qed.

(** Types of the rows: only the fallback writes Unknown. *)
Lemma deposit_rows_typed t rows : deposit_rows t = Ok rows -> Forall typed rows.
Proof.
  apply mapM_Forall. intros m r _. unfold deposit_row.
  destruct (parse_currency (group m 3)); simpl; intros E; inversion E.
  unfold typed. simpl. discriminate.
Qed.

Lemma atm_rows_typed t rows : atm_rows t = Ok rows -> Forall typed rows.
Proof.
  unfold atm_rows. destruct (search atm_section_re t) as [sec|].
  - apply mapM_Forall. intros m r _. unfold atm_row.
    destruct (parse_currency (group m 5)); simpl; intros E; inversion E.
    unfold typed. simpl. discriminate.
  - intros E. inversion E. constructor.
Qed.

Lemma check_rows_typed t rows : check_rows t = Ok rows -> Forall typed rows.
Proof.
  unfold check_rows. destruct (search checks_section_re t) as [sec|].
  - apply mapM_Forall. intros m r _. unfold check_row.
    destruct (parse_currency (group m 3)); simpl; intros E; inversion E.
    unfold typed. simpl. discriminate.
  - intros E. inversion E. constructor.
Qed.

(** ** Building matches from shapes *)

Lemma den_cat_cons r rs m1 m2 rest c c1 c' :
  den r m1 (m2 ++ rest) c c1 -> den (cat rs) m2 rest c1 c' ->
  den (cat (r :: rs)) (m1 ++ m2) rest c c'.
Proof. intros D1 D2. exists m1, m2, c1. auto. Qed.

Lemma den_cat_nil rest c : den (cat []) [] rest c c.
Proof. split; reflexivity. Qed.

Lemma den_spaces_intro w rest c :
  is_spaces w = true -> den spaces w rest c c.
Proof.
  unfold is_spaces. intros H. apply andb_prop in H. destruct H as [Hall Hlen].
  simpl. repeat split; auto. destruct w; simpl in *; [discriminate|lia].
Qed.

Lemma den_rep1_intro g p w rest c :
  forallb p w = true -> w <> [] -> den (Rep g 1 p) w rest c c.
Proof.
  intros Hall Hne. simpl. repeat split; auto.
  destruct w; simpl; [congruence|lia].
Qed.

Lemma den_long_date_intro d rest c :
  is_long_date d -> den long_date_re d rest c c.
Proof.
  intros (mon & w1 & day & comma & w2 & year & -> & Hmon & Hmne & Hw1 & Hday &
          Hdne & Hcomma & Hw2 & Hyear & Hlen).
  destruct year as [|y1 [|y2 [|y3 [|y4 [|? ?]]]]]; try discriminate Hlen.
  simpl in Hyear.
  repeat (apply andb_prop in Hyear; destruct Hyear as [? Hyear]).
  unfold long_date_re.
  apply den_cat_cons with (c1 := c); [now apply den_rep1_intro|].
  apply den_cat_cons with (c1 := c); [now apply den_spaces_intro|].
  apply den_cat_cons with (c1 := c); [now apply den_rep1_intro|].
  apply den_cat_cons with (c1 := c).
  { destruct Hcomma as [-> | ->]; [left|right]; split; reflexivity. }
  apply den_cat_cons with (c1 := c); [now apply den_spaces_intro|].
  change [y1; y2; y3; y4] with ([y1] ++ [y2] ++ [y3] ++ [y4] ++ []).
  repeat (apply den_cat_cons with (c1 := c); [split; eauto|]).
  apply den_cat_nil.
Qed.

Lemma period_found t p :
  search period_re t = Some p -> period_start_in t (group p 1).
Proof.
  intros H. apply search_sound in H. destruct p as [w g].
  destruct H as (pre & rest & -> & D). cbn [whole groups] in D.
  apply period_shape in D.
  destruct D as (phrase & ws & d & -> & Hp & Hws & Hd & ->).
  exists pre, phrase, ws, rest. change (group _ 1) with d.
  cbn [whole]. rewrite <- !app_assoc. auto.
Qed.

Lemma period_missing t d :
  search period_re t = None -> ~ period_start_in t d.
Proof.
  intros Hnone (pre & phrase & ws & rest & -> & Hp & Hws & Hd).
  apply (search_none _ _ {| whole := phrase ++ ws ++ d ++ [];
                            groups := [(1%nat, d)] |} Hnone).
  exists pre, rest. cbn [whole groups].
  split; [now rewrite app_nil_r, <- !app_assoc|].
  unfold period_re.
  apply den_cat_cons with (c1 := []).
  { destruct Hp as [-> | ->]; [left|right]; split; reflexivity. }
  apply den_cat_cons with (c1 := []); [now apply den_spaces_intro|].
  apply den_cat_cons with (c1 := [(1%nat, d)]); [|apply den_cat_nil].
  exists []. split; [|reflexivity]. now apply den_long_date_intro.
Qed.

Lemma end_period_found t p :
  search end_period_re t = Some p -> period_end_in t (group p 1).
Proof.
  intros H. apply search_sound in H. destruct p as [w g].
  destruct H as (pre & rest & -> & D). cbn [whole groups] in D.
  apply end_period_shape in D.
  destruct D as (phrase & ws & d & -> & Hp & Hws & Hd & ->).
  exists pre, phrase, ws, rest. change (group _ 1) with d.
  cbn [whole]. rewrite <- !app_assoc. auto.
Qed.

Lemma end_period_missing t d :
  search end_period_re t = None -> ~ period_end_in t d.
Proof.
  intros Hnone (pre & phrase & ws & rest & -> & Hp & Hws & Hd).
  apply (search_none _ _ {| whole := phrase ++ ws ++ d ++ [];
                            groups := [(1%nat, d)] |} Hnone).
  exists pre, rest. cbn [whole groups].
  split; [now rewrite app_nil_r, <- !app_assoc|].
  unfold end_period_re.
  apply den_cat_cons with (c1 := []).
  { destruct Hp as [-> | [-> | ->]];
      [left|right; left|right; right]; split; reflexivity. }
  apply den_cat_cons with (c1 := []); [now apply den_spaces_intro|].
  apply den_cat_cons with (c1 := [(1%nat, d)]); [|apply den_cat_nil].
  exists []. split; [|reflexivity]. now apply den_long_date_intro.
Qed.

Lemma mapM_In_fwd {A B} (f : A -> pyresult B) l ys x y :
  mapM f l = Ok ys -> In x l -> f x = Ok y -> In y ys.
Proof.
  intros H. apply mapM_Forall2 in H.
  induction H as [|x' y' l ys' Hxy _ IH]; simpl; intros Hin Hfx; [easy|].
  destruct Hin as [->|Hin]; [left; congruence|right; auto].
Qed.

(** ** [round64] rounds to nearest *)

(** The rounding step picks an integer within a half of n/d, the even one
    when n/d lies half way. *)
Lemma round_half_even_near n d :
  0 <= n -> 0 < d ->
  0 <= PyFloat.round_half_even n d /\
  2 * Z.abs (PyFloat.round_half_even n d * d - n) <= d /\
  (2 * Z.abs (PyFloat.round_half_even n d * d - n) = d ->
   Z.even (PyFloat.round_half_even n d) = true).
Proof.
  intros Hn Hd. unfold PyFloat.round_half_even.
  pose proof (Z.div_mod n d ltac:(lia)) as E.
  pose proof (Z.mod_pos_bound n d Hd) as B.
  pose proof (Z.div_pos n d Hn Hd) as Q.
  set (q := n / d) in *. set (r := n mod d) in *.
  destruct (Z.ltb_spec (2 * r) d) as [H1|H1].
  - repeat split; [lia|nia|nia].
  - destruct (Z.ltb_spec d (2 * r)) as [H2|H2].
    + repeat split; [lia|nia|nia].
    + destruct (Z.even q) eqn:Ev.
      * repeat split; [lia|nia|auto].
      * repeat split; [lia|nia|].
        intros _. rewrite Z.even_add, Ev. reflexivity.
Qed.

(** The nearest integer beats every integer. *)
Lemma near_beats_all M N D k :
  0 < D -> 2 * Z.abs (M * D - N) <= D ->
  Z.abs (M * D - N) <= Z.abs (k * D - N) /\
  (k <> M -> Z.abs (k * D - N) = Z.abs (M * D - N) ->
   2 * Z.abs (M * D - N) = D).
Proof.
  intros HD H.
  destruct (Z.eq_dec k M) as [->|Hne]; [split; [lia|congruence]|].
  assert (D <= Z.abs (k * D - M * D)).
  { replace (k * D - M * D) with ((k - M) * D) by ring.
    rewrite Z.abs_mul. rewrite (Z.abs_eq D) by lia.
    assert (1 <= Z.abs (k - M)) by lia. nia. }
  split; [lia|]. intros _ E. lia.
Qed.

Lemma pow2_le_scaled e n d k :
  0 <= k -> 0 <= e + k -> 0 < d ->
  (PyFloat.pow2_le e n d = true <-> d * 2 ^ (e + k) <= n * 2 ^ k).
Proof.
  intros Hk Hek Hd. unfold PyFloat.pow2_le.
  destruct (Z.leb_spec 0 e) as [He|He].
  - rewrite Z.leb_le, Z.pow_add_r by lia.
    assert (0 < 2 ^ k) by (apply Z.pow_pos_nonneg; lia). nia.
  - rewrite Z.leb_le.
    replace k with (- e + (e + k)) at 2 by lia.
    rewrite (Z.pow_add_r 2 (- e)) by lia.
    assert (0 < 2 ^ (e + k)) by (apply Z.pow_pos_nonneg; lia). nia.
Qed.

Lemma pow2_le_mono e e' n d :
  0 < d -> 0 <= n -> e' <= e ->
  PyFloat.pow2_le e n d = true -> PyFloat.pow2_le e' n d = true.
Proof.
  intros Hd Hn Hle H.
  set (k := Z.max 0 (- e')).
  rewrite (pow2_le_scaled e n d k) in H by lia.
  rewrite (pow2_le_scaled e' n d k) by lia.
  assert (2 ^ (e' + k) <= 2 ^ (e + k)) by (apply Z.pow_le_mono_r; lia).
  nia.
Qed.

Lemma binade_spec n d :
  0 < n -> 0 < d ->
  PyFloat.pow2_le (PyFloat.binade n d) n d = true /\
  PyFloat.pow2_le (PyFloat.binade n d + 1) n d = false.
Proof.
  intros Hn Hd.
  pose proof (Z.log2_spec n Hn) as [A1 A2].
  pose proof (Z.log2_spec d Hd) as [B1 B2].
  pose proof (Z.log2_nonneg n) as A0. pose proof (Z.log2_nonneg d) as B0.
  set (a := Z.log2 n) in *. set (b := Z.log2 d) in *.
  assert (Hup : PyFloat.pow2_le (a - b + 1) n d = false).
  { apply not_true_is_false. rewrite (pow2_le_scaled _ n d b) by lia.
    replace (a - b + 1 + b) with (Z.succ a) by lia.
    assert (0 < 2 ^ b) by (apply Z.pow_pos_nonneg; lia). nia. }
  assert (Hlo : PyFloat.pow2_le (a - b - 1) n d = true).
  { rewrite (pow2_le_scaled _ n d (Z.succ b)) by lia.
    replace (a - b - 1 + Z.succ b) with a by lia.
    assert (0 < 2 ^ a) by (apply Z.pow_pos_nonneg; lia). nia. }
  unfold PyFloat.binade. fold a b.
  destruct (PyFloat.pow2_le (a - b) n d) eqn:E.
  - split; [exact E|exact Hup].
  - split; [exact Hlo|]. replace (a - b - 1 + 1) with (a - b) by lia. exact E.
Qed.

Lemma scale_abs A B d D :
  0 < d -> 0 < D -> B * D = A * d -> Z.abs B * D = Z.abs A * d.
Proof.
  intros Hd HD E.
  assert (H1 : Z.abs (B * D) = Z.abs B * D)
    by (rewrite Z.abs_mul, (Z.abs_eq D); lia).
  assert (H2 : Z.abs (A * d) = Z.abs A * d)
    by (rewrite Z.abs_mul, (Z.abs_eq d); lia).
  rewrite <- H1, <- H2, E. reflexivity.
Qed.

(** Distances on the grid of step [Tq], seen from the scaled problem. *)
Lemma grid_distance S n d N D T Tq :
  0 < d -> 0 < D -> N * Tq * d = n * T * D ->
  Z.abs (S * d - n * T) * D = Z.abs (S * D - N * Tq) * d.
Proof.
  intros Hd HD Hid. apply scale_abs; auto.
  replace ((S * d - n * T) * D) with (S * d * D - n * T * D) by ring.
  rewrite <- Hid. ring.
Qed.

Lemma abs_le_cancel a b c : 0 < c -> a * c <= b * c -> a <= b.
Proof. intros Hc H. nia. Qed.

Lemma abs_lt_cancel a b c : 0 < c -> a * c < b * c -> a < b.
Proof. intros Hc H. nia. Qed.

Lemma core_on_grid n d N D M k T Tq :
  0 < d -> 0 < D -> 0 < Tq ->
  N * Tq * d = n * T * D ->
  2 * Z.abs (M * D - N) <= D ->
  Z.abs (M * Tq * d - n * T) <= Z.abs (k * Tq * d - n * T) /\
  (k <> M ->
   Z.abs (k * Tq * d - n * T) = Z.abs (M * Tq * d - n * T) ->
   2 * Z.abs (M * D - N) = D).
Proof.
  intros Hd HD HTq Hid Hnear.
  pose proof (grid_distance (M * Tq) n d N D T Tq Hd HD Hid) as Bv.
  pose proof (grid_distance (k * Tq) n d N D T Tq Hd HD Hid) as Bw.
  replace (M * Tq * D - N * Tq) with ((M * D - N) * Tq) in Bv by ring.
  replace (k * Tq * D - N * Tq) with ((k * D - N) * Tq) in Bw by ring.
  rewrite Z.abs_mul, (Z.abs_eq Tq) in Bv, Bw by lia.
  destruct (near_beats_all M N D k HD Hnear) as [Hle Htie].
  set (bv := Z.abs (M * Tq * d - n * T)) in *.
  set (bw := Z.abs (k * Tq * d - n * T)) in *.
  set (av := Z.abs (M * D - N)) in *.
  set (aw := Z.abs (k * D - N)) in *.
  clearbody bv bw av aw.
  split.
  - apply (abs_le_cancel _ _ D HD). rewrite Bv, Bw.
    apply Z.mul_le_mono_nonneg_r; [lia|].
    apply Z.mul_le_mono_nonneg_r; lia.
  - intros Hne Heq. apply Htie; [exact Hne|].
    rewrite Heq, Bv in Bw.
    assert (E : av * (Tq * d) = aw * (Tq * d)) by lia.
    apply Z.mul_cancel_r in E; [lia|]. nia.
Qed.

Lemma core_below n d N D M S T Tq p :
  0 < d -> 0 < D -> 0 < Tq ->
  N * Tq * d = n * T * D ->
  2 * Z.abs (M * D - N) <= D ->
  p * D <= N -> S < p * Tq ->
  Z.abs (M * Tq * d - n * T) < Z.abs (S * d - n * T).
Proof.
  intros Hd HD HTq Hid Hnear Hlow HS.
  pose proof (grid_distance (M * Tq) n d N D T Tq Hd HD Hid) as Bv.
  pose proof (grid_distance S n d N D T Tq Hd HD Hid) as Bw.
  replace (M * Tq * D - N * Tq) with ((M * D - N) * Tq) in Bv by ring.
  rewrite Z.abs_mul, (Z.abs_eq Tq) in Bv by lia.
  destruct (near_beats_all M N D p HD Hnear) as [Hle _].
  rewrite (Z.abs_neq (p * D - N)) in Hle by lia.
  assert (H1 : S * D < p * Tq * D) by (apply Z.mul_lt_mono_pos_r; lia).
  assert (H2 : p * D * Tq <= N * Tq) by (apply Z.mul_le_mono_nonneg_r; lia).
  rewrite (Z.abs_neq (S * D - N * Tq)) in Bw by lia.
  assert (H3 : Z.abs (M * D - N) * Tq <= (N - p * D) * Tq)
    by (apply Z.mul_le_mono_nonneg_r; lia).
  assert (H4 : Z.abs (M * D - N) * Tq < - (S * D - N * Tq)) by lia.
  apply (abs_lt_cancel _ _ D HD). rewrite Bv, Bw.
  apply Z.mul_lt_mono_pos_r; lia.
Qed.

(** The rounding step of [round64] works on N/D = (n/d) / 2^q. *)
Lemma scaled_facts n d :
  0 < n -> 0 < d ->
  let q := Z.max (PyFloat.binade n d - 52) (-1074) in
  exists N D,
    (if 0 <=? q then PyFloat.round_half_even n (d * 2 ^ q)
     else PyFloat.round_half_even (n * 2 ^ (- q)) d)
      = PyFloat.round_half_even N D /\
    0 < D /\ 0 <= N /\
    N * 2 ^ (q + 1074) * d = n * 2 ^ 1074 * D /\
    N < 2 ^ 53 * D /\
    (-1074 < q -> 2 ^ 52 * D <= N).
Proof.
  intros Hn Hd q.
  destruct (binade_spec n d Hn Hd) as [Hlo Hup].
  assert (Hq : -1074 <= q) by (subst q; lia).
  assert (Hup' : PyFloat.pow2_le (q + 53) n d = false).
  { apply not_true_is_false. intros H.
    rewrite (pow2_le_mono (q + 53) (PyFloat.binade n d + 1) n d) in Hup;
      [discriminate|lia|lia|subst q; lia|exact H]. }
  assert (Hlo' : -1074 < q -> PyFloat.pow2_le (q + 52) n d = true).
  { intros H. replace (q + 52) with (PyFloat.binade n d) by (subst q; lia).
    exact Hlo. }
  clearbody q. clear Hlo Hup.
  destruct (Z.leb_spec 0 q) as [H0|H0].
  - exists n, (d * 2 ^ q).
    assert (Hp : 0 < 2 ^ q) by (apply Z.pow_pos_nonneg; lia).
    split; [reflexivity|]. split; [nia|]. split; [lia|]. split.
    { rewrite Z.pow_add_r by lia. ring. }
    split.
    + apply Z.nle_gt. intros H. apply not_true_iff_false in Hup'. apply Hup'.
      apply (pow2_le_scaled (q + 53) n d 0); [lia|lia|lia|].
      rewrite Z.add_0_r, Z.pow_0_r, Z.mul_1_r, Z.pow_add_r by lia.
      lia.
    + intros H. specialize (Hlo' H).
      apply (pow2_le_scaled (q + 52) n d 0) in Hlo'; [|lia|lia|lia].
      rewrite Z.add_0_r, Z.pow_0_r, Z.mul_1_r, Z.pow_add_r in Hlo' by lia.
      lia.
  - exists (n * 2 ^ (- q)), d.
    assert (Hp : 0 < 2 ^ (- q)) by (apply Z.pow_pos_nonneg; lia).
    split; [reflexivity|]. split; [lia|]. split; [nia|]. split.
    { replace 1074 with (- q + (q + 1074)) at 2 by lia.
      rewrite (Z.pow_add_r 2 (- q)) by lia. ring. }
    split.
    + apply Z.nle_gt. intros H. apply not_true_iff_false in Hup'. apply Hup'.
      apply (pow2_le_scaled (q + 53) n d (- q)); [lia|lia|lia|].
      replace (q + 53 + - q) with 53 by lia. lia.
    + intros H. specialize (Hlo' H).
      apply (pow2_le_scaled (q + 52) n d (- q)) in Hlo'; [|lia|lia|lia].
      replace (q + 52 + - q) with 52 in Hlo' by lia. lia.
Qed.

Lemma signed_distance s s2 x y d :
  0 <= x -> 0 < d -> 0 <= y ->
  Z.abs (signed s x * d - signed s y) = Z.abs (x * d - y) /\
  Z.abs (x * d - y) <= Z.abs (signed s2 x * d - signed s y).
Proof.
  intros Hx Hd Hy. assert (0 <= x * d) by nia.
  unfold signed. destruct s, s2; lia.
Qed.

Lemma units_nonneg m e : 0 <= m -> 0 <= units m e.
Proof.
  intros H. unfold units. apply Z.mul_nonneg_nonneg; [lia|].
  apply Z.pow_nonneg. lia.
Qed.

(** The value [M * 2^q] that the rounding step picks is nearest to n/d
    among the binary64 values, and a tie can only be a tie of the
    rounding step. *)
Lemma nearest_parts n d N D q M :
  0 <= n -> 0 < d -> 0 < D -> -1074 <= q ->
  N * 2 ^ (q + 1074) * d = n * 2 ^ 1074 * D ->
  (-1074 < q -> 2 ^ 52 * D <= N) ->
  2 * Z.abs (M * D - N) <= D ->
  forall m2 e2, finite64 m2 e2 ->
    Z.abs (M * 2 ^ (q + 1074) * d - n * 2 ^ 1074) <=
    Z.abs (units m2 e2 * d - n * 2 ^ 1074) /\
    (units m2 e2 <> M * 2 ^ (q + 1074) ->
     Z.abs (units m2 e2 * d - n * 2 ^ 1074) =
     Z.abs (M * 2 ^ (q + 1074) * d - n * 2 ^ 1074) ->
     2 * Z.abs (M * D - N) = D).
Proof.
  intros Hn Hd HD Hq Hid Hlow Hnear m2 e2 [[Hm0 Hm1] [He0 He1]].
  assert (HTq : 0 < 2 ^ (q + 1074)) by (apply Z.pow_pos_nonneg; lia).
  assert (HU : 0 < 2 ^ (e2 + 1074)) by (apply Z.pow_pos_nonneg; lia).
  unfold units.
  destruct (Z.le_gt_cases q e2) as [Hge|Hlt].
  - assert (EU : 2 ^ (e2 + 1074) = 2 ^ (e2 - q) * 2 ^ (q + 1074)).
    { rewrite <- Z.pow_add_r by lia. f_equal. lia. }
    rewrite EU, Z.mul_assoc.
    destruct (core_on_grid n d N D M (m2 * 2 ^ (e2 - q)) (2 ^ 1074)
                (2 ^ (q + 1074)) Hd HD HTq Hid Hnear) as [Hle Htie].
    split; [exact Hle|]. intros Hne Heq. apply Htie; [|exact Heq].
    intros E. apply Hne. now rewrite E.
  - specialize (Hlow ltac:(lia)).
    assert (ETq : 2 ^ (q + 1074) = 2 ^ (q - e2) * 2 ^ (e2 + 1074)).
    { rewrite <- Z.pow_add_r by lia. f_equal. lia. }
    assert (H2 : 2 ^ 1 <= 2 ^ (q - e2)) by (apply Z.pow_le_mono_r; lia).
    change (2 ^ 1) with 2 in H2.
    assert (HS : m2 * 2 ^ (e2 + 1074) < 2 ^ 52 * 2 ^ (q + 1074)).
    { rewrite ETq.
      set (U := 2 ^ (e2 + 1074)) in *. set (c := 2 ^ (q - e2)) in *.
      clearbody U c.
      assert (m2 * U <= (2 ^ 53 - 1) * U)
        by (apply Z.mul_le_mono_nonneg_r; lia).
      assert (2 * U <= c * U) by (apply Z.mul_le_mono_nonneg_r; lia).
      change (2 ^ 53) with (2 ^ 52 * 2) in *. lia. }
    pose proof (core_below n d N D M (m2 * 2 ^ (e2 + 1074)) (2 ^ 1074)
                  (2 ^ (q + 1074)) (2 ^ 52) Hd HD HTq Hid Hnear Hlow HS) as Hs.
    split; [lia|]. intros _ Heq. lia.
Qed.

(** Comparing n/d with a bound, seen from the scaled problem. *)
Lemma bound_back n d N D T Tq b W :
  0 < d -> 0 < D -> 0 < T ->
  N * Tq * d = n * T * D -> W = b * T ->
  (W * D <= N * Tq -> b * d <= n) /\
  (N * Tq < W * D -> n < b * d).
Proof.
  intros Hd HD HT Hid ->.
  assert (HTD : 0 < T * D) by nia.
  assert (E1 : b * d * (T * D) = b * T * D * d) by ring.
  assert (E2 : n * (T * D) = N * Tq * d) by (rewrite Hid; ring).
  split; intros H.
  - apply (abs_le_cancel _ _ (T * D) HTD). rewrite E1, E2.
    apply Z.mul_le_mono_nonneg_r; lia.
  - apply (abs_lt_cancel _ _ (T * D) HTD). rewrite E1, E2.
    apply Z.mul_lt_mono_pos_r; lia.
Qed.

Lemma pow_window q :
  -1074 <= q ->
  let W := 2 ^ 970 * 2 ^ 1074 in
  0 < W /\
  (q <= 970 -> 2 ^ (q + 1074) <= W) /\
  (q <= 971 -> 2 ^ (q + 1074) <= 2 * W) /\
  (971 <= q -> 2 * W <= 2 ^ (q + 1074)) /\
  (972 <= q -> 4 * W <= 2 ^ (q + 1074)).
Proof.
  intros Hq W.
  assert (EW : W = 2 ^ (970 + 1074)) by (subst W; now rewrite Z.pow_add_r).
  assert (E2 : 2 * W = 2 ^ (971 + 1074)).
  { rewrite EW. replace (971 + 1074) with (Z.succ (970 + 1074)) by lia.
    now rewrite Z.pow_succ_r. }
  assert (E4 : 4 * W = 2 ^ (972 + 1074)).
  { replace (4 * W) with (2 * (2 * W)) by ring. rewrite E2.
    replace (972 + 1074) with (Z.succ (971 + 1074)) by lia.
    now rewrite Z.pow_succ_r. }
  rewrite E2, E4, EW.
  split; [apply Z.pow_pos_nonneg; lia|].
  repeat split; intros H; apply Z.pow_le_mono_r; lia.
Qed.

Lemma picked_le M N D :
  0 < D -> N < 2 ^ 53 * D -> 2 * Z.abs (M * D - N) <= D -> M <= 2 ^ 53.
Proof.
  intros HD HN Hnear.
  destruct (Z.le_gt_cases M (2 ^ 53)) as [H|H]; [exact H|].
  assert ((2 ^ 53 + 1) * D <= M * D) by (apply Z.mul_le_mono_nonneg_r; lia).
  lia.
Qed.

Lemma over_A M N D Tq W :
  0 < D -> 0 < W -> 0 <= N -> M = 2 ^ 53 ->
  2 * Z.abs (M * D - N) <= D -> 2 * W <= Tq ->
  (2 ^ 54 - 1) * W * D <= N * Tq.
Proof.
  intros HD HW HN -> Hnear HT.
  assert (H1 : (2 ^ 54 - 1) * D <= 2 * N) by lia.
  assert (H2 : N * (2 * W) <= N * Tq) by (apply Z.mul_le_mono_nonneg_l; lia).
  assert (H3 : (2 ^ 54 - 1) * D * W <= 2 * N * W)
    by (apply Z.mul_le_mono_nonneg_r; lia).
  lia.
Qed.

Lemma under_A M N D Tq W :
  0 < D -> 0 < W -> 0 <= N -> M = 2 ^ 53 ->
  2 * Z.abs (M * D - N) <= D -> Tq <= W ->
  N * Tq < (2 ^ 54 - 1) * W * D.
Proof.
  intros HD HW HN -> Hnear HT.
  assert (H1 : 2 * N <= (2 ^ 54 + 1) * D) by lia.
  assert (H2 : N * Tq <= N * W) by (apply Z.mul_le_mono_nonneg_l; lia).
  assert (H3 : 2 * N * W <= (2 ^ 54 + 1) * D * W)
    by (apply Z.mul_le_mono_nonneg_r; lia).
  assert (H4 : 0 < D * W) by (apply Z.mul_pos_pos; lia).
  lia.
Qed.

Lemma over_B N D Tq W :
  0 < D -> 0 < W -> 2 ^ 52 * D <= N -> 4 * W <= Tq ->
  (2 ^ 54 - 1) * W * D <= N * Tq.
Proof.
  intros HD HW HN HT.
  assert (H1 : N * (4 * W) <= N * Tq) by (apply Z.mul_le_mono_nonneg_l; lia).
  assert (H2 : 2 ^ 52 * D * (4 * W) <= N * (4 * W))
    by (apply Z.mul_le_mono_nonneg_r; lia).
  assert (H4 : 0 < D * W) by (apply Z.mul_pos_pos; lia).
  change (2 ^ 54) with (2 ^ 52 * 4). lia.
Qed.

Lemma under_B N D Tq W :
  0 < D -> 0 < W -> 0 <= N -> 2 * N < (2 ^ 54 - 1) * D -> Tq <= 2 * W ->
  N * Tq < (2 ^ 54 - 1) * W * D.
Proof.
  intros HD HW HN H2N HT.
  assert (H1 : N * Tq <= N * (2 * W)) by (apply Z.mul_le_mono_nonneg_l; lia).
  assert (H2 : 2 * N * W < (2 ^ 54 - 1) * D * W)
    by (apply Z.mul_lt_mono_pos_r; lia).
  lia.
Qed.

Lemma below_threshold M N D :
  0 < D -> M <= 2 ^ 53 -> M <> 2 ^ 53 ->
  2 * Z.abs (M * D - N) <= D ->
  (2 * Z.abs (M * D - N) = D -> Z.even M = true) ->
  2 * N < (2 ^ 54 - 1) * D.
Proof.
  intros HD HM HMne Hnear Heven.
  assert (H1 : M * D <= (2 ^ 53 - 1) * D)
    by (apply Z.mul_le_mono_nonneg_r; lia).
  destruct (Z.eq_dec (2 * N) ((2 ^ 54 - 1) * D)) as [E|E]; [|lia].
  assert (EM : M * D = (2 ^ 53 - 1) * D) by lia.
  apply Z.mul_cancel_r in EM; [|lia]. subst M.
  assert (Htie : 2 * Z.abs ((2 ^ 53 - 1) * D - N) = D) by lia.
  apply Heven in Htie. discriminate Htie.
Qed.

(** A representation [m, e] of the value [M * 2^q] the rounding step
    picked is nearest to n/d. *)
Lemma nearest64_intro s n d N D q M m e :
  0 <= n -> 0 < d -> 0 < D -> -1074 <= q -> 0 <= M ->
  N * 2 ^ (q + 1074) * d = n * 2 ^ 1074 * D ->
  (-1074 < q -> 2 ^ 52 * D <= N) ->
  2 * Z.abs (M * D - N) <= D ->
  units m e = M * 2 ^ (q + 1074) -> finite64 m e ->
  (2 * Z.abs (M * D - N) = D -> Z.even m = true) ->
  n < (2 ^ 54 - 1) * 2 ^ 970 * d ->
  nearest64 (Float s m e) s n d.
Proof.
  intros Hn Hd HD Hq HM Hid F2 Hnear Eu Hfin Hev Hthr.
  pose proof (nearest_parts n d N D q M Hn Hd HD Hq Hid F2 Hnear) as Hparts.
  assert (HT : 0 <= 2 ^ 1074) by (apply Z.pow_nonneg; lia).
  assert (HnT : 0 <= n * 2 ^ 1074) by (apply Z.mul_nonneg_nonneg; lia).
  assert (HTq : 0 <= 2 ^ (q + 1074)) by (apply Z.pow_nonneg; lia).
  assert (HMT : 0 <= M * 2 ^ (q + 1074)) by (apply Z.mul_nonneg_nonneg; lia).
  unfold nearest64. split; [reflexivity|]. split; [exact Hfin|].
  rewrite Eu. split; [|split; [|exact Hthr]].
  - intros s2 m2 e2 H2.
    destruct (Hparts m2 e2 H2) as [Hle _].
    destruct (signed_distance s s2 (M * 2 ^ (q + 1074)) (n * 2 ^ 1074) d
                HMT Hd HnT) as [E1 _].
    destruct (signed_distance s s2 (units m2 e2) (n * 2 ^ 1074) d
                (units_nonneg m2 e2 (proj1 (proj1 H2))) Hd HnT) as [_ E2].
    assert (Es : signed s n * 2 ^ 1074 = signed s (n * 2 ^ 1074))
      by (unfold signed; destruct s; ring).
    rewrite Es, E1. eapply Z.le_trans; [exact Hle|exact E2].
  - intros m2 e2 H2 Hne Heq. apply Hev.
    destruct (Hparts m2 e2 H2) as [_ Htie]. now apply Htie.
Qed.

Lemma round64_body s n d :
  0 < n -> 0 < d ->
  nearest64
    (let e := PyFloat.binade n d in
     let q := Z.max (e - 52) (-1074) in
     let m := if 0 <=? q then PyFloat.round_half_even n (d * 2 ^ q)
              else PyFloat.round_half_even (n * 2 ^ (- q)) d in
     let '(m, q) := if m =? 2 ^ 53 then (2 ^ 52, q + 1) else (m, q) in
     if 971 <? q then Infinity s
     else if m =? 0 then Float s 0 0
     else Float s m q) s n d.
Proof.
  intros Hn Hd. cbv zeta.
  destruct (scaled_facts n d Hn Hd) as (N & D & EM & HD & HN & Hid & F1 & F2).
  assert (Hq : -1074 <= Z.max (PyFloat.binade n d - 52) (-1074)) by lia.
  set (q := Z.max (PyFloat.binade n d - 52) (-1074)) in *. clearbody q.
  rewrite EM. clear EM.
  destruct (round_half_even_near N D HN HD) as (HM0 & Hnear & Heven).
  set (M := PyFloat.round_half_even N D) in *. clearbody M.
  pose proof (picked_le M N D HD F1 Hnear) as HMle.
  destruct (pow_window q Hq) as (HW & W1 & W2 & W3 & W4).
  destruct (bound_back n d N D (2 ^ 1074) (2 ^ (q + 1074))
              ((2 ^ 54 - 1) * 2 ^ 970)
              ((2 ^ 54 - 1) * (2 ^ 970 * 2 ^ 1074)) Hd HD
              ltac:(apply Z.pow_pos_nonneg; lia) Hid
              (Z.mul_assoc _ _ _))
    as [Bover Bfin].
  pose proof (fun m e => nearest64_intro s n d N D q M m e
                ltac:(lia) Hd HD Hq HM0 Hid F2 Hnear) as Hrep.
  destruct (Z.eqb_spec M (2 ^ 53)) as [EM|NM].
  - destruct (Z.ltb_spec 971 (q + 1)) as [Hov|Hfin].
    + unfold nearest64. split; [reflexivity|]. apply Bover.
      apply (over_A M); auto. apply W3. lia.
    + change (2 ^ 52 =? 0) with false. cbv iota.
      apply Hrep.
      * unfold units.
        replace (q + 1 + 1074) with (Z.succ (q + 1074)) by lia.
        rewrite Z.pow_succ_r by lia. rewrite EM.
        change (2 ^ 53) with (2 ^ 52 * 2). ring.
      * split; [split; [|reflexivity]; discriminate|lia].
      * reflexivity.
      * apply Bfin. apply (under_A M); auto. apply W1. lia.
  - destruct (Z.ltb_spec 971 q) as [Hov|Hfin].
    + unfold nearest64. split; [reflexivity|]. apply Bover.
      apply over_B; auto; [apply F2|apply W4]; lia.
    + assert (Hthr : n < (2 ^ 54 - 1) * 2 ^ 970 * d).
      { apply Bfin.
        exact (under_B N D _ _ HD HW HN
                 (below_threshold M N D HD HMle NM Hnear Heven) (W2 Hfin)). }
      destruct (Z.eqb_spec M 0) as [E0|N0].
      * apply Hrep; [| |reflexivity|exact Hthr].
        -- unfold units. rewrite E0. reflexivity.
        -- split; [split; [reflexivity|reflexivity]|split; discriminate].
      * apply Hrep; [reflexivity| |exact Heven|exact Hthr].
        split; lia.
Qed.

Lemma nearest64_zero s d : 0 < d -> nearest64 (Float s 0 0) s 0 d.
Proof.
  intros Hd. unfold nearest64, units.
  split; [reflexivity|].
  split; [split; [split; reflexivity|split; discriminate]|].
  assert (Es : signed s 0 = 0) by (destruct s; reflexivity).
  rewrite !Z.mul_0_l, Es, !Z.mul_0_l, Z.sub_0_r.
  split; [|split].
  - intros. apply Z.abs_nonneg.
  - intros. reflexivity.
  - apply Z.mul_pos_pos; [|exact Hd].
    apply Z.mul_pos_pos; [reflexivity|apply Z.pow_pos_nonneg; lia].
Qed.

Lemma abs_scale a g : 0 < g -> Z.abs (a * g) = Z.abs a * g.
Proof. intros Hg. rewrite Z.abs_mul, (Z.abs_eq g); lia. Qed.

Lemma nearest64_scale v s n d g :
  0 < g -> nearest64 v s n d -> nearest64 v s (n * g) (d * g).
Proof.
  intros Hg. unfold nearest64. destruct v as [s' m e|s'].
  - intros (Hs & Hfin & Hle & Htie & Hthr).
    assert (Esg : signed s (n * g) = signed s n * g)
      by (unfold signed; destruct s; ring).
    assert (E : forall x,
      x * (d * g) - signed s (n * g) * 2 ^ 1074 =
      (x * d - signed s n * 2 ^ 1074) * g) by (intros; rewrite Esg; ring).
    assert (E' : forall x,
      x * (d * g) - n * g * 2 ^ 1074 = (x * d - n * 2 ^ 1074) * g)
      by (intros; ring).
    split; [exact Hs|]. split; [exact Hfin|]. split; [|split].
    + intros s2 m2 e2 H2. rewrite !E, !abs_scale by exact Hg.
      apply Z.mul_le_mono_nonneg_r; [lia|]. now apply Hle.
    + intros m2 e2 H2 Hne Heq. apply (Htie m2 e2 H2 Hne).
      rewrite !E', !abs_scale in Heq by exact Hg.
      apply Z.mul_cancel_r in Heq; [exact Heq|lia].
    + replace ((2 ^ 54 - 1) * 2 ^ 970 * (d * g))
        with ((2 ^ 54 - 1) * 2 ^ 970 * d * g) by apply eq_sym, Z.mul_assoc.
      apply Z.mul_lt_mono_pos_r; assumption.
  - intros (Hs & Hthr). split; [exact Hs|].
    replace ((2 ^ 54 - 1) * 2 ^ 970 * (d * g))
      with ((2 ^ 54 - 1) * 2 ^ 970 * d * g) by apply eq_sym, Z.mul_assoc.
    apply Z.mul_le_mono_nonneg_r; [lia|assumption].
Qed.

(** [round64] is correctly rounded: what it returns for n/d is the
    binary64 value nearest to n/d, the even one on a tie, and infinity
    from 2^1024 - 2^970 on. *)
Lemma round64_nearest s n d :
  0 <= n -> 0 < d -> nearest64 (PyFloat.round64 s n d) s n d.
Proof.
  intros Hn Hd.
  pose proof (Z.gcd_nonneg n d) as Hg0.
  assert (Hg : 0 < Z.gcd n d).
  { destruct (Z.eq_dec (Z.gcd n d) 0) as [E|E]; [|lia].
    apply Z.gcd_eq_0_r in E. lia. }
  destruct (Z.gcd_divide_l n d) as [n' En].
  destruct (Z.gcd_divide_r n d) as [d' Ed].
  assert (En' : n / Z.gcd n d = n') by (rewrite En at 1; now apply Z.div_mul, Z.neq_sym, Z.lt_neq).
  assert (Ed' : d / Z.gcd n d = d') by (rewrite Ed at 1; now apply Z.div_mul, Z.neq_sym, Z.lt_neq).
  unfold PyFloat.round64. cbv zeta. rewrite En', Ed'.
  set (g := Z.gcd n d) in *. clearbody g.
  assert (Hn' : 0 <= n') by nia. assert (Hd' : 0 < d') by nia.
  match goal with
  | |- nearest64 ?v _ _ _ => cut (nearest64 v s (n' * g) (d' * g))
  end; [intros H; rewrite <- En, <- Ed in H; exact H|].
  apply nearest64_scale; [exact Hg|].
  destruct (Z.eqb_spec n' 0) as [E0|N0].
  - rewrite E0. now apply nearest64_zero.
  - apply round64_body; lia.
Qed.

(** Unary minus commutes with the conversion. *)
Lemma round64_neg n d :
  PyFloat.neg (PyFloat.round64 false n d) = PyFloat.round64 true n d.
Proof.
  unfold PyFloat.round64.
  repeat match goal with
         | |- context [if ?b then _ else _] => destruct b
         end; reflexivity.
Qed.

(** ** [strip] trims *)

Lemma lstrip_split (s : text) :
  exists l,
    s = l ++ PyStr.lstrip s /\ forallb PyStr.is_space l = true /\
    match PyStr.lstrip s with
    | [] => True
    | c :: _ => PyStr.is_space c = false
    end.
Proof.
  induction s as [|c s IH]; simpl.
  - exists []. auto.
  - destruct (PyStr.is_space c) eqn:E.
    + destruct IH as (l & E1 & E2 & E3). exists (c :: l). simpl.
      rewrite E, E2. repeat split; [now f_equal|exact E3].
    + exists []. simpl. auto.
Qed.

Lemma last_rev_cons (x : text) c d : last (rev x ++ [c]) d = c.
Proof. apply last_last. Qed.

Lemma strip_trimmed (s : text) : trimmed s (PyStr.strip s).
Proof.
  unfold PyStr.strip, PyStr.rstrip.
  destruct (lstrip_split s) as (l & El & Hl & Hhead).
  destruct (lstrip_split (rev (PyStr.lstrip s))) as (r & Er & Hr & Hlast).
  set (u := PyStr.lstrip s) in *.
  set (w := PyStr.lstrip (rev u)) in *.
  assert (Eu : u = rev w ++ rev r).
  { rewrite <- rev_app_distr, <- Er, rev_involutive. reflexivity. }
  exists l, (rev r). split; [now rewrite <- Eu|]. split; [exact Hl|].
  split; [now rewrite forallb_rev|].
  destruct w as [|c w']; [reflexivity|]. simpl rev.
  unfold no_space_ends.
  destruct (rev w' ++ [c]) as [|h tl] eqn:Ew.
  { destruct (rev w'); discriminate Ew. }
  assert (Hh : PyStr.is_space h = false).
  { simpl rev in Eu. rewrite Ew in Eu. rewrite Eu in Hhead. exact Hhead. }
  rewrite <- Ew, last_rev_cons, Hlast, Hh. reflexivity.
Qed.

(* ===================================================================== *)
(** * The claims *)
(* ===================================================================== *)



(** C2. When patterns 1-3 gathered a row, the fallback adds none and the
    result is made of their rows only, none of type Unknown, whatever the
    generic line pattern would match in the buffer; when they gathered
    none, the fallback adds the rows of the generic line pattern. With a
    deposit line and a line "05-01 coffee $3.00" in the buffer, the
    generic pattern would match the second line, and only the deposit is
    returned. *)
Theorem fallback_only_when_silent :
  (forall pages : list (option text),
  exists t1 t2 t3 t4 h rows,
    deposit_rows (full_text_of pages) = Ok t1 /\
    atm_rows (full_text_of pages) = Ok t2 /\
    check_rows (full_text_of pages) = Ok t3 /\
    fallback_rows (t1 ++ t2 ++ t3) (full_text_of pages) = Ok t4 /\
    extract_statement_data pages = Ok (h, rows) /\
    Permutation rows ((t1 ++ t2 ++ t3) ++ t4) /\
    (t1 ++ t2 ++ t3 <> [] ->
       t4 = [] /\ Permutation rows (t1 ++ t2 ++ t3) /\ Forall typed rows) /\
    (t1 ++ t2 ++ t3 = [] ->
       generic_rows (full_text_of pages) = Ok t4 /\ Permutation rows t4)) /\
  (exists g h row,
     let pages := [page ["Deposit 05-20 $1.00"; "05-01 coffee $3.00"]%string] in
     generic_rows (full_text_of pages) = Ok [g] /\
     Date g = str "05-01" /\
     extract_statement_data pages = Ok (h, [row]) /\
     Date row = str "05-20" /\ Type_ row = Credit).
Proof.
  split.
  2:{ do 3 eexists. cbv zeta.
      split; [vm_compute; reflexivity|]. split; [reflexivity|].
      split; [vm_compute; reflexivity|]. split; reflexivity. }
  intros pages.
  destruct (extract_text_total (full_text_of pages))
    as (t1 & t2 & t3 & t4 & H1 & H2 & H3 & H4 & H).
  exists t1, t2, t3, t4, (extract_header (full_text_of pages)),
    (to_frame ((t1 ++ t2 ++ t3) ++ t4)).
  split; [exact H1|]. split; [exact H2|]. split; [exact H3|].
  split; [exact H4|]. split; [exact H|].
  split; [apply to_frame_perm|]. split.
  - intros Hne.
    assert (t4 = []) as ->.
    { unfold fallback_rows in H4. destruct (t1 ++ t2 ++ t3); [congruence|].
      now inversion H4. }
    rewrite app_nil_r. split; [reflexivity|].
    split; [apply to_frame_perm|].
    apply (Permutation_Forall (Permutation_sym (to_frame_perm _))).
    rewrite !Forall_app.
    split; [|split]; eauto using deposit_rows_typed, atm_rows_typed, check_rows_typed.
  - intros Hnil. rewrite Hnil in *. split; [exact H4|]. apply to_frame_perm.
Qed.

(** C3, as the code has it. For every whole amount a >= 0, parsing "$",
    the digit-grouped rendering of a and ".00" returns the binary64 value
    nearest to a (ties to even, infinity from 2^1024 - 2^970 on), and
    parsing a in parentheses returns the negation of that float, which is
    the binary64 value nearest to -a. The first equals a, and the second
    -a, exactly when a is a binary64 value, which every a up to 2^53 is. *)
Theorem parse_currency_round_trip (a : Z) (Ha : 0 <= a) :
  parse_currency (str "$" ++ grouped a ++ str ".00")
    = Ok (PyFloat.round64 false a 1) /\
  parse_currency (str "(" ++ py_str a ++ str ")")
    = Ok (PyFloat.neg (PyFloat.round64 false a 1)) /\
  nearest64 (PyFloat.round64 false a 1) false a 1 /\
  nearest64 (PyFloat.neg (PyFloat.round64 false a 1)) true a 1 /\
  (PyFloat.eq_int (PyFloat.round64 false a 1) a <-> is_binary64 a) /\
  (PyFloat.eq_int (PyFloat.neg (PyFloat.round64 false a 1)) (- a)
     <-> is_binary64 a) /\
  (a <= 2 ^ 53 ->
   PyFloat.eq_int (PyFloat.round64 false a 1) a /\
   PyFloat.eq_int (PyFloat.neg (PyFloat.round64 false a 1)) (- a)).
Proof.
  assert (Hiff : PyFloat.eq_int (PyFloat.round64 false a 1) a <-> is_binary64 a).
  { split; [|now apply round64_exact_gen].
    destruct (Z.eq_dec a 0) as [->|Hne].
    - intros _. apply small_is_binary64. split; [lia|discriminate].
    - apply round64_exact_inv. lia. }
  split; [now apply parse_currency_dollars|].
  split; [now apply parse_currency_parens|].
  split; [apply round64_nearest; [exact Ha|reflexivity]|].
  split.
  { rewrite round64_neg. apply round64_nearest; [exact Ha|reflexivity]. }
  split; [exact Hiff|].
  split.
  - rewrite <- Hiff. split; [apply eq_int_neg_inv|apply eq_int_neg].
  - intros Hle.
    assert (Heq : PyFloat.eq_int (PyFloat.round64 false a 1) a).
    { apply Hiff, small_is_binary64. lia. }
    split; [exact Heq|now apply eq_int_neg].
Qed.

Lemma parse_currency_round_trip_witness :
  0 <= 1234567 /\
  parse_currency (str "$1,234,567.00") = Ok (PyFloat.round64 false 1234567 1) /\
  parse_currency (str "(1234567)")
    = Ok (PyFloat.neg (PyFloat.round64 false 1234567 1)) /\
  nearest64 (PyFloat.round64 false 1234567 1) false 1234567 1 /\
  nearest64 (PyFloat.neg (PyFloat.round64 false 1234567 1)) true 1234567 1 /\
  (PyFloat.eq_int (PyFloat.round64 false 1234567 1) 1234567
     <-> is_binary64 1234567) /\
  (PyFloat.eq_int (PyFloat.neg (PyFloat.round64 false 1234567 1)) (- 1234567)
     <-> is_binary64 1234567) /\
  (1234567 <= 2 ^ 53 ->
   PyFloat.eq_int (PyFloat.round64 false 1234567 1) 1234567 /\
   PyFloat.eq_int (PyFloat.neg (PyFloat.round64 false 1234567 1)) (- 1234567)).
Proof.
  assert (H : 0 <= 1234567) by (intro E; discriminate E).
  split; [exact H|].
  exact (parse_currency_round_trip 1234567 H).
Defined.

(** C3 fails as stated: 2^53 + 1 = 9007199254740993 is not a float, and
    its rendering parses to 2^53. *)
Lemma round_trip_fails_above_2_53 :
  exists f,
    parse_currency (str "$" ++ grouped (2 ^ 53 + 1) ++ str ".00") = Ok f /\
    ~ PyFloat.eq_int f (2 ^ 53 + 1).
Proof.
  exists (Float false (2 ^ 52) 1). split; [vm_compute; reflexivity|].
  vm_compute. discriminate.
Qed.

(** C4. [parse_currency] returns a float for every string and never
    raises. The empty string gives 0.0; "garbage" is cleaned to the empty
    string, on which the conversion raises ValueError, and gives 0.0;
    "1,234.56 CR" gives the float of 1234.56, which is
    5429652300748554 * 2^-42. *)
Theorem parse_currency_never_raises :
  (forall s, exists v, parse_currency s = Ok v) /\
  parse_currency (str "") = Ok (Float false 0 0) /\
  PyFloat.py_float (PyStr.sub_class non_numeric [] (str "garbage"))
    = Raise ValueError /\
  parse_currency (str "garbage") = Ok (Float false 0 0) /\
  parse_currency (str "1,234.56 CR") = Ok (PyFloat.round64 false 123456 100) /\
  PyFloat.round64 false 123456 100 = Float false 5429652300748554 (-42).
Proof.
  split; [exact parse_currency_total|].
  repeat split; vm_compute; reflexivity.
Qed.

(** C5. The rows come back in ascending order of the date string: every
    row's date is at most the date of every later row. Three deposits
    dated 05-20, 05-01, 05-15 in the buffer come back as 05-01, 05-15,
    05-20. *)
Theorem rows_sorted_by_date :
  (forall pages, exists h rows,
      extract_statement_data pages = Ok (h, rows) /\
      StronglySorted date_le rows) /\
  (exists acc h rows,
      let pages := [page ["Deposit A 05-20 $1.00"; "Deposit B 05-01 $2.00";
                          "Deposit C 05-15 $3.00"]%string] in
      gather (full_text_of pages) = Ok acc /\
      map Date acc = [str "05-20"; str "05-01"; str "05-15"] /\
      extract_statement_data pages = Ok (h, rows) /\
      map Date rows = [str "05-01"; str "05-15"; str "05-20"]).
Proof.
  split.
  - intros pages.
    destruct (extract_text_total (full_text_of pages))
      as (t1 & t2 & t3 & t4 & _ & _ & _ & _ & H).
    do 2 eexists. split; [exact H|]. apply to_frame_sorted.
  - do 3 eexists. cbv zeta. repeat split; vm_compute; reflexivity.
Qed.

(** C6. The period field is "<start> - <end>" exactly when the text holds
    a start-of-period phrase with its date and an end-of-period phrase
    with its date; when either is missing the field stays "Unknown". *)
Theorem statement_period_needs_both_phrases (pages : list (option text)) :
  exists h rows,
    extract_statement_data pages = Ok (h, rows) /\
    ((exists d1 d2,
         period_start_in (full_text_of pages) d1 /\
         period_end_in (full_text_of pages) d2 /\
         statement_period h = d1 ++ str " - " ++ d2)
     \/
     (((forall d, ~ period_start_in (full_text_of pages) d) \/
       (forall d, ~ period_end_in (full_text_of pages) d)) /\
      statement_period h = unknown)).
Proof.
  destruct (extract_text_total (full_text_of pages))
    as (t1 & t2 & t3 & t4 & _ & _ & _ & _ & H).
  do 2 eexists. split; [exact H|].
  unfold extract_header. cbn [statement_period].
  destruct (search period_re (full_text_of pages)) as [p|] eqn:Ep.
  - destruct (search end_period_re (full_text_of pages)) as [e|] eqn:Ee.
    + left. exists (group p 1), (group e 1).
      auto using period_found, end_period_found.
    + right. split; [|reflexivity]. right. intros d.
      now apply end_period_missing.
  - right. split; [|reflexivity]. left. intros d. now apply period_missing.
Qed.

(** C7. A buffer in which no header label occurs and no pattern
    recognises a transaction gives the header with four "Unknown" fields
    and the empty sequence, as a returned value. *)
Theorem unrecognised_buffer_gives_empty_result (pages : list (option text))
  (Hlabels : no_header_label (full_text_of pages))
  (Htx : no_transaction_text (full_text_of pages)) :
  extract_statement_data pages = Ok (unknown_header, []).
Proof.
  destruct Hlabels as (La & Lb & Le & Lp & Lq).
  destruct Htx as (Td & Ta & Tc & Tg).
  unfold extract_statement_data, extract_text.
  assert (Hh : extract_header (full_text_of pages) = unknown_header).
  { unfold extract_header.
    rewrite (search_label account_label [spaces0; Grp 1 digits] _ La
             : search account_re _ = None).
    rewrite (search_label begin_label
               [Rep true 0 not_dollar; Lit (str "$"); Grp 1 amount_re] _ Lb
             : search begin_re _ = None).
    rewrite (search_label end_label
               [Rep true 0 not_dollar; Lit (str "$"); Grp 1 amount_re] _ Le
             : search end_re _ = None).
    rewrite (search_label period_label [spaces; Grp 1 long_date_re] _ Lp
             : search period_re _ = None).
    reflexivity. }
  rewrite Hh.
  assert (Hg : gather (full_text_of pages) = Ok []).
  { assert (R1 : deposit_rows (full_text_of pages) = Ok []).
    { unfold deposit_rows. now rewrite Td. }
    assert (R2 : atm_rows (full_text_of pages) = Ok []).
    { unfold atm_rows.
      destruct (search atm_section_re (full_text_of pages)) as [sec|];
        [|reflexivity].
      now rewrite (Ta sec eq_refl). }
    assert (R3 : check_rows (full_text_of pages) = Ok []).
    { unfold check_rows.
      destruct (search checks_section_re (full_text_of pages)) as [sec|];
        [|reflexivity].
      now rewrite (Tc sec eq_refl). }
    assert (R4 : generic_rows (full_text_of pages) = Ok []).
    { unfold generic_rows. now rewrite Tg. }
    unfold gather. rewrite R1, R2, R3. cbn [bind app fallback_rows].
    rewrite R4. reflexivity. }
  rewrite Hg. reflexivity.
Qed.

Lemma unrecognised_buffer_witness :
  no_header_label (full_text_of quiet_pages) /\
  no_transaction_text (full_text_of quiet_pages) /\
  extract_statement_data quiet_pages = Ok (unknown_header, []).
Proof.
  assert (H1 : no_header_label (full_text_of quiet_pages)).
  { repeat split; vm_compute; reflexivity. }
  assert (H2 : no_transaction_text (full_text_of quiet_pages)).
  { split; [vm_compute; reflexivity|].
    split; [intros sec E; vm_compute in E; discriminate E|].
    split; [intros sec E; vm_compute in E; discriminate E|].
    vm_compute; reflexivity. }
  split; [exact H1|]. split; [exact H2|].
  exact (unrecognised_buffer_gives_empty_result quiet_pages H1 H2).
Defined.

(** C8. Every block the ATM pattern matches in the ATM section becomes a
    Debit row whose date is the second of the block's two dates, the one
    next to the amount, and whose description is "ATM Withdrawal - "
    followed by the location line trimmed: the line without the white
    space before its first and after its last character that is not white
    space. *)
Theorem atm_block_row (t : text) (sec m : mobj)
  (Hsec : search atm_section_re t = Some sec)
  (Hm : In m (finditer atm_pattern (group sec 1))) :
  atm_block_spec t sec m.
Proof.
  pose proof (finditer_sound _ _ _ Hm) as (pre & post & Hpre & D).
  pose proof (search_sound _ _ _ Hsec) as (before & after & Ht & Dsec).
  destruct (atm_rows_total t) as [rows Hrows].
  pose proof Hrows as Hmap. unfold atm_rows in Hmap. rewrite Hsec in Hmap.
  destruct m as [w g]. cbn [whole groups] in *.
  apply atm_pattern_shape in D.
  destruct D as (loc & mid & d1 & w1 & d2 & w2 & amt & Hw & Hloc & Hlne & Hmid &
                 Hd1 & Hw1 & Hd2 & Hw2 & Hamt & Hg).
  destruct (parse_currency_total amt) as [v Hv].
  assert (Hrow : atm_row {| whole := w; groups := g |} =
                 Ok {| Date := d2;
                       Description := str "ATM Withdrawal - " ++ PyStr.strip loc;
                       Type_ := Debit; Amount := v |}).
  { unfold atm_row. rewrite Hg. change (group _ 5) with amt. rewrite Hv.
    reflexivity. }
  exists loc, (PyStr.strip loc), mid, d1, w1, d2, w2, amt, v, rows.
  split; [assumption|]. split; [assumption|]. split; [assumption|].
  split; [apply strip_trimmed|].
  repeat (split; [assumption|]).
  split; [exact (mapM_In_fwd _ _ _ _ _ Hmap Hm Hrow)|].
  split; [eauto|].
  destruct sec as [ws gs]. cbn [whole groups] in *.
  apply atm_section_shape in Dsec.
  destruct Dsec as (line & sect & -> & Hafter & ->).
  change (group _ 1) with sect.
  exists before, line, after. split; [|exact Hafter].
  rewrite Ht, <- !app_assoc. reflexivity.
Qed.

Lemma atm_block_row_witness :
  search atm_section_re (full_text_of atm_pages) = Some atm_example_section /\
  In atm_example_block (finditer atm_pattern (group atm_example_section 1)) /\
  atm_block_spec (full_text_of atm_pages) atm_example_section atm_example_block /\
  atm_row atm_example_block =
    Ok {| Date := str "05-04";
          Description := str "ATM Withdrawal - 123 MAIN ST";
          Type_ := Debit; Amount := PyFloat.round64 false 6000 100 |}.
Proof.
  assert (H1 : search atm_section_re (full_text_of atm_pages)
               = Some atm_example_section).
  { vm_compute. reflexivity. }
  assert (H2 : In atm_example_block
                  (finditer atm_pattern (group atm_example_section 1))).
  { vm_compute. left. reflexivity. }
  split; [exact H1|]. split; [exact H2|].
  split; [exact (atm_block_row (full_text_of atm_pages) _ _ H1 H2)|].
  vm_compute. reflexivity.
Defined.

(** C9. No row carries a negative amount: the sign bit of every amount
    returned is clear, for rows of every type. *)
Theorem amounts_never_negative (pages : list (option text)) :
  exists h rows,
    extract_statement_data pages = Ok (h, rows) /\
    Forall (fun r => PyFloat.sign (Amount r) = false /\
                     PyFloat.nonneg (Amount r) = true) rows.
Proof.
  destruct (extract_text_total (full_text_of pages))
    as (t1 & t2 & t3 & t4 & H1 & H2 & H3 & H4 & H).
  do 2 eexists. split; [exact H|].
  assert (Hall : Forall amount_unsigned ((t1 ++ t2 ++ t3) ++ t4)).
  { rewrite !Forall_app.
    repeat split; eauto using deposit_rows_amount, atm_rows_amount,
      check_rows_amount, fallback_rows_amount. }
  apply (Permutation_Forall (Permutation_sym (to_frame_perm _))) in Hall.
  revert Hall. apply Forall_impl. intros r Hr. split; [exact Hr|].
  unfold amount_unsigned in Hr. destruct (Amount r); simpl in *; now rewrite Hr.
Qed.

(** C10. Dates are not checked against the calendar. A page with the line
    "99-99 mystery item $5.00", on which patterns 1-3 find nothing, yields
    a row dated "99-99": two digits, a dash, two digits, with month 99. *)
Theorem dates_are_not_validated :
  exists h row,
    let pages := [page ["99-99 mystery item $5.00"%string]] in
    deposit_rows (full_text_of pages) = Ok [] /\
    atm_rows (full_text_of pages) = Ok [] /\
    check_rows (full_text_of pages) = Ok [] /\
    extract_statement_data pages = Ok (h, [row]) /\
    Date row = str "99-99" /\
    Description row = str "mystery item" /\
    Type_ row = Unknown /\
    is_date (Date row) = true /\
    month_of (Date row) = 99.
Proof.
  do 2 eexists. cbv zeta.
  split; [vm_compute; reflexivity|].
  split; [vm_compute; reflexivity|].
  split; [vm_compute; reflexivity|].
  split; [vm_compute; reflexivity|].
  repeat split; reflexivity.
Qed.

(* ===================================================================== *)
(** * Further properties of [parse_currency] *)
(* ===================================================================== *)

Lemma sub_class_nil_filter cls (s : text) :
  PyStr.sub_class cls [] s = filter (fun c => negb (cls c)) s.
Proof.
  unfold PyStr.sub_class. induction s as [|a s IH]; simpl; [reflexivity|].
  destruct (cls a); simpl; now rewrite IH.
Qed.

Lemma filter_filter_sub (q q' : ascii -> bool) (s : text) :
  (forall c, q c = true -> q' c = true) ->
  filter q (filter q' s) = filter q s.
Proof.
  intros Hq. induction s as [|a s IH]; simpl; [reflexivity|].
  destruct (q' a) eqn:E'; simpl.
  - destruct (q a); now rewrite IH.
  - destruct (q a) eqn:E; [|exact IH]. apply Hq in E. congruence.
Qed.

Lemma filter_lstrip (q : ascii -> bool) (s : text) :
  (forall c, PyStr.is_space c = true -> q c = false) ->
  filter q (PyStr.lstrip s) = filter q s.
Proof.
  intros Hq. induction s as [|a s IH]; simpl; [reflexivity|].
  destruct (PyStr.is_space a) eqn:E; [|reflexivity].
  now rewrite (Hq a E).
Qed.

Lemma filter_strip (q : ascii -> bool) (s : text) :
  (forall c, PyStr.is_space c = true -> q c = false) ->
  filter q (PyStr.strip s) = filter q s.
Proof.
  intros Hq. unfold PyStr.strip, PyStr.rstrip.
  rewrite filter_rev, filter_lstrip, filter_rev, rev_involutive by exact Hq.
  now apply filter_lstrip.
Qed.

Lemma contains_as_filter ch (s : text) :
  PyStr.contains ch s = negb (Nat.eqb (length (filter (PyStr.is_char ch) s)) 0).
Proof.
  unfold PyStr.contains. induction s as [|a s IH]; simpl; [reflexivity|].
  destruct (PyStr.is_char ch a); simpl; [reflexivity|exact IH].
Qed.

Lemma is_char_true ch c : PyStr.is_char ch c = true -> c = ch.
Proof. unfold PyStr.is_char. apply Ascii.eqb_eq. Qed.

Lemma contains_filter (q : ascii -> bool) ch (s : text) :
  q ch = true -> PyStr.contains ch (filter q s) = PyStr.contains ch s.
Proof.
  intros Hq. rewrite !contains_as_filter. rewrite filter_filter_sub; [reflexivity|].
  intros c Hc. apply is_char_true in Hc. now subst c.
Qed.

Lemma contains_strip ch (s : text) :
  PyStr.is_space ch = false ->
  PyStr.contains ch (PyStr.strip s) = PyStr.contains ch s.
Proof.
  intros Hch. rewrite !contains_as_filter. rewrite filter_strip; [reflexivity|].
  intros c Hc. destruct (PyStr.is_char ch c) eqn:E; [|reflexivity].
  apply is_char_true in E. congruence.
Qed.

Lemma space_non_numeric c : PyStr.is_space c = true -> non_numeric c = true.
Proof.
  destruct c as [[] [] [] [] [] [] [] []]; intros H; try discriminate H;
    reflexivity.
Qed.

Lemma cleaned_sub cls (x : text) :
  (forall c, cls c = true -> non_numeric c = true) ->
  cleaned (PyStr.sub_class cls [] x) = cleaned x.
Proof.
  intros Hcls. unfold cleaned. rewrite !sub_class_nil_filter.
  apply filter_filter_sub. intros c Hc.
  destruct (cls c) eqn:E; [|reflexivity].
  apply Hcls in E. rewrite E in Hc. discriminate Hc.
Qed.

Lemma cleaned_strip (x : text) : cleaned (PyStr.strip x) = cleaned x.
Proof.
  unfold cleaned. rewrite !sub_class_nil_filter. apply filter_strip.
  intros c Hc. now rewrite (space_non_numeric c Hc).
Qed.

Lemma is_char_non_numeric ch :
  non_numeric ch = true ->
  forall c, PyStr.is_char ch c = true -> non_numeric c = true.
Proof. intros H c Hc. apply is_char_true in Hc. now subst c. Qed.

(** The normal form of [parse_currency]: convert what is left of the
    string after dropping everything but digits, points and minus signs,
    and negate when the string holds both parentheses. *)
Lemma parse_currency_normal (s : text) :
  parse_currency s =
  try_except
    (value <- PyFloat.py_float (cleaned s) ;;
     Ok (if PyStr.contains "("%char s && PyStr.contains ")"%char s
         then PyFloat.neg value else value))
    (Ok PyFloat.zero).
Proof.
  destruct s as [|a0 s0]; [reflexivity|].
  unfold parse_currency. set (s := a0 :: s0).
  set (clean := PyStr.strip _).
  assert (Hopen : PyStr.contains "("%char clean = PyStr.contains "("%char s).
  { subst clean. rewrite contains_strip by reflexivity.
    unfold PyStr.replace. rewrite !sub_class_nil_filter.
    rewrite !contains_filter by reflexivity. reflexivity. }
  assert (Hclose : PyStr.contains ")"%char clean = PyStr.contains ")"%char s).
  { subst clean. rewrite contains_strip by reflexivity.
    unfold PyStr.replace. rewrite !sub_class_nil_filter.
    rewrite !contains_filter by reflexivity. reflexivity. }
  rewrite Hopen, Hclose.
  assert (Hclean : cleaned clean = cleaned s).
  { subst clean. rewrite cleaned_strip. unfold PyStr.replace.
    rewrite !cleaned_sub;
      try reflexivity; apply is_char_non_numeric; reflexivity. }
  fold (cleaned (if PyStr.contains "("%char s && PyStr.contains ")"%char s
                 then PyStr.replace ")"%char [] (PyStr.replace "("%char [] clean)
                 else clean)).
  destruct (PyStr.contains "("%char s && PyStr.contains ")"%char s).
  - unfold PyStr.replace. rewrite !cleaned_sub, Hclean;
      try reflexivity; apply is_char_non_numeric; reflexivity.
  - now rewrite Hclean.
Qed.

Lemma currency_of_numeric c : negb (non_numeric c) = true -> currency_char c = true.
Proof.
  unfold non_numeric, currency_char. rewrite negb_involutive. intros ->.
  reflexivity.
Qed.

Lemma cleaned_currency (s : text) : cleaned (filter currency_char s) = cleaned s.
Proof.
  unfold cleaned. rewrite !sub_class_nil_filter.
  apply filter_filter_sub, currency_of_numeric.
Qed.

(** X1. [parse_currency] looks only at digits, points, minus signs and
    parentheses: deleting every other character of a string (currency
    symbols, commas, spaces, letters), wherever it stands, does not change
    the result. *)
Theorem parse_currency_ignores_other_chars (s : text) :
  parse_currency (filter currency_char s) = parse_currency s.
Proof.
  rewrite !parse_currency_normal, cleaned_currency.
  rewrite !contains_filter by reflexivity. reflexivity.
Qed.



Lemma float_eq_refl f : float_eq f f.
Proof. destruct f; simpl; auto. Qed.



Lemma py_float_point (ds fp : text) :
  forallb PyStr.is_digit ds = true -> forallb PyStr.is_digit fp = true ->
  PyFloat.py_float (ds ++ "."%char :: fp) = PyFloat.decimal false ds fp.
Proof.
  intros Hds Hfp. unfold PyFloat.py_float.
  rewrite strip_id.
  2:{ rewrite forallb_app. rewrite (digits_no_space _ Hds). simpl.
      now apply digits_no_space. }
  assert (Hs : PyFloat.split_sign (ds ++ "."%char :: fp)
               = (false, ds ++ "."%char :: fp)).
  { destruct ds as [|a ds]; [reflexivity|].
    apply split_sign_digits; [exact Hds|discriminate]. }
  rewrite Hs, span_digits_app by (auto; reflexivity).
  rewrite <- (app_nil_r fp) at 1.
  rewrite span_digits_app by auto. reflexivity.
Qed.

Lemma py_float_digits (ds : text) :
  forallb PyStr.is_digit ds = true ->
  PyFloat.py_float ds = PyFloat.decimal false ds [].
Proof.
  intros Hds. destruct ds as [|a ds]; [reflexivity|].
  unfold PyFloat.py_float.
  rewrite strip_id by now apply digits_no_space.
  rewrite <- (app_nil_r (a :: ds)) at 1.
  rewrite split_sign_digits, span_digits_app by (auto; discriminate).
  reflexivity.
Qed.

Lemma filter_all (q : ascii -> bool) (l : text) :
  forallb q l = true -> filter q l = l.
Proof.
  induction l as [|a l IH]; simpl; [reflexivity|]. intros H.
  apply andb_prop in H. destruct H as [-> H]. now rewrite IH.
Qed.

Lemma filter_agree (q q' p : ascii -> bool) (l : text) :
  forallb p l = true -> (forall c, p c = true -> q c = q' c) ->
  filter q l = filter q' l.
Proof.
  intros Hp Hq. induction l as [|a l IH]; simpl; [reflexivity|].
  simpl in Hp. apply andb_prop in Hp. destruct Hp as [Ha Hl].
  rewrite (Hq a Ha), (IH Hl). reflexivity.
Qed.

Lemma after_point_no_point (l : text) :
  forallb (fun c => negb (PyStr.is_char "."%char c)) l = true ->
  forall r, after_point (l ++ r) = after_point r.
Proof.
  intros H r. induction l as [|a l IH]; simpl; [reflexivity|].
  simpl in H. apply andb_prop in H. destruct H as [Ha Hl].
  destruct (PyStr.is_char "."%char a); [discriminate|auto].
Qed.

Lemma digit_or_comma_facts c :
  digit_or_comma c = true ->
  negb (non_numeric c) = PyStr.is_digit c /\
  PyStr.is_char "."%char c = false /\ PyStr.is_char "("%char c = false.
Proof.
  destruct c as [[] [] [] [] [] [] [] []]; intros H; try discriminate H;
    repeat split; reflexivity.
Qed.

Lemma decimal_value (ds fp : text) :
  try_except (value <- PyFloat.decimal false ds fp ;; Ok value)
             (Ok PyFloat.zero)
  = Ok (PyFloat.round64 false (PyFloat.digits_val (ds ++ fp))
                        (10 ^ Z.of_nat (length fp))).
Proof.
  unfold PyFloat.decimal. destruct (ds ++ fp) as [|a l] eqn:E; [|reflexivity].
  apply app_eq_nil in E. destruct E as [-> ->]. reflexivity.
Qed.

(** The float [parse_currency] gives on an amount text. *)
Lemma parse_currency_on_amount (a : text) (Ha : is_amount a) :
  parse_currency a = Ok (amount_value a).
Proof.
  destruct Ha as (ip & dot & fp & -> & Hip & Hne & Hdot & Hfp).
  rewrite parse_currency_normal.
  assert (Hamt : forallb amount_char (ip ++ dot ++ fp) = true).
  { apply is_amount_chars. exists ip, dot, fp. auto. }
  rewrite (contains_forallb amount_char "("%char _ Hamt eq_refl).
  cbn [andb].
  set (ds := filter PyStr.is_digit ip).
  assert (Hds : forallb PyStr.is_digit ds = true).
  { subst ds. apply forallb_forall. intros c Hc.
    apply filter_In in Hc. tauto. }
  assert (Hcip : cleaned ip = ds).
  { unfold cleaned. rewrite sub_class_nil_filter. subst ds.
    apply (filter_agree _ _ digit_or_comma); [exact Hip|].
    intros c Hc. now destruct (digit_or_comma_facts c Hc) as (-> & _). }
  assert (Hcfp : cleaned fp = fp).
  { unfold cleaned. apply sub_class_nil_id. revert Hfp.
    apply forallb_weaken. intros c Hc.
    now destruct (digit_facts c Hc) as (_ & -> & _). }
  assert (Hnp : forallb (fun c => negb (PyStr.is_char "."%char c)) ip = true).
  { revert Hip. apply forallb_weaken. intros c Hc.
    now destruct (digit_or_comma_facts c Hc) as (_ & -> & _). }
  unfold amount_value. rewrite after_point_no_point by exact Hnp.
  rewrite !filter_app. fold ds. rewrite (filter_all _ _ Hfp).
  unfold cleaned in *. rewrite !sub_class_app, Hcip, Hcfp.
  destruct Hdot as [-> | ->].
  - change (PyStr.sub_class non_numeric [] (str ".")) with (str ".").
    change (filter PyStr.is_digit (str ".")) with (@nil ascii).
    change (str "." ++ fp) with ("."%char :: fp).
    rewrite py_float_point by assumption.
    rewrite decimal_value. reflexivity.
  - cbn [PyStr.sub_class flat_map filter app].
    assert (Hno : after_point fp = []).
    { rewrite <- (app_nil_r fp). rewrite after_point_no_point; [reflexivity|].
      revert Hfp. apply forallb_weaken. intros c Hc.
      destruct c as [[] [] [] [] [] [] [] []]; try discriminate Hc; reflexivity. }
    rewrite Hno.
    rewrite py_float_digits by (rewrite forallb_app, Hds, Hfp; reflexivity).
    rewrite (decimal_value (ds ++ fp) []), app_nil_r. reflexivity.
Qed.

Lemma digits_val_nonneg (ds : text) :
  forallb PyStr.is_digit ds = true -> 0 <= PyFloat.digits_val ds.
Proof.
  unfold PyFloat.digits_val.
  assert (H : forall acc, 0 <= acc ->
    forallb PyStr.is_digit ds = true ->
    0 <= fold_left (fun acc c => 10 * acc + PyFloat.digit_val c) ds acc).
  { induction ds as [|c ds IH]; intros acc Hacc Hall; cbn [fold_left];
      [exact Hacc|].
    cbn [forallb] in Hall. apply andb_prop in Hall. destruct Hall as [Hc Hall].
    apply IH; [|exact Hall].
    unfold PyStr.is_digit in Hc. apply andb_prop in Hc. destruct Hc as [Hc _].
    apply Z.leb_le in Hc. unfold PyFloat.digit_val. lia. }
  apply H. lia.
Qed.

(** X3. On every amount text the patterns can capture (digits and commas,
    at most one point, digits) [parse_currency] returns the float nearest
    to the number the text denotes: its digits read as one integer, over
    ten to the number of digits after the point. Commas count for nothing
    wherever they stand, and a text without a digit gives 0.0. *)
Theorem amount_text_value (a : text) (Ha : is_amount a) :
  parse_currency a = Ok (amount_value a) /\
  nearest64 (amount_value a) false
    (PyFloat.digits_val (filter PyStr.is_digit a))
    (10 ^ Z.of_nat (length (after_point a))).
Proof.
  split; [exact (parse_currency_on_amount a Ha)|].
  unfold amount_value. apply round64_nearest.
  - apply digits_val_nonneg. apply forallb_forall. intros c Hc.
    apply filter_In in Hc. tauto.
  - apply Z.pow_pos_nonneg; lia.
Qed.

Lemma amount_text_value_witness :
  is_amount (str "3,615.08") /\
  parse_currency (str "3,615.08") = Ok (amount_value (str "3,615.08")) /\
  nearest64 (amount_value (str "3,615.08")) false 361508 100.
Proof.
  assert (H : is_amount (str "3,615.08")).
  { exists (str "3,615"), (str "."), (str "08").
    repeat split; auto. discriminate. }
  split; [exact H|]. exact (amount_text_value (str "3,615.08") H).
Defined.

(** ** Strings [float()] refuses *)

Lemma span_digits_spec (s : text) : forall a b,
  PyFloat.span_digits s = (a, b) ->
  s = a ++ b /\ forallb PyStr.is_digit a = true.
Proof.
  induction s as [|c s IH]; simpl; intros a b H.
  - inversion H. auto.
  - destruct (PyStr.is_digit c) eqn:E.
    + destruct (PyFloat.span_digits s) as [ds r].
      inversion H; subst. destruct (IH ds b eq_refl) as [-> Hds].
      simpl. now rewrite E, Hds.
    + inversion H. auto.
Qed.

Lemma split_sign_spec (s : text) :
  exists sg,
    s = sg ++ snd (PyFloat.split_sign s) /\
    (sg = [] \/ sg = str "-" \/ sg = str "+").
Proof.
  destruct s as [|a r]; [exists []; auto|].
  destruct a as [[] [] [] [] [] [] [] []];
    first [ exists []; split; [reflexivity|auto]
          | exists (str "-"); split; [reflexivity|auto]
          | exists (str "+"); split; [reflexivity|auto] ].
Qed.

(** A string [float()] accepts is an optional sign, digits, and possibly
    a point and more digits. *)
Lemma py_float_ok_shape (d : text) v :
  PyFloat.py_float d = Ok v ->
  exists sg ip dot fp,
    PyStr.strip d = sg ++ ip ++ dot ++ fp /\
    (sg = [] \/ sg = str "-" \/ sg = str "+") /\
    forallb PyStr.is_digit ip = true /\
    forallb PyStr.is_digit fp = true /\
    (dot = str "." \/ dot = []).
Proof.
  unfold PyFloat.py_float.
  destruct (split_sign_spec (PyStr.strip d)) as (sg & Hsg & Hcases).
  destruct (PyFloat.split_sign (PyStr.strip d)) as [s body]. simpl in Hsg.
  destruct (PyFloat.span_digits body) as [ip rest] eqn:Eip.
  apply span_digits_spec in Eip. destruct Eip as [-> Hip].
  destruct rest as [|c r].
  - intros _. exists sg, ip, [], []. rewrite Hsg. repeat split; auto.
  - destruct (Ascii.eqb_spec c "."%char) as [->|Hne].
    + destruct (PyFloat.span_digits r) as [fp rest'] eqn:Efp.
      apply span_digits_spec in Efp. destruct Efp as [-> Hfp].
      destruct rest'; [|discriminate].
      intros _. exists sg, ip, (str "."), fp. rewrite Hsg, app_nil_r.
      repeat split; auto.
    + destruct c as [[] [] [] [] [] [] [] []]; try discriminate.
      now elim Hne.
Qed.

Lemma cleaned_no_space (s : text) :
  forallb (fun c => negb (PyStr.is_space c)) (cleaned s) = true.
Proof.
  generalize (cleaned_alphabet s). apply forallb_weaken.
  intros c Hc. destruct (PyStr.is_space c) eqn:E; [|reflexivity].
  rewrite (space_non_numeric c E) in Hc. discriminate Hc.
Qed.

Lemma parse_currency_refused (s : text) :
  (forall v, PyFloat.py_float (cleaned s) <> Ok v) ->
  parse_currency s = Ok PyFloat.zero.
Proof.
  intros H. rewrite parse_currency_normal.
  destruct (PyFloat.py_float (cleaned s)) as [v|[]]; [|reflexivity].
  now elim (H v).
Qed.

(** X4. A minus sign anywhere but in front makes the amount 0.0: when what
    is left of the string after cleaning has a minus sign after its first
    character, as in the trailing-minus form "50.00-", the conversion is
    refused and [parse_currency] returns 0.0, not a negative number. *)
Theorem misplaced_minus_gives_zero (s x y : text)
  (Hclean : cleaned s = x ++ "-"%char :: y) (Hx : x <> []) :
  parse_currency s = Ok PyFloat.zero.
Proof.
  apply parse_currency_refused. intros v Hv.
  apply py_float_ok_shape in Hv.
  destruct Hv as (sg & ip & dot & fp & Hd & Hsg & Hip & Hfp & Hdot).
  rewrite strip_id in Hd by apply cleaned_no_space. rewrite Hclean in Hd.
  assert (Hbody : forallb (fun c => negb (PyStr.is_char "-"%char c))
                          (ip ++ dot ++ fp) = true).
  { rewrite !forallb_app.
    rewrite (forallb_weaken PyStr.is_digit _ ip), (forallb_weaken PyStr.is_digit _ fp);
      auto.
    - destruct Hdot as [-> | ->]; reflexivity.
    - intros c Hc. destruct c as [[] [] [] [] [] [] [] []];
        try discriminate Hc; reflexivity.
    - intros c Hc. destruct c as [[] [] [] [] [] [] [] []];
        try discriminate Hc; reflexivity. }
  destruct x as [|c x]; [congruence|].
  assert (Htail : exists pre, ip ++ dot ++ fp = pre ++ "-"%char :: y).
  { destruct Hsg as [-> | [-> | ->]]; simpl in Hd.
    - exists (c :: x). now rewrite <- Hd.
    - exists x. now inversion Hd.
    - exists x. now inversion Hd. }
  destruct Htail as [pre Hpre]. rewrite Hpre, forallb_app in Hbody.
  simpl in Hbody. rewrite andb_false_r in Hbody. discriminate Hbody.
Qed.

Lemma misplaced_minus_witness :
  cleaned (str "$50.00-") = str "50.00" ++ "-"%char :: [] /\
  str "50.00" <> [] /\
  parse_currency (str "$50.00-") = Ok PyFloat.zero.
Proof.
  assert (H1 : cleaned (str "$50.00-") = str "50.00" ++ "-"%char :: [])
    by reflexivity.
  assert (H2 : str "50.00" <> []) by discriminate.
  split; [exact H1|]. split; [exact H2|].
  exact (misplaced_minus_gives_zero (str "$50.00-") (str "50.00") [] H1 H2).
Defined.

(** X5. Two points make the amount 0.0: when what is left of the string
    after cleaning holds more than one point, as in "1.234.567,89", the
    conversion is refused and [parse_currency] returns 0.0. *)
Theorem two_points_give_zero (s x y z : text)
  (Hclean : cleaned s = x ++ "."%char :: y ++ "."%char :: z) :
  parse_currency s = Ok PyFloat.zero.
Proof.
  apply parse_currency_refused. intros v Hv.
  apply py_float_ok_shape in Hv.
  destruct Hv as (sg & ip & dot & fp & Hd & Hsg & Hip & Hfp & Hdot).
  rewrite strip_id in Hd by apply cleaned_no_space. rewrite Hclean in Hd.
  apply (f_equal (fun l => length (filter (PyStr.is_char "."%char) l))) in Hd.
  rewrite !filter_app in Hd. cbn [filter] in Hd.
  change (PyStr.is_char "."%char "."%char) with true in Hd. cbv iota in Hd.
  rewrite !filter_app in Hd. cbn [filter] in Hd.
  change (PyStr.is_char "."%char "."%char) with true in Hd. cbv iota in Hd.
  rewrite !length_app in Hd. cbn [length] in Hd.
  assert (Hnd : forall l, forallb PyStr.is_digit l = true ->
                          filter (PyStr.is_char "."%char) l = []).
  { induction l as [|c l IH]; simpl; [reflexivity|]. intros H.
    apply andb_prop in H. destruct H as [Hc Hl].
    destruct c as [[] [] [] [] [] [] [] []]; try discriminate Hc; simpl; auto. }
  rewrite (Hnd ip Hip), (Hnd fp Hfp) in Hd.
  rewrite length_app in Hd. cbn [length] in Hd.
  destruct Hsg as [-> | [-> | ->]], Hdot as [-> | ->]; simpl in Hd; lia.
Qed.

Lemma two_points_witness :
  cleaned (str "1.234.567,89") = str "1" ++ "."%char :: str "234" ++
                                 "."%char :: str "56789" /\
  parse_currency (str "1.234.567,89") = Ok PyFloat.zero.
Proof.
  assert (H : cleaned (str "1.234.567,89")
              = str "1" ++ "."%char :: str "234" ++ "."%char :: str "56789")
    by reflexivity.
  split; [exact H|].
  exact (two_points_give_zero (str "1.234.567,89") (str "1") (str "234")
           (str "56789") H).
Defined.

(** ** A minus sign in front *)

Lemma py_float_minus_point (ds fp : text) :
  forallb PyStr.is_digit ds = true -> forallb PyStr.is_digit fp = true ->
  PyFloat.py_float ("-"%char :: ds ++ "."%char :: fp)
  = PyFloat.decimal true ds fp.
Proof.
  intros Hds Hfp. unfold PyFloat.py_float.
  rewrite strip_id.
  2:{ cbn [forallb]. rewrite forallb_app. rewrite (digits_no_space _ Hds).
      simpl. now apply digits_no_space. }
  cbn [PyFloat.split_sign].
  rewrite span_digits_app by (auto; reflexivity).
  rewrite <- (app_nil_r fp) at 1.
  rewrite span_digits_app by auto. reflexivity.
Qed.

Lemma py_float_minus_digits (ds : text) :
  forallb PyStr.is_digit ds = true ->
  PyFloat.py_float ("-"%char :: ds) = PyFloat.decimal true ds [].
Proof.
  intros Hds. unfold PyFloat.py_float.
  rewrite strip_id by (cbn [forallb]; now rewrite (digits_no_space _ Hds)).
  cbn [PyFloat.split_sign].
  rewrite <- (app_nil_r ds) at 1.
  rewrite span_digits_app by auto. reflexivity.
Qed.

Lemma decimal_minus_value (ds fp : text) :
  exists w,
    try_except (value <- PyFloat.decimal true ds fp ;; Ok value)
               (Ok PyFloat.zero) = Ok w /\
    float_eq w (PyFloat.neg
                  (PyFloat.round64 false (PyFloat.digits_val (ds ++ fp))
                                   (10 ^ Z.of_nat (length fp)))).
Proof.
  unfold PyFloat.decimal. destruct (ds ++ fp) as [|a l] eqn:E.
  - apply app_eq_nil in E. destruct E as [-> ->].
    exists PyFloat.zero. split; [reflexivity|]. simpl. auto.
  - eexists. split; [reflexivity|]. rewrite round64_neg. apply float_eq_refl.
Qed.

(** X6. A minus sign in front of an amount text negates it: for every
    amount text a, "-" followed by a parses to a float equal to minus the
    number a denotes. *)
Theorem leading_minus_negates (a : text) (Ha : is_amount a) :
  exists w,
    parse_currency ("-"%char :: a) = Ok w /\
    float_eq w (PyFloat.neg (amount_value a)).
Proof.
  destruct Ha as (ip & dot & fp & -> & Hip & Hne & Hdot & Hfp).
  rewrite parse_currency_normal.
  assert (Hamt : forallb amount_char (ip ++ dot ++ fp) = true).
  { apply is_amount_chars. exists ip, dot, fp. auto. }
  assert (Hopen : PyStr.contains "("%char ("-"%char :: ip ++ dot ++ fp) = false).
  { unfold PyStr.contains. cbn [existsb].
    change (PyStr.is_char "("%char "-"%char) with false. cbn [orb].
    exact (contains_forallb amount_char "("%char _ Hamt eq_refl). }
  rewrite Hopen. cbn [andb].
  set (ds := filter PyStr.is_digit ip).
  assert (Hds : forallb PyStr.is_digit ds = true).
  { subst ds. apply forallb_forall. intros c Hc.
    apply filter_In in Hc. tauto. }
  assert (Hcip : cleaned ip = ds).
  { unfold cleaned. rewrite sub_class_nil_filter. subst ds.
    apply (filter_agree _ _ digit_or_comma); [exact Hip|].
    intros c Hc. now destruct (digit_or_comma_facts c Hc) as (-> & _). }
  assert (Hcfp : cleaned fp = fp).
  { unfold cleaned. apply sub_class_nil_id. revert Hfp.
    apply forallb_weaken. intros c Hc.
    now destruct (digit_facts c Hc) as (_ & -> & _). }
  assert (Hnp : forallb (fun c => negb (PyStr.is_char "."%char c)) ip = true).
  { revert Hip. apply forallb_weaken. intros c Hc.
    now destruct (digit_or_comma_facts c Hc) as (_ & -> & _). }
  unfold amount_value. rewrite after_point_no_point by exact Hnp.
  rewrite !filter_app. fold ds. rewrite (filter_all _ _ Hfp).
  assert (Hcl : cleaned ("-"%char :: ip ++ dot ++ fp)
                = "-"%char :: ds ++ cleaned dot ++ fp).
  { change ("-"%char :: ip ++ dot ++ fp) with (str "-" ++ ip ++ dot ++ fp).
    unfold cleaned in *. rewrite !sub_class_app, Hcip, Hcfp. reflexivity. }
  rewrite Hcl.
  destruct Hdot as [-> | ->].
  - change (cleaned (str ".")) with (str ".").
    change (filter PyStr.is_digit (str ".")) with (@nil ascii).
    change (str "." ++ fp) with ("."%char :: fp).
    rewrite py_float_minus_point by assumption.
    apply decimal_minus_value.
  - change (cleaned []) with (@nil ascii).
    cbn [filter app].
    assert (Hno : after_point fp = []).
    { rewrite <- (app_nil_r fp). rewrite after_point_no_point; [reflexivity|].
      revert Hfp. apply forallb_weaken. intros c Hc.
      destruct c as [[] [] [] [] [] [] [] []]; try discriminate Hc; reflexivity. }
    rewrite Hno.
    rewrite py_float_minus_digits by (rewrite forallb_app, Hds, Hfp; reflexivity).
    destruct (decimal_minus_value (ds ++ fp) []) as (w & Hw & Heq).
    rewrite app_nil_r in Heq. exists w. auto.
Qed.

Lemma leading_minus_witness :
  is_amount (str "1,234.56") /\
  exists w,
    parse_currency (str "-1,234.56") = Ok w /\
    float_eq w (PyFloat.neg (amount_value (str "1,234.56"))).
Proof.
  assert (H : is_amount (str "1,234.56")).
  { exists (str "1,234"), (str "."), (str "56").
    repeat split; auto. discriminate. }
  split; [exact H|]. exact (leading_minus_negates (str "1,234.56") H).
Defined.

(* ===================================================================== *)
(** * Further properties of [extract_statement_data] *)
(* ===================================================================== *)

(** ** Pages *)

Lemma full_text_of_app (ps qs : list (option text)) :
  full_text_of (ps ++ qs) = full_text_of ps ++ full_text_of qs.
Proof.
  induction ps as [|p ps IH]; [reflexivity|].
  destruct p as [[|c t]|]; simpl; rewrite IH; [reflexivity| |reflexivity].
  now rewrite <- !app_assoc.
Qed.

Lemma full_text_of_filter (ps : list (option text)) :
  full_text_of (filter has_text ps) = full_text_of ps.
Proof.
  induction ps as [|p ps IH]; [reflexivity|].
  destruct p as [[|c t]|]; simpl; now rewrite IH.
Qed.

(** X7. Pages that yield no text, because [extract_text()] gave None or
    the empty string, change nothing: the result is that of the pages
    that have text, in the same order. *)
Theorem blank_pages_are_ignored (pages : list (option text)) :
  extract_statement_data (filter has_text pages) = extract_statement_data pages.
Proof. unfold extract_statement_data. now rewrite full_text_of_filter. Qed.

(** X8. A page break counts as a line break and nothing more: a page whose
    text is a, a newline, b gives the same result as two pages a and b,
    wherever it stands among the pages. *)
Theorem page_break_is_line_break (before after : list (option text))
  (a b : text) (Ha : a <> []) (Hb : b <> []) :
  extract_statement_data (before ++ [Some (a ++ [nl] ++ b)] ++ after) =
  extract_statement_data (before ++ [Some a; Some b] ++ after).
Proof.
  unfold extract_statement_data. f_equal.
  rewrite !full_text_of_app. f_equal. f_equal.
  destruct a as [|ca a]; [congruence|]. destruct b as [|cb b]; [congruence|].
  simpl. rewrite <- !app_assoc. reflexivity.
Qed.

Lemma page_break_witness :
  str "Deposit 05-15 $1.00" <> [] /\ str "Deposit 05-16 $2.00" <> [] /\
  extract_statement_data
    ([None] ++ [Some (str "Deposit 05-15 $1.00" ++ [nl] ++
                      str "Deposit 05-16 $2.00")] ++ []) =
  extract_statement_data
    ([None] ++ [Some (str "Deposit 05-15 $1.00");
                Some (str "Deposit 05-16 $2.00")] ++ []).
Proof.
  assert (H1 : str "Deposit 05-15 $1.00" <> []) by discriminate.
  assert (H2 : str "Deposit 05-16 $2.00" <> []) by discriminate.
  split; [exact H1|]. split; [exact H2|].
  exact (page_break_is_line_break [None] [] _ _ H1 H2).
Defined.

(** ** Stripping *)

Lemma lstrip_app_nonspace (x y : text) c :
  PyStr.is_space c = false ->
  PyStr.lstrip (x ++ c :: y) = PyStr.lstrip x ++ c :: y.
Proof.
  intros Hc. induction x as [|a x IH]; simpl.
  - now rewrite Hc.
  - destruct (PyStr.is_space a); [exact IH|reflexivity].
Qed.

Lemma rstrip_app_nonspace (x y : text) c :
  PyStr.is_space c = false ->
  PyStr.rstrip (x ++ c :: y) = x ++ c :: PyStr.rstrip y.
Proof.
  intros Hc. unfold PyStr.rstrip.
  rewrite rev_app_distr. simpl rev. rewrite <- app_assoc. simpl app.
  rewrite (lstrip_app_nonspace (rev y) (rev x) c Hc).
  rewrite rev_app_distr. simpl rev. rewrite rev_involutive, <- app_assoc.
  reflexivity.
Qed.

Lemma strip_deposit (tail : text) :
  PyStr.strip (str "Deposit" ++ tail) = str "Deposit" ++ PyStr.rstrip tail.
Proof.
  unfold PyStr.strip. change (PyStr.lstrip (str "Deposit" ++ tail))
    with (str "Deposi" ++ "t"%char :: tail).
  now rewrite rstrip_app_nonspace.
Qed.

Lemma rstrip_forallb q (s : text) :
  forallb q s = true -> forallb q (PyStr.rstrip s) = true.
Proof.
  intros H. unfold PyStr.rstrip. rewrite forallb_rev.
  apply lstrip_forallb. now rewrite forallb_rev.
Qed.

Lemma firstn_forallb (q : ascii -> bool) n (s : text) :
  forallb q s = true -> forallb q (firstn n s) = true.
Proof.
  revert s. induction n as [|n IH]; intros [|a s]; simpl; auto.
  intros H. apply andb_prop in H. destruct H as [-> H]. simpl. auto.
Qed.

(** ** The rows, pattern by pattern *)

Lemma deposit_row_exact w g tail d amt :
  is_amount amt ->
  g = [(3, amt); (2, d); (1, str "Deposit" ++ tail)]%nat ->
  deposit_row {| whole := w; groups := g |} =
  Ok {| Date := d; Description := str "Deposit" ++ PyStr.rstrip tail;
        Type_ := Credit; Amount := amount_value amt |}.
Proof.
  intros Hamt ->. unfold deposit_row.
  change (group _ 3) with amt. change (group _ 2) with d.
  change (group _ 1) with (str "Deposit" ++ tail).
  rewrite (parse_currency_on_amount amt Hamt), strip_deposit. reflexivity.
Qed.

Lemma deposit_row_ok t m r :
  matches_in deposit_pattern t m -> deposit_row m = Ok r -> row_ok r.
Proof.
  destruct m as [w g]. intros (pre & rest & _ & D). cbn [whole groups] in D.
  apply deposit_pattern_shape in D.
  destruct D as (tl & w1 & d & w2 & amt & _ & Htl & _ & Hd & _ & Hamt & Hg).
  rewrite (deposit_row_exact w g tl d amt Hamt Hg).
  intros E. inversion E. unfold row_ok. cbn.
  split; [exact Hd|]. split.
  - unfold one_line. cbn. now apply rstrip_forallb.
  - split; eauto.
Qed.

Lemma atm_row_ok t m r :
  matches_in atm_pattern t m -> atm_row m = Ok r -> row_ok r.
Proof.
  destruct m as [w g]. intros (pre & rest & _ & D). cbn [whole groups] in D.
  apply atm_pattern_shape in D.
  destruct D as (loc & mid & d1 & w1 & d2 & w2 & amt & _ & Hloc & _ & _ & _ & _ &
                 Hd2 & _ & Hamt & ->).
  unfold atm_row. change (group _ 5) with amt. change (group _ 4) with d2.
  change (group _ 1) with loc.
  rewrite (parse_currency_on_amount amt Hamt). cbn [bind].
  intros E. inversion E. unfold row_ok. cbn.
  split; [exact Hd2|]. split.
  - unfold one_line. cbn. now apply strip_forallb.
  - split; eauto.
Qed.

Lemma check_row_ok t m r :
  matches_in check_pattern t m -> check_row m = Ok r -> row_ok r.
Proof.
  destruct m as [w g]. intros (pre & rest & _ & D). cbn [whole groups] in D.
  apply check_pattern_shape in D.
  destruct D as (d & w1 & num & w2 & amt & w3 & ref & _ & Hd & _ & Hnum & Hne &
                 _ & Hamt & _ & _ & _ & ->).
  unfold check_row. change (group _ 3) with amt. change (group _ 2) with num.
  change (group _ 1) with d.
  rewrite (parse_currency_on_amount amt Hamt). cbn [bind].
  intros E. inversion E. unfold row_ok. cbn.
  split; [exact Hd|]. split.
  - unfold one_line. cbn. revert Hnum. apply forallb_weaken.
    intros x Hx. destruct x as [[] [] [] [] [] [] [] []];
      try discriminate Hx; reflexivity.
  - split; eauto.
Qed.

Lemma generic_row_ok t m r :
  matches_in generic_pattern t m -> generic_row m = Ok r -> row_ok r.
Proof.
  destruct m as [w g]. intros (pre & rest & _ & D). cbn [whole groups] in D.
  apply generic_pattern_shape in D.
  destruct D as (d & w1 & body & w2 & amt & _ & Hd & _ & Hbody & _ & Hamt & ->).
  unfold generic_row. change (group _ 3) with amt. change (group _ 2) with body.
  change (group _ 1) with d.
  rewrite (parse_currency_on_amount amt Hamt). cbn [bind].
  pose proof (firstn_le_length 50 (PyStr.strip body)) as Hlen.
  pose proof (firstn_forallb not_nl 50 _ (strip_forallb not_nl _ Hbody)) as Hone.
  revert Hlen Hone. generalize (firstn 50 (PyStr.strip body)).
  intros desc Hlen Hone E. inversion E. unfold row_ok.
  cbn [Date Description Type_ Amount]. repeat split; eauto.
Qed.

Lemma deposit_rows_ok t rows : deposit_rows t = Ok rows -> Forall row_ok rows.
Proof.
  apply mapM_Forall. intros m r Hm. apply (deposit_row_ok t).
  now apply finditer_sound.
Qed.

Lemma atm_rows_ok t rows : atm_rows t = Ok rows -> Forall row_ok rows.
Proof.
  unfold atm_rows. destruct (search atm_section_re t) as [sec|].
  - apply mapM_Forall. intros m r Hm. apply (atm_row_ok (group sec 1)).
    now apply finditer_sound.
  - intros E. inversion E. constructor.
Qed.

Lemma check_rows_ok t rows : check_rows t = Ok rows -> Forall row_ok rows.
Proof.
  unfold check_rows. destruct (search checks_section_re t) as [sec|].
  - apply mapM_Forall. intros m r Hm. apply (check_row_ok (group sec 1)).
    now apply finditer_sound.
  - intros E. inversion E. constructor.
Qed.

Lemma generic_rows_ok t rows : generic_rows t = Ok rows -> Forall row_ok rows.
Proof.
  apply mapM_Forall. intros m r Hm. apply (generic_row_ok t).
  now apply finditer_sound.
Qed.

(** X9. Every row returned is well formed: its date is two digits, a dash
    and two digits; its description is a single line, starting with
    "Deposit" for a Credit, being "ATM Withdrawal - " and a location or
    "Check #" and a number for a Debit, and at most 50 characters long for
    an Unknown; its amount is the number an amount text denotes. *)
Theorem rows_are_well_formed (pages : list (option text)) :
  exists h rows,
    extract_statement_data pages = Ok (h, rows) /\ Forall row_ok rows.
Proof.
  destruct (extract_text_total (full_text_of pages))
    as (t1 & t2 & t3 & t4 & H1 & H2 & H3 & H4 & H).
  do 2 eexists. split; [exact H|].
  apply (Permutation_Forall (Permutation_sym (to_frame_perm _))).
  rewrite !Forall_app. repeat split;
    eauto using deposit_rows_ok, atm_rows_ok, check_rows_ok.
  unfold fallback_rows in H4. destruct (t1 ++ t2 ++ t3).
  - now apply generic_rows_ok in H4.
  - inversion H4. constructor.
Qed.

(** X10. Every match of the deposit pattern becomes a Credit row with the
    date of the line, the matched "Deposit..." text without trailing
    whitespace as description, and the number the amount denotes. *)
Theorem deposit_line_row (t : text) (m : mobj)
  (Hm : In m (finditer deposit_pattern t)) :
  deposit_line_spec t m.
Proof.
  pose proof (finditer_sound _ _ _ Hm) as (pre & post & Hpre & D).
  destruct (deposit_rows_total t) as [rows Hrows].
  destruct m as [w g]. cbn [whole groups] in *.
  apply deposit_pattern_shape in D.
  destruct D as (tl & w1 & d & w2 & amt & Hw & Htl & Hw1 & Hd & Hw2 & Hamt & Hg).
  pose proof (deposit_row_exact w g tl d amt Hamt Hg) as Hrow.
  exists tl, w1, d, w2, amt, rows.
  repeat (split; [assumption|]).
  split; [exact (mapM_In_fwd _ _ _ _ _ Hrows Hm Hrow)|eauto].
Qed.

Lemma deposit_line_row_witness :
  In deposit_example
     (finditer deposit_pattern
        (full_text_of [page ["Deposit Ref Nbr: 130012345 05-15 $3,615.08"%string]])) /\
  deposit_line_spec
    (full_text_of [page ["Deposit Ref Nbr: 130012345 05-15 $3,615.08"%string]])
    deposit_example.
Proof.
  assert (H : In deposit_example
     (finditer deposit_pattern
        (full_text_of [page ["Deposit Ref Nbr: 130012345 05-15 $3,615.08"%string]]))).
  { vm_compute. left. reflexivity. }
  split; [exact H|]. exact (deposit_line_row _ _ H).
Defined.

(** X11. Every row the check pattern matches in the checks table becomes a
    Debit row with the date of the row, "Check #" and the check number as
    description, and the number the amount column denotes; the table lies
    between the "ChecksPaid" and "Date Paid" header lines and "Total
    Checks" or the end of the text. *)
Theorem check_line_row (t : text) (sec m : mobj)
  (Hsec : search checks_section_re t = Some sec)
  (Hm : In m (finditer check_pattern (group sec 1))) :
  check_line_spec t sec m.
Proof.
  pose proof (finditer_sound _ _ _ Hm) as (pre & post & Hpre & D).
  pose proof (search_sound _ _ _ Hsec) as (before & after & Ht & Dsec).
  destruct (check_rows_total t) as [rows Hrows].
  pose proof Hrows as Hmap. unfold check_rows in Hmap. rewrite Hsec in Hmap.
  destruct m as [w g]. cbn [whole groups] in *.
  apply check_pattern_shape in D.
  destruct D as (d & w1 & num & w2 & amt & w3 & ref & Hw & Hd & Hw1 & Hnum &
                 Hnne & Hw2 & Hamt & Hw3 & Href & Hrne & Hg).
  assert (Hrow : check_row {| whole := w; groups := g |} =
                 Ok {| Date := d; Description := str "Check #" ++ num;
                       Type_ := Debit; Amount := amount_value amt |}).
  { unfold check_row. rewrite Hg. change (group _ 3) with amt.
    rewrite (parse_currency_on_amount amt Hamt). reflexivity. }
  exists d, w1, num, w2, amt, w3, ref, rows.
  repeat (split; [assumption|]).
  split; [exact (mapM_In_fwd _ _ _ _ _ Hmap Hm Hrow)|].
  split; [eauto|].
  destruct sec as [ws gs]. cbn [whole groups] in *.
  apply checks_section_shape in Dsec.
  destruct Dsec as (line1 & skipped & line2 & sect & -> & Hl1 & Hl2 & Hafter & ->).
  change (group _ 1) with sect.
  exists before, line1, skipped, line2, after.
  repeat split; auto. rewrite Ht, <- !app_assoc. reflexivity.
Qed.

Lemma check_line_row_witness :
  search checks_section_re (full_text_of check_pages)
    = Some check_example_section /\
  In check_example_row (finditer check_pattern (group check_example_section 1)) /\
  check_line_spec (full_text_of check_pages) check_example_section
                  check_example_row.
Proof.
  assert (H1 : search checks_section_re (full_text_of check_pages)
               = Some check_example_section).
  { vm_compute. reflexivity. }
  assert (H2 : In check_example_row
                  (finditer check_pattern (group check_example_section 1))).
  { vm_compute. right. left. reflexivity. }
  split; [exact H1|]. split; [exact H2|].
  exact (check_line_row (full_text_of check_pages) _ _ H1 H2).
Defined.

(** X12. Every match of the generic line pattern gives a row of type
    Unknown with the date of the line, the first 50 characters of the
    stripped text between date and amount as description, and the number
    the amount denotes. *)
Theorem generic_line_row (t : text) (m : mobj)
  (Hm : In m (finditer generic_pattern t)) :
  generic_line_spec t m.
Proof.
  pose proof (finditer_sound _ _ _ Hm) as (pre & post & Hpre & D).
  destruct m as [w g]. cbn [whole groups] in *.
  apply generic_pattern_shape in D.
  destruct D as (d & w1 & body & w2 & amt & Hw & Hd & Hw1 & Hbody & Hw2 &
                 Hamt & Hg).
  exists d, w1, body, w2, amt.
  repeat (split; [assumption|]).
  split.
  { unfold generic_row. rewrite Hg. change (group _ 3) with amt.
    rewrite (parse_currency_on_amount amt Hamt). reflexivity. }
  split; [apply firstn_le_length|eauto].
Qed.

Lemma generic_line_row_witness :
  In generic_example
     (finditer generic_pattern (full_text_of [page ["05-01 coffee $3.00"%string]])) /\
  generic_line_spec (full_text_of [page ["05-01 coffee $3.00"%string]])
                    generic_example.
Proof.
  assert (H : In generic_example
     (finditer generic_pattern (full_text_of [page ["05-01 coffee $3.00"%string]]))).
  { vm_compute. left. reflexivity. }
  split; [exact H|]. exact (generic_line_row _ _ H).
Defined.

(** ** Sections *)

Lemma contains_text_app (p pre post : text) :
  contains_text p (pre ++ p ++ post) = true.
Proof.
  induction pre as [|a pre IH]; simpl.
  - pose proof (prefixb_app p post) as H.
    destruct (p ++ post); simpl; now rewrite H.
  - rewrite IH. apply orb_true_r.
Qed.

Lemma search_needs_literal (l : text) rs t m :
  search (cat (Lit l :: rs)) t = Some m -> contains_text l t = true.
Proof.
  intros H. apply search_sound in H. destruct H as (pre & rest & -> & D).
  destruct D as (m1 & m2 & c1 & Hw & [-> _] & _). rewrite Hw, <- app_assoc.
  apply contains_text_app.
Qed.

(** X13. ATM blocks count only inside an ATM section: a text in which the
    header "ATM Withdrawals & Debits Account" does not occur gives no ATM
    row, whatever blocks it holds. *)
Theorem atm_rows_need_section_header (t : text)
  (Hno : contains_text (str "ATM Withdrawals & Debits Account") t = false) :
  atm_rows t = Ok [].
Proof.
  unfold atm_rows. destruct (search atm_section_re t) as [sec|] eqn:E;
    [|reflexivity].
  apply search_needs_literal in E. congruence.
Qed.

Lemma atm_rows_need_section_header_witness :
  contains_text (str "ATM Withdrawals & Debits Account")
                (full_text_of loose_atm_pages) = false /\
  atm_rows (full_text_of loose_atm_pages) = Ok [].
Proof.
  assert (H : contains_text (str "ATM Withdrawals & Debits Account")
                            (full_text_of loose_atm_pages) = false)
    by (vm_compute; reflexivity).
  split; [exact H|].
  exact (atm_rows_need_section_header (full_text_of loose_atm_pages) H).
Defined.

(** X14. Check rows count only inside a checks table: a text in which
    "ChecksPaid" does not occur gives no check row, whatever rows of
    date, number, amount and reference it holds. *)
Theorem check_rows_need_table_header (t : text)
  (Hno : contains_text (str "ChecksPaid") t = false) :
  check_rows t = Ok [].
Proof.
  unfold check_rows. destruct (search checks_section_re t) as [sec|] eqn:E;
    [|reflexivity].
  apply search_needs_literal in E. congruence.
Qed.

Lemma check_rows_need_table_header_witness :
  contains_text (str "ChecksPaid") (full_text_of loose_check_pages) = false /\
  check_rows (full_text_of loose_check_pages) = Ok [].
Proof.
  assert (H : contains_text (str "ChecksPaid")
                            (full_text_of loose_check_pages) = false)
    by (vm_compute; reflexivity).
  split; [exact H|].
  exact (check_rows_need_table_header (full_text_of loose_check_pages) H).
Defined.

(** ** What the matcher picks *)

Lemma span_cls_spec p (s : text) :
  s = fst (span_cls p s) ++ snd (span_cls p s) /\
  forallb p (fst (span_cls p s)) = true.
Proof.
  induction s as [|a s IH]; simpl; [auto|].
  destruct (p a) eqn:E; [|auto].
  destruct (span_cls p s) as [x y]. simpl in *. destruct IH as [IH1 IH2].
  rewrite E, IH2. split; [now f_equal|reflexivity].
Qed.

(** A greedy repetition whose continuation cannot fail takes the longest
    run. *)
Lemma rep_greedy_exact R p (s : text) : forall min (k : text -> text -> option R),
  (forall m r, k m r <> None) ->
  rep_greedy p min s k =
  if Nat.leb min (length (fst (span_cls p s)))
  then k (fst (span_cls p s)) (snd (span_cls p s)) else None.
Proof.
  induction s as [|a s IH]; intros min k Hk; simpl.
  - destruct min; reflexivity.
  - destruct (p a) eqn:E.
    + rewrite (IH (Nat.pred min) (fun m r => k (a :: m) r))
        by (intros m r; apply Hk).
      destruct (span_cls p s) as [x y]. simpl.
      destruct min as [|min]; simpl.
      * destruct (k (a :: x) y) eqn:Ek; [reflexivity|]. now elim (Hk (a :: x) y).
      * destruct (Nat.leb min (length x)); [|reflexivity].
        destruct (k (a :: x) y) eqn:Ek; [reflexivity|]. now elim (Hk (a :: x) y).
    + destruct min; reflexivity.
Qed.

Lemma bt_seq_sound r1 r2 R s c (k : text -> text -> caps -> option R) x :
  bt (Seq r1 r2) s c k = Some x ->
  exists m1 s1 c1,
    s = m1 ++ s1 /\ den r1 m1 s1 c c1 /\
    bt r2 s1 c1 (fun m2 s2 c2 => k (m1 ++ m2) s2 c2) = Some x.
Proof. intros H. simpl in H. now apply bt_sound in H. Qed.

Lemma bt_amount_exact R (s : text) c (k : text -> text -> caps -> option R) :
  (forall m r c', k m r c' <> None) ->
  bt amount_re s c k =
  match amount_lex s with
  | Some (a, r) => k a r c
  | None => None
  end.
Proof.
  intros Hk. unfold amount_re, amount_lex, opt.
  cbn [cat fold_right bt].
  assert (Htail : forall m1 m2 s2,
    rep_greedy PyStr.is_digit 0 s2
      (fun m r => k (m1 ++ m2 ++ m ++ []) r c) =
    k (m1 ++ m2 ++ fst (span_cls PyStr.is_digit s2))
      (snd (span_cls PyStr.is_digit s2)) c).
  { intros m1 m2 s2. rewrite rep_greedy_exact by (intros; apply Hk).
    cbn [Nat.leb]. now rewrite app_nil_r. }
  rewrite rep_greedy_exact.
  2:{ intros m r. destruct (PyStr.prefixb (str ".") r).
      - rewrite Htail.
        match goal with |- match ?e with _ => _ end <> None =>
          destruct e eqn:E; [discriminate|now apply Hk in E] end.
      - rewrite Htail. apply Hk. }
  destruct (span_cls digit_or_comma s) as [ip r1]. cbn [fst snd].
  destruct ip as [|i ip]; [reflexivity|]. cbn [length Nat.leb].
  destruct r1 as [|ch r]; cbn [PyStr.prefixb str list_ascii_of_string].
  - rewrite Htail. cbn [span_cls fst snd]. reflexivity.
  - unfold PyStr.is_char. rewrite Ascii.eqb_sym.
    destruct (Ascii.eqb_spec ch "."%char) as [->|Hne]; cbn [andb].
    + cbn [length skipn]. rewrite Htail.
      destruct (span_cls PyStr.is_digit r) as [fp r3]. cbn [fst snd].
      match goal with |- match ?e with _ => _ end = _ =>
        destruct e eqn:E; [reflexivity|now apply Hk in E] end.
    + rewrite Htail.
      destruct (span_cls PyStr.is_digit (ch :: r)) as [fp r3]. reflexivity.
Qed.

Lemma amount_lex_sound (s a r : text) :
  amount_lex s = Some (a, r) -> s = a ++ r.
Proof.
  unfold amount_lex.
  pose proof (span_cls_spec digit_or_comma s) as [E1 _].
  destruct (span_cls digit_or_comma s) as [ip r1]. cbn [fst snd] in E1.
  destruct ip as [|i ip]; [discriminate|].
  assert (E2 : exists dot r2,
    (match r1 with
     | c :: r => if PyStr.is_char "." c then ([c], r) else ([], r1)
     | [] => ([], r1)
     end) = (dot, r2) /\ r1 = dot ++ r2).
  { destruct r1 as [|c r0]; [now exists [], []|].
    destruct (PyStr.is_char "." c); [now exists [c], r0|now exists [], (c :: r0)]. }
  destruct E2 as (dot & r2 & -> & E2).
  pose proof (span_cls_spec PyStr.is_digit r2) as [E3 _].
  destruct (span_cls PyStr.is_digit r2) as [fp r3]. cbn [fst snd] in E3.
  intros H. inversion H; subst a r. rewrite E1, E2, E3.
  cbn [app]. f_equal. now rewrite <- ?app_assoc.
Qed.

Lemma get_set_same n a c : get n (set n a c) = Some a.
Proof. unfold set. simpl. now rewrite Nat.eqb_refl. Qed.

(** A pattern that ends with a group whose content [rf] is read off the
    text by [lex] alone: whatever came before, the group takes what [lex]
    reads. *)
Section EndsWith.
Variable rf : regex.
Variable lex : text -> option (text * text).
Hypothesis lex_exact :
  forall R s c (k : text -> text -> caps -> option R),
  (forall m r c', k m r c' <> None) ->
  bt rf s c k = match lex s with Some (a, r) => k a r c | None => None end.
Hypothesis lex_sound : forall s a r, lex s = Some (a, r) -> s = a ++ r.

Lemma bt_cat_ends n rs :
  forall R s c (k : text -> text -> caps -> option R) x,
  (forall m r c', k m r c' <> None) ->
  bt (cat (rs ++ [Grp n rf])) s c k = Some x ->
  exists w a r c1,
    s = w ++ a ++ r /\ k (w ++ a) r (set n a c1) = Some x /\
    lex (a ++ r) = Some (a, r).
Proof.
  induction rs as [|r0 rs IH]; intros R s c k x Hk H.
  - cbn [app cat fold_right bt] in H.
    rewrite lex_exact in H by (intros; apply Hk).
    destruct (lex s) as [[a r]|] eqn:E; [|discriminate].
    pose proof (lex_sound _ _ _ E) as ->.
    rewrite app_nil_r in H. exists [], a, r, c. auto.
  - change (cat ((r0 :: rs) ++ [Grp n rf]))
      with (Seq r0 (cat (rs ++ [Grp n rf]))) in H.
    apply bt_seq_sound in H. destruct H as (m1 & s1 & c1 & -> & _ & H).
    apply IH in H; [|intros; apply Hk].
    destruct H as (w & a & r & c2 & -> & H & L).
    exists (m1 ++ w), a, r, c2. rewrite <- !app_assoc. auto.
Qed.

Lemma match_at_ends n rs s m :
  n <> O ->
  match_at (cat (rs ++ [Grp n rf])) s = Some m ->
  exists r,
    s = whole m ++ r /\ lex (group m n ++ r) = Some (group m n, r).
Proof.
  intros Hn H. unfold match_at in H.
  apply bt_cat_ends in H; [|discriminate].
  destruct H as (w & a & r & c1 & -> & H & L). inversion H; subst m.
  exists r. unfold group. cbn [whole groups]. rewrite get_set_same.
  destruct n; [congruence|]. rewrite <- app_assoc. auto.
Qed.

End EndsWith.

Lemma bt_digits_exact R (s : text) c (k : text -> text -> caps -> option R) :
  (forall m r c', k m r c' <> None) ->
  bt digits s c k =
  match digits_lex s with
  | Some (a, r) => k a r c
  | None => None
  end.
Proof.
  intros Hk. unfold digits, digits_lex. cbn [bt].
  rewrite rep_greedy_exact by (intros; apply Hk).
  now destruct (span_cls PyStr.is_digit s) as [[|d ds] r].
Qed.

Lemma digits_lex_sound (s a r : text) :
  digits_lex s = Some (a, r) -> s = a ++ r.
Proof.
  unfold digits_lex. pose proof (span_cls_spec PyStr.is_digit s) as [E _].
  destruct (span_cls PyStr.is_digit s) as [[|d ds] r0]; [discriminate|].
  intros H. inversion H; subst a r. exact E.
Qed.

Lemma finditer_from_at r s : forall skip m,
  In m (finditer_from r skip s) ->
  exists pre post, s = pre ++ post /\ match_at r post = Some m.
Proof.
  induction s as [|a s IH]; intros skip m H.
  - destruct skip; simpl in H; [|easy].
    destruct (match_at r []) eqn:E; simpl in H; [|easy].
    destruct H as [->|[]]. now exists [], [].
  - assert (Htl : forall k, In m (finditer_from r k s) ->
      exists pre post, a :: s = pre ++ post /\ match_at r post = Some m).
    { intros k Hk. destruct (IH _ _ Hk) as (pre & post & -> & ?).
      now exists (a :: pre), post. }
    destruct skip; simpl in H; [|eauto].
    destruct (match_at r (a :: s)) eqn:E; simpl in H; [|eauto].
    destruct H as [->|H]; [|eauto].
    now exists [], (a :: s).
Qed.

Lemma finditer_ends_amount n rs t m :
  n <> O ->
  In m (finditer (cat (rs ++ [Grp n amount_re])) t) ->
  whole_amount_at t m n.
Proof.
  intros Hn H. apply finditer_from_at in H.
  destruct H as (pre & post & -> & H).
  apply (match_at_ends amount_re amount_lex bt_amount_exact amount_lex_sound)
    in H; [|exact Hn].
  destruct H as (r & -> & L). now exists pre, r.
Qed.

(** X15. The amount of a deposit line, of an ATM block and of a line of
    the generic pattern is never cut short: the amount group holds all the
    amount text that can be read after the dollar sign (the longest run of
    digits and commas, a point if one follows, the longest run of digits
    after it), whatever follows the match in the text. *)
Theorem amounts_are_read_whole (t : text) (m : mobj) (n : nat)
  (Hm : amount_capture t m n) :
  whole_amount_at t m n.
Proof.
  destruct Hm as [H|H|H].
  - apply (finditer_ends_amount 3
      [Grp 1 (cat [Lit (str "Deposit"); Rep false 0 not_nl]); spaces;
       Grp 2 date_re; spaces; Lit (str "$")]); [discriminate|exact H].
  - apply (finditer_ends_amount 5
      [Lit (str "ATM Withdrawal"); Lit [nl]; Grp 1 (Rep true 1 not_nl);
       Lit [nl]; Grp 2 (Rep false 0 not_nl); Grp 3 date_re; spaces;
       Grp 4 date_re; spaces; Lit (str "$")]); [discriminate|exact H].
  - apply (finditer_ends_amount 3
      [Grp 1 date_re; spaces; Grp 2 (Rep false 0 not_nl); spaces;
       Lit (str "$")]); [discriminate|exact H].
Qed.

Lemma amounts_are_read_whole_witness :
  amount_capture
    (full_text_of [page ["Deposit Ref Nbr: 130012345 05-15 $3,615.08"%string]])
    deposit_example 3 /\
  whole_amount_at
    (full_text_of [page ["Deposit Ref Nbr: 130012345 05-15 $3,615.08"%string]])
    deposit_example 3.
Proof.
  assert (H : amount_capture
    (full_text_of [page ["Deposit Ref Nbr: 130012345 05-15 $3,615.08"%string]])
    deposit_example 3).
  { apply capture_deposit. vm_compute. left. reflexivity. }
  split; [exact H|]. exact (amounts_are_read_whole _ _ _ H).
Defined.

(** ** Header fields *)

Lemma search_leftmost r s m :
  search r s = Some m ->
  exists pre post,
    s = pre ++ post /\ match_at r post = Some m /\
    forall pre' post',
      s = pre' ++ post' -> (length pre' < length pre)%nat ->
      match_at r post' = None.
Proof.
  induction s as [|a s IH]; simpl.
  - destruct (match_at r []) eqn:E; [|discriminate].
    intros H. inversion H; subst. exists [], [].
    split; [reflexivity|]. split; [exact E|]. simpl. intros; lia.
  - destruct (match_at r (a :: s)) eqn:E.
    + intros H. inversion H; subst. exists [], (a :: s).
      split; [reflexivity|]. split; [exact E|]. simpl. intros; lia.
    + intros H. destruct (IH H) as (pre & post & -> & M & L).
      exists (a :: pre), post.
      split; [reflexivity|]. split; [exact M|].
      intros [|a' pre'] post' Heq Hlen; simpl in *.
      * now subst post'.
      * inversion Heq; subst a'. apply (L pre'); [assumption|lia].
Qed.

Lemma match_at_found r pre post m :
  match_at r post = Some m -> search r (pre ++ post) <> None.
Proof.
  intros H. apply match_at_sound in H. destruct H as (rest & -> & D).
  destruct (search_complete r (pre ++ whole m ++ rest) m) as [m' E];
    [now exists pre, rest|congruence].
Qed.

(** A field read with [re.search] from group 1 of a pattern [r] whose
    matches are the occurrences [occ]. *)
Lemma field_of_search r (occ : text -> text -> text -> Prop) lead t :
  (forall pre post m,
     match_at r post = Some m -> occ pre (pre ++ post) (group m 1)) ->
  (forall pre v,
     occ pre t v -> exists post m, t = pre ++ post /\ match_at r post = Some m) ->
  field_from occ lead t
    (match search r t with
     | Some m => lead ++ group m 1
     | None => unknown
     end).
Proof.
  intros Hfound Hocc. destruct (search r t) as [m|] eqn:E.
  - right. apply search_leftmost in E.
    destruct E as (pre & post & -> & M & L).
    exists pre, (group m 1). repeat split; auto.
    intros pre' v' O. destruct (Hocc _ _ O) as (post' & m' & Heq & M').
    destruct (Nat.le_gt_cases (length pre) (length pre')) as [?|Hlt];
      [assumption|].
    rewrite (L _ _ Heq Hlt) in M'. discriminate.
  - left. split; [reflexivity|]. intros pre v O.
    destruct (Hocc _ _ O) as (post & m & -> & M).
    now apply (match_at_found r pre post m M).
Qed.

Lemma amount_lex_den (s a r : text) c :
  amount_lex s = Some (a, r) -> den amount_re a r c c.
Proof.
  unfold amount_lex.
  pose proof (span_cls_spec digit_or_comma s) as [_ A1].
  destruct (span_cls digit_or_comma s) as [ip r1]. cbn [fst snd] in A1.
  destruct ip as [|i ip]; [discriminate|].
  assert (E2 : exists dot r2,
    (match r1 with
     | c :: r => if PyStr.is_char "." c then ([c], r) else ([], r1)
     | [] => ([], r1)
     end) = (dot, r2) /\ (dot = str "." \/ dot = [])).
  { destruct r1 as [|ch r0]; [exists [], []; auto|].
    destruct (PyStr.is_char "." ch) eqn:Ech.
    - apply is_char_true in Ech. subst ch. exists (str "."), r0. auto.
    - exists [], (ch :: r0). auto. }
  destruct E2 as (dot & r2 & -> & Hdot).
  pose proof (span_cls_spec PyStr.is_digit r2) as [_ A3].
  destruct (span_cls PyStr.is_digit r2) as [fp r3]. cbn [fst snd] in A3.
  intros H. inversion H; subst a r.
  change (den amount_re ((i :: ip) ++ dot ++ fp) r3 c c).
  unfold amount_re, opt.
  apply den_cat_cons with (c1 := c); [now apply den_rep1_intro|].
  apply den_cat_cons with (c1 := c).
  { destruct Hdot as [-> | ->]; [left|right]; split; reflexivity. }
  rewrite <- (app_nil_r fp).
  apply den_cat_cons with (c1 := c); [|apply den_cat_nil].
  simpl. repeat split; auto. lia.
Qed.

Lemma digits_lex_den (s a r : text) c :
  digits_lex s = Some (a, r) -> den digits a r c c.
Proof.
  unfold digits_lex. pose proof (span_cls_spec PyStr.is_digit s) as [_ A].
  destruct (span_cls PyStr.is_digit s) as [[|d ds] r0]; [discriminate|].
  cbn [fst] in A. intros H. inversion H; subst a r.
  now apply den_rep1_intro.
Qed.

Lemma account_found pre post m :
  match_at account_re post = Some m -> account_at pre (pre ++ post) (group m 1).
Proof.
  intros M. pose proof (match_at_sound _ _ _ M) as (rest & _ & D).
  apply (match_at_ends digits digits_lex bt_digits_exact digits_lex_sound 1
           [Lit (str "Account"); spaces0; Lit (str "#"); spaces0]) in M;
    [|discriminate].
  destruct M as (r & -> & L). destruct m as [w g]. cbn [whole groups] in *.
  unfold account_re, spaces0 in D.
  repeat den_step. subst.
  exists x2, x8, r. unfold group in *. cbn [whole groups get set Nat.eqb] in *.
  rewrite !app_nil_r, <- !app_assoc. auto.
Qed.

Lemma account_occurs pre t v :
  account_at pre t v ->
  exists post m, t = pre ++ post /\ match_at account_re post = Some m.
Proof.
  intros (w1 & w2 & rest & -> & H1 & H2 & L).
  assert (D : den account_re (str "Account" ++ w1 ++ str "#" ++ w2 ++ v ++ [])
                rest [] [(1%nat, v)]).
  { unfold account_re, spaces0.
    apply den_cat_cons with (c1 := []); [split; reflexivity|].
    apply den_cat_cons with (c1 := []); [simpl; repeat split; auto; lia|].
    apply den_cat_cons with (c1 := []); [split; reflexivity|].
    apply den_cat_cons with (c1 := []); [simpl; repeat split; auto; lia|].
    apply den_cat_cons with (c1 := [(1%nat, v)]); [|apply den_cat_nil].
    exists []. split; [|reflexivity]. rewrite app_nil_l.
    exact (digits_lex_den _ _ _ [] L). }
  apply match_at_complete in D. destruct D as [m E].
  exists (str "Account" ++ w1 ++ str "#" ++ w2 ++ v ++ rest), m.
  split; [reflexivity|]. rewrite <- E. f_equal.
  now rewrite app_nil_r, <- !app_assoc.
Qed.

Lemma balance_found label pre post m :
  match_at (cat [Lit label; Rep true 0 not_dollar; Lit (str "$");
                 Grp 1 amount_re]) post = Some m ->
  balance_at label pre (pre ++ post) (group m 1).
Proof.
  intros M. pose proof (match_at_sound _ _ _ M) as (rest & _ & D).
  apply (match_at_ends amount_re amount_lex bt_amount_exact amount_lex_sound 1
           [Lit label; Rep true 0 not_dollar; Lit (str "$")]) in M;
    [|discriminate].
  destruct M as (r & -> & L). destruct m as [w g]. cbn [whole groups] in *.
  repeat den_step. subst.
  exists x2, r. unfold group in *. cbn [whole groups get set Nat.eqb] in *.
  rewrite !app_nil_r, <- !app_assoc. auto.
Qed.

Lemma balance_occurs label pre t v :
  balance_at label pre t v ->
  exists post m,
    t = pre ++ post /\
    match_at (cat [Lit label; Rep true 0 not_dollar; Lit (str "$");
                   Grp 1 amount_re]) post = Some m.
Proof.
  intros (gap & rest & -> & Hgap & L).
  assert (D : den (cat [Lit label; Rep true 0 not_dollar; Lit (str "$");
                        Grp 1 amount_re])
                (label ++ gap ++ str "$" ++ v ++ [])
                rest [] [(1%nat, v)]).
  { apply den_cat_cons with (c1 := []); [split; reflexivity|].
    apply den_cat_cons with (c1 := []); [simpl; repeat split; auto; lia|].
    apply den_cat_cons with (c1 := []); [split; reflexivity|].
    apply den_cat_cons with (c1 := [(1%nat, v)]); [|apply den_cat_nil].
    exists []. split; [|reflexivity]. rewrite app_nil_l.
    exact (amount_lex_den _ _ _ [] L). }
  apply match_at_complete in D. destruct D as [m E].
  exists (label ++ gap ++ str "$" ++ v ++ rest), m.
  split; [reflexivity|]. rewrite <- E. f_equal.
  now rewrite app_nil_r, <- !app_assoc.
Qed.

(** X16. The account number and the two balances of the header are read
    at the leftmost place of the text where they can be read, and in full.
    The account number is "Unknown" when the text has no "Account",
    optional white space, "#", optional white space and a digit;
    otherwise it is the whole run of digits at the leftmost such place. A
    balance is "Unknown" when no label is followed, as its first dollar
    sign, by one that starts an amount; otherwise it is "$" and the whole
    amount text at the leftmost such label. *)
Theorem header_fields_are_first_occurrences (pages : list (option text)) :
  exists h rows,
    extract_statement_data pages = Ok (h, rows) /\
    field_from account_at [] (full_text_of pages) (account_number h) /\
    field_from (balance_at (str "Beginning Balance")) (str "$")
      (full_text_of pages) (beginning_balance h) /\
    field_from (balance_at (str "Ending Balance")) (str "$")
      (full_text_of pages) (ending_balance h).
Proof.
  destruct (extract_text_total (full_text_of pages))
    as (t1 & t2 & t3 & t4 & _ & _ & _ & _ & H).
  do 2 eexists. split; [exact H|].
  unfold extract_header. cbn [account_number beginning_balance ending_balance].
  split; [|split].
  - apply (field_of_search account_re account_at []).
    + intros pre post m. apply account_found.
    + intros pre v. apply account_occurs.
  - apply (field_of_search begin_re (balance_at (str "Beginning Balance"))).
    + intros pre post m. apply balance_found.
    + intros pre v. apply balance_occurs.
  - apply (field_of_search end_re (balance_at (str "Ending Balance"))).
    + intros pre post m. apply balance_found.
    + intros pre v. apply balance_occurs.
Qed.
